(** * Production Weekly Extractor: field extraction, key normalisation and
      reconciliation (src/Scripts/Production_Weekly_Extractor.py)

    Python strings are modelled as lists of Unicode code points ([pystr]).
    The ASCII behaviour of every string primitive (lower, upper, isspace,
    decimal digits, NFKD, combining class) is written out; the behaviour
    on non-ASCII code points comes from a Unicode character database [UCD],
    a parameter of the whole development, so that the theorems hold for
    every such table. *)

From Stdlib Require Import ZArith List Bool Strings.String Strings.Ascii QArith Lia Lqa.
Import ListNotations.
Open Scope Z_scope.

Definition pystr := list Z.

(** Rocq string literal (ASCII) to a Python string. *)
Definition u (s : string) : pystr :=
  map (fun a => Z.of_nat (Ascii.nat_of_ascii a)) (list_ascii_of_string s).

Definition EN_DASH : Z := 8211.      (* – *)
Definition EM_DASH : Z := 8212.      (* — *)
Definition RSQUO : Z := 8217.        (* ’ *)
Definition LSQUO : Z := 8216.        (* ‘ *)
Definition LDQUO : Z := 8220.        (* “ *)
Definition RDQUO : Z := 8221.        (* ” *)

Fixpoint str_eqb (a b : pystr) : bool :=
  match a, b with
  | [], [] => true
  | x :: a', y :: b' => (x =? y) && str_eqb a' b'
  | _, _ => false
  end.

Definition str_in (s : pystr) (l : list pystr) : bool := existsb (str_eqb s) l.

(** Non-ASCII part of the Unicode database used by CPython. *)
Class UCD := {
  u_lower : Z -> list Z;        (* full lowercase mapping (str.lower) *)
  u_upper : Z -> list Z;        (* full uppercase mapping (str.upper) *)
  u_slower : Z -> Z;            (* simple lowercase (re.IGNORECASE) *)
  u_space : Z -> bool;          (* Py_UNICODE_ISSPACE *)
  u_digit : Z -> option Z;      (* decimal digit value (regex \d, int()) *)
  u_isdigit : Z -> bool;        (* Py_UNICODE_ISDIGIT (str.isdigit) *)
  u_word : Z -> bool;           (* alphanumeric (regex \w, \b) *)
  u_decomp : Z -> list Z;       (* full compatibility decomposition (NFKD) *)
  u_ccc : Z -> Z                (* canonical combining class *)
}.

Section Program.
Context {U : UCD}.

(* ------------------------------------------------------------------ *)
(** ** Python string primitives *)

Definition is_ascii (c : Z) : bool := (0 <=? c) && (c <? 128).

Definition py_isspace (c : Z) : bool :=
  if is_ascii c then ((9 <=? c) && (c <=? 13)) || ((28 <=? c) && (c <=? 32))
  else u_space c.

Definition py_digit (c : Z) : option Z :=
  if is_ascii c then (if (48 <=? c) && (c <=? 57) then Some (c - 48) else None)
  else u_digit c.

Definition py_isdigit (c : Z) : bool :=
  match py_digit c with Some _ => true | None => false end.

Definition py_isword (c : Z) : bool :=
  if is_ascii c then
    ((48 <=? c) && (c <=? 57)) || ((65 <=? c) && (c <=? 90))
    || ((97 <=? c) && (c <=? 122)) || (c =? 95)
  else u_word c.

Definition lower_char (c : Z) : list Z :=
  if is_ascii c then (if (65 <=? c) && (c <=? 90) then [c + 32] else [c])
  else u_lower c.

Definition upper_char (c : Z) : list Z :=
  if is_ascii c then (if (97 <=? c) && (c <=? 122) then [c - 32] else [c])
  else u_upper c.

(** [str.lower] / [str.upper] *)
Definition py_lower (s : pystr) : pystr := flat_map lower_char s.
Definition py_upper (s : pystr) : pystr := flat_map upper_char s.

(** simple case folding used by [re.IGNORECASE] *)
Definition sre_lower (c : Z) : Z :=
  if is_ascii c then (if (65 <=? c) && (c <=? 90) then c + 32 else c)
  else u_slower c.

Fixpoint drop_while (p : Z -> bool) (s : pystr) : pystr :=
  match s with
  | c :: s' => if p c then drop_while p s' else s
  | [] => []
  end.

(** [str.strip()] and [str.strip(chars)] *)
Definition strip_by (p : Z -> bool) (s : pystr) : pystr :=
  rev (drop_while p (rev (drop_while p s))).
Definition py_strip (s : pystr) : pystr := strip_by py_isspace s.
Definition py_strip_chars (chars : pystr) (s : pystr) : pystr :=
  strip_by (fun c => existsb (Z.eqb c) chars) s.

(** [str.split()] : maximal runs of non-whitespace *)
Fixpoint split_ws_aux (cur : pystr) (s : pystr) : list pystr :=
  match s with
  | [] => match cur with [] => [] | _ => [rev cur] end
  | c :: s' =>
      if py_isspace c then
        match cur with
        | [] => split_ws_aux [] s'
        | _ => rev cur :: split_ws_aux [] s'
        end
      else split_ws_aux (c :: cur) s'
  end.
Definition py_split_ws (s : pystr) : list pystr := split_ws_aux [] s.

(** [str.split(sep)] for a one-character separator *)
Fixpoint split_char_aux (sep : Z) (cur : pystr) (s : pystr) : list pystr :=
  match s with
  | [] => [rev cur]
  | c :: s' =>
      if c =? sep then rev cur :: split_char_aux sep [] s'
      else split_char_aux sep (c :: cur) s'
  end.
Definition py_split_char (sep : Z) (s : pystr) : list pystr := split_char_aux sep [] s.

(** [sep.join(l)] *)
Fixpoint py_join (sep : pystr) (l : list pystr) : pystr :=
  match l with
  | [] => []
  | [x] => x
  | x :: l' => x ++ sep ++ py_join sep l'
  end.

Fixpoint py_startswith (s pre : pystr) : bool :=
  match pre, s with
  | [], _ => true
  | p :: pre', c :: s' => (c =? p) && py_startswith s' pre'
  | _ :: _, [] => false
  end.

(** [s.find(sub)] : first index, or [None] for -1 *)
Fixpoint py_find (s sub : pystr) : option nat :=
  if py_startswith s sub then Some O
  else match s with
       | [] => None
       | _ :: s' => option_map S (py_find s' sub)
       end.

(** [sub in s] *)
Definition py_contains (s sub : pystr) : bool :=
  match py_find s sub with Some _ => true | None => false end.

(** [s.replace(old, new)] for one-character [old] and [new] *)
Definition replace_char (old new : Z) (s : pystr) : pystr :=
  map (fun c => if c =? old then new else c) s.

(** unsigned decimal rendering ([str(int)]) *)
Fixpoint digits_of_nat (fuel : nat) (n : Z) (acc : pystr) : pystr :=
  match fuel with
  | O => acc
  | S f => let acc' := (48 + n mod 10) :: acc in
           if n <? 10 then acc' else digits_of_nat f (n / 10) acc'
  end.
Definition z_to_str (n : Z) : pystr :=
  if n <? 0 then 45 :: digits_of_nat 64 (- n) [] else digits_of_nat 64 n [].

(** [f"{n:03d}"] for a non-negative [n] *)
Definition z_to_str03 (n : Z) : pystr :=
  let s := z_to_str n in
  repeat 48 (3 - List.length s)%nat ++ s.

(** [int(digits)] for a string of decimal digits *)
Definition py_int (s : pystr) : Z :=
  fold_left (fun acc c => acc * 10 + match py_digit c with Some d => d | None => 0 end) s 0.

(* ------------------------------------------------------------------ *)
(** ** A backtracking regular-expression matcher (Python [re]) *)

(** Repetitions are over a single character class, as in every pattern of
    the program; [RxRep p lo hi] is greedy and backtracks one character at
    a time, like sre's REPEAT_ONE. Groups record their last span. *)
Inductive rx :=
| RxEps
| RxChar (p : Z -> bool)
| RxRep (p : Z -> bool) (lo : nat) (hi : option nat)
| RxSeq (a b : rx)
| RxAlt (a b : rx)
| RxGroup (n : nat) (a : rx)
| RxBound                     (* \b *)
| RxStart.                    (* ^ *)

Definition cap := list (option (nat * nat)).

Fixpoint set_cap (n : nat) (v : nat * nat) (c : cap) : cap :=
  match n, c with
  | O, _ :: c' => Some v :: c'
  | S n', x :: c' => x :: set_cap n' v c'
  | _, [] => []
  end.

Fixpoint run_len (p : Z -> bool) (s : pystr) : nat :=
  match s with
  | c :: s' => if p c then S (run_len p s') else O
  | [] => O
  end.

Section Matcher.
Variable inp : pystr.
Context {T : Type}.

Fixpoint rep_try (f : nat -> option T) (lo n : nat) : option T :=
  if Nat.ltb n lo then None
  else match f n with
       | Some x => Some x
       | None => match n with O => None | S n' => rep_try f lo n' end
       end.

Definition at_boundary (i : nat) : bool :=
  let before := match i with O => false
                | S i' => match nth_error inp i' with Some c => py_isword c | None => false end end in
  let after := match nth_error inp i with Some c => py_isword c | None => false end in
  xorb before after.

Fixpoint mt (r : rx) (i : nat) (c : cap) (k : nat -> cap -> option T) : option T :=
  match r with
  | RxEps => k i c
  | RxChar p =>
      match nth_error inp i with
      | Some ch => if p ch then k (S i) c else None
      | None => None
      end
  | RxRep p lo hi =>
      let n := run_len p (skipn i inp) in
      let n := match hi with Some h => Nat.min n h | None => n end in
      rep_try (fun j => k (i + j)%nat c) lo n
  | RxSeq a b => mt a i c (fun i' c' => mt b i' c' k)
  | RxAlt a b =>
      match mt a i c k with
      | Some x => Some x
      | None => mt b i c k
      end
  | RxGroup n a => mt a i c (fun i' c' => k i' (set_cap n (i, i') c'))
  | RxBound => if at_boundary i then k i c else None
  | RxStart => if Nat.eqb i 0 then k i c else None
  end.

End Matcher.

Definition match_result := (nat * nat * cap)%type.

(** [pattern.match(inp, pos)] with [ng] groups *)
Definition rx_match_at (r : rx) (ng : nat) (inp : pystr) (i : nat) : option match_result :=
  mt inp r i (repeat None (S ng)) (fun j c => Some (i, j, c)).

Fixpoint search_from (r : rx) (ng : nat) (inp : pystr) (i fuel : nat) : option match_result :=
  match rx_match_at r ng inp i with
  | Some m => Some m
  | None => match fuel with O => None | S f => search_from r ng inp (S i) f end
  end.

(** [pattern.search(inp)] *)
Definition rx_search (r : rx) (ng : nat) (inp : pystr) : option match_result :=
  search_from r ng inp 0 (List.length inp).

Definition substr (inp : pystr) (i j : nat) : pystr := firstn (j - i) (skipn i inp).

(** [m.group(n)] ([None] for an unmatched group *)
Definition group (inp : pystr) (m : match_result) (n : nat) : option pystr :=
  match m with
  | (i, j, c) =>
      match n with
      | O => Some (substr inp i j)
      | _ => match nth_error c n with
             | Some (Some (a, b)) => Some (substr inp a b)
             | _ => None
             end
      end
  end.

(** [re.sub(pattern, repl, inp)]; every pattern given to it in this program
    matches at least one character, the case written out here. *)
Fixpoint sub_loop (r : rx) (ng : nat) (repl inp : pystr) (pos fuel : nat) : pystr :=
  match fuel with
  | O => skipn pos inp
  | S f =>
      match search_from r ng inp pos (List.length inp - pos)%nat with
      | None => skipn pos inp
      | Some (i, j, _) =>
          substr inp pos i ++ repl ++
          (if Nat.eqb i j then
             match nth_error inp i with
             | Some ch => ch :: sub_loop r ng repl inp (S i) f
             | None => []
             end
           else sub_loop r ng repl inp j f)
      end
  end.
Definition rx_sub (r : rx) (ng : nat) (repl inp : pystr) : pystr :=
  sub_loop r ng repl inp 0 (S (List.length inp)).

Fixpoint rx_seq (l : list rx) : rx :=
  match l with
  | [] => RxEps
  | [a] => a
  | a :: l' => RxSeq a (rx_seq l')
  end.

(* character classes *)
Definition cls_space := py_isspace.
Definition cls_digit := py_isdigit.
Definition is_az (c : Z) : bool := (97 <=? c) && (c <=? 122).
Definition is_AZ (c : Z) : bool := (65 <=? c) && (c <=? 90).
Definition cls_alpha (c : Z) : bool := is_az c || is_AZ c.               (* [A-Za-z] *)
(** [A-Za-z] under re.I: sre lowers the character and also accepts the
    fixes ı, ſ and the Kelvin sign *)
Definition cls_alpha_i (c : Z) : bool :=
  let l := sre_lower c in is_az l || (l =? 305) || (l =? 383) || (l =? 8490).
Definition lit (x : Z) (c : Z) : bool := c =? x.
Definition lit_i (x : Z) (c : Z) : bool := sre_lower c =? x.
Definition lits_i (s : string) : rx := rx_seq (map (fun x => RxChar (lit_i x)) (u s)).
Definition lits (s : string) : rx := rx_seq (map (fun x => RxChar (lit x)) (u s)).

(* ------------------------------------------------------------------ *)
(** ** Dates ([datetime.date]) *)

Record date := mkdate { dyear : Z; dmonth : Z; dday : Z }.

Definition is_leap (y : Z) : bool :=
  ((y mod 4 =? 0) && negb (y mod 100 =? 0)) || (y mod 400 =? 0).

Definition days_in_month (y m : Z) : Z :=
  if m =? 2 then (if is_leap y then 29 else 28)
  else if (m =? 4) || (m =? 6) || (m =? 9) || (m =? 11) then 30 else 31.

(** [date(y, m, d)]: [None] where Python raises ValueError *)
Definition py_date (y m d : Z) : option date :=
  if (1 <=? y) && (y <=? 9999) && (1 <=? m) && (m <=? 12)
     && (1 <=? d) && (d <=? days_in_month y m)
  then Some (mkdate y m d) else None.

Definition date_ltb (a b : date) : bool :=
  (dyear a <? dyear b)
  || ((dyear a =? dyear b) && ((dmonth a <? dmonth b)
      || ((dmonth a =? dmonth b) && (dday a <? dday b)))).

Definition date_leb (a b : date) : bool := negb (date_ltb b a).

Definition month_names : list string :=
  ["January"; "February"; "March"; "April"; "May"; "June"; "July"; "August";
   "September"; "October"; "November"; "December"]%string.

(** [MONTHS = {m.lower(): i ...}] (line 1222) *)
Definition MONTHS : list (pystr * Z) :=
  combine (map (fun m => py_lower (u m)) month_names) (map Z.of_nat (seq 1 12)).

Fixpoint assoc_get {V} (k : pystr) (l : list (pystr * V)) : option V :=
  match l with
  | [] => None
  | (k', v) :: l' => if str_eqb k k' then Some v else assoc_get k l'
  end.

(* ------------------------------------------------------------------ *)
(** ** [_parse_date_range] (lines 1677-1681, 1735-1764) *)

(** [RE_DATE_RANGE], compiled with re.I:
    ([A-Za-z]+)\s+(\d{1,2})(?:,\s*(\d{4}))?\s*[-–]\s*([A-Za-z]+)\s+(\d{1,2}),\s*(\d{4}) *)
Definition RE_DATE_RANGE : rx :=
  rx_seq [ RxGroup 1 (RxRep cls_alpha_i 1 None);
           RxRep cls_space 1 None;
           RxGroup 2 (RxRep cls_digit 1 (Some 2%nat));
           RxAlt (rx_seq [ RxChar (lit_i 44); RxRep cls_space 0 None;
                           RxGroup 3 (RxRep cls_digit 4 (Some 4%nat)) ]) RxEps;
           RxRep cls_space 0 None;
           RxChar (fun c => lit_i 45 c || lit_i EN_DASH c);
           RxRep cls_space 0 None;
           RxGroup 4 (RxRep cls_alpha_i 1 None);
           RxRep cls_space 1 None;
           RxGroup 5 (RxRep cls_digit 1 (Some 2%nat));
           RxChar (lit_i 44);
           RxRep cls_space 0 None;
           RxGroup 6 (RxRep cls_digit 4 (Some 4%nat)) ].

Definition opt_bind {A B} (o : option A) (f : A -> option B) : option B :=
  match o with Some a => f a | None => None end.

Definition gstr (txt : pystr) (m : match_result) (n : nat) : pystr :=
  match group txt m n with Some s => s | None => [] end.

(** The body of the [try] block: [None] where it raises. *)
Definition date_range_try (m1 : pystr) (d1 : Z) (start_year : Z)
    (m2 : pystr) (d2 y2 : Z) : option (pystr * date * date) :=
  opt_bind (assoc_get (py_lower m1) MONTHS) (fun mo1 =>
  opt_bind (py_date start_year mo1 d1) (fun sd =>
  opt_bind (assoc_get (py_lower m2) MONTHS) (fun mo2 =>
  opt_bind (py_date y2 mo2 d2) (fun ed =>
  opt_bind (if date_ltb ed sd then py_date (y2 - 1) mo1 d1 else Some sd) (fun sd' =>
  Some (m1 ++ u " " ++ z_to_str d1 ++ [32; EN_DASH; 32] ++ m2 ++ u " "
          ++ z_to_str d2 ++ u ", " ++ z_to_str (dyear ed), sd', ed)))))).

Definition _parse_date_range (block_text : pystr) : pystr * option date * option date :=
  let txt := block_text in
  match rx_search RE_DATE_RANGE 6 txt with
  | None => ([], None, None)
  | Some m =>
      let d1 := py_int (gstr txt m 2) in
      let d2 := py_int (gstr txt m 5) in
      let y2 := py_int (gstr txt m 6) in
      let start_year := match group txt m 3 with Some y1 => py_int y1 | None => y2 end in
      match date_range_try (gstr txt m 1) d1 start_year (gstr txt m 4) d2 y2 with
      | Some (span_text, sd, ed) => (span_text, Some sd, Some ed)
      | None => (gstr txt m 0, None, None)
      end
  end.

(* ------------------------------------------------------------------ *)
(** ** Unicode normalisation ([unicodedata]) *)

(** canonical combining class; every ASCII character has class 0 *)
Definition ccc (c : Z) : Z := if is_ascii c then 0 else u_ccc c.
Definition decomp (c : Z) : list Z := if is_ascii c then [c] else u_decomp c.

(** canonical ordering: a mark moves left past marks of a higher class *)
Fixpoint insert_mark (c : Z) (racc : list Z) : list Z :=
  match racc with
  | x :: r => if ccc c <? ccc x then x :: insert_mark c r else c :: racc
  | [] => [c]
  end.
Definition canonical_order (s : pystr) : pystr :=
  rev (fold_left (fun acc c => if ccc c =? 0 then c :: acc else insert_mark c acc) s []).

(** [unicodedata.normalize("NFKD", s)] *)
Definition nfkd (s : pystr) : pystr := canonical_order (flat_map decomp s).

(** [unicodedata.combining(c)] is the combining class *)
Definition combining (c : Z) : Z := ccc c.

(* ------------------------------------------------------------------ *)
(** ** [_norm_key] (lines 461-499) *)

(** \s*\((?:aka|a\.k\.a\.|w[./-]?\s*t)\s*[:\-]?\s*[^)]*\) with re.I *)
Definition RE_AKA_CLAUSE : rx :=
  rx_seq [ RxRep cls_space 0 None;
           RxChar (lit_i 40);
           RxAlt (lits_i "aka")
             (RxAlt (lits_i "a.k.a.")
                (rx_seq [ RxChar (lit_i 119);
                          RxRep (fun c => lit_i 46 c || lit_i 47 c || lit_i 45 c) 0 (Some 1%nat);
                          RxRep cls_space 0 None;
                          RxChar (lit_i 116) ]));
           RxRep cls_space 0 None;
           RxRep (fun c => lit_i 58 c || lit_i 45 c) 0 (Some 1%nat);
           RxRep cls_space 0 None;
           RxRep (fun c => negb (lit_i 41 c)) 0 None;
           RxChar (lit_i 41) ].

Definition is_ascii_digit (c : Z) : bool := (48 <=? c) && (c <=? 57).

(** [^a-z0-9]+ *)
Definition RE_NON_ALNUM : rx := RxRep (fun c => negb (is_az c || is_ascii_digit c)) 1 None.

Definition _norm_key (name : pystr) : pystr :=
  match name with
  | [] => []
  | _ =>
    let s := py_strip (rx_sub RE_AKA_CLAUSE 0 [] name) in
    let s := nfkd s in
    let s := filter (fun c => combining c =? 0) s in
    let s := replace_char EM_DASH 45 (replace_char EN_DASH 45
             (replace_char RDQUO 34 (replace_char LDQUO 34
             (replace_char LSQUO 39 (replace_char RSQUO 39 s))))) in
    let s := py_strip (py_lower s) in
    let s := rx_sub RE_NON_ALNUM 0 [32] s in
    py_join [32] (py_split_ws s)
  end.

(* ------------------------------------------------------------------ *)
(** ** Reference functions used in the proofs about [re.sub] *)

(** offset and length of the first run of [p]-characters *)
Fixpoint first_run (p : Z -> bool) (l : list Z) : option (nat * nat) :=
  match l with
  | [] => None
  | c :: l' =>
      if p c then Some (O, run_len p l)
      else option_map (fun ab => (S (fst ab), snd ab)) (first_run p l')
  end.

(** every maximal run of [p]-characters replaced by [repl] *)
Fixpoint collapse_runs (p : Z -> bool) (repl : pystr) (inrun : bool) (l : list Z) : list Z :=
  match l with
  | [] => []
  | c :: l' =>
      if p c then (if inrun then collapse_runs p repl true l'
                   else repl ++ collapse_runs p repl true l')
      else c :: collapse_runs p repl false l'
  end.

(** characters of a normalised key *)
Definition keychar (c : Z) : bool := is_az c || is_ascii_digit c.
Definition kc (c : Z) : bool := keychar c || (c =? 32).

Definition key_words (W : list pystr) : Prop :=
  Forall (fun w => w <> [] /\ Forall (fun c => keychar c = true) w) W.


(* ------------------------------------------------------------------ *)
(** ** Rows: the [dict]s read by [csv.DictReader] (every cell a string) *)

Definition row := list (pystr * pystr).

Definition is_empty (s : pystr) : bool := match s with [] => true | _ => false end.

(** [d.get(k, "")] *)
Definition dict_get (d : row) (k : pystr) : pystr :=
  match assoc_get k d with Some v => v | None => [] end.

(** [k in d] *)
Definition dict_in {V} (k : pystr) (d : list (pystr * V)) : bool :=
  match assoc_get k d with Some _ => true | None => false end.

(** [d[k] = v]: an existing key keeps its position, a new key goes last *)
Fixpoint dict_set {V} (k : pystr) (v : V) (d : list (pystr * V)) : list (pystr * V) :=
  match d with
  | [] => [(k, v)]
  | (k', v') :: d' => if str_eqb k k' then (k', v) :: d' else (k', v') :: dict_set k v d'
  end.

Definition take_while (p : Z -> bool) : pystr -> pystr :=
  fix go s := match s with c :: s' => if p c then c :: go s' else [] | [] => [] end.

(* ------------------------------------------------------------------ *)
(** ** [_norm_text], [_equiv] (lines 447-459) *)

Definition RE_WS : rx := RxRep cls_space 1 None.                              (* \s+ *)

Definition _norm_text (s : pystr) : pystr := rx_sub RE_WS 0 [32] (py_lower (py_strip s)).

Definition NA_TOKENS : list pystr := [[]; u "n/a"; u "na"; u "none"; u "-"; [EM_DASH]].

Definition _equiv (a b : pystr) : bool :=
  let sa := _norm_text a in
  let sb := _norm_text b in
  if str_in sa NA_TOKENS && str_in sb NA_TOKENS then true else str_eqb sa sb.

(* ------------------------------------------------------------------ *)
(** ** [_parse_span_flexible] and the field comparators (lines 42-108) *)

(** [_MONTHS], with the empty name at index 0 *)
Definition _MONTHS : list (pystr * Z) :=
  combine (map (fun m => py_lower (u m)) (EmptyString :: month_names)) (map Z.of_nat (seq 0 13)).

(** ([A-Za-z]+)\s+(\d{1,2})\s*-\s*([A-Za-z]+)\s+(\d{1,2})\s+(\d{4}) *)
Definition RE_SPAN_FLEX : rx :=
  rx_seq [ RxGroup 1 (RxRep cls_alpha 1 None);
           RxRep cls_space 1 None;
           RxGroup 2 (RxRep cls_digit 1 (Some 2%nat));
           RxRep cls_space 0 None;
           RxChar (lit 45);
           RxRep cls_space 0 None;
           RxGroup 3 (RxRep cls_alpha 1 None);
           RxRep cls_space 1 None;
           RxGroup 4 (RxRep cls_digit 1 (Some 2%nat));
           RxRep cls_space 1 None;
           RxGroup 5 (RxRep cls_digit 4 (Some 4%nat)) ].

(** the local [mnum]: first month whose name starts with the token's first
    three letters, lowered; [None] when there is none *)
Definition mnum (tok : pystr) : option Z :=
  let tok := firstn 3 (py_lower tok) in
  option_map snd (find (fun p => py_startswith (fst p) tok) _MONTHS).

(** [None] also where the code raises inside its [try]: [date()] on a bad
    or missing month or day, and the wrap branch, which reads the
    undefined name [year] (NameError). *)
Definition _parse_span_flexible (s : pystr) : option (date * date) :=
  match s with
  | [] => None
  | _ =>
    let t := py_strip s in
    let t := filter (fun c => negb (c =? 44)) (replace_char EN_DASH 45 (replace_char EM_DASH 45 t)) in
    match rx_search RE_SPAN_FLEX 5 t with
    | None => None
    | Some m =>
        let d1 := py_int (gstr t m 2) in
        let d2 := py_int (gstr t m 4) in
        let y := py_int (gstr t m 5) in
        opt_bind (mnum (gstr t m 3)) (fun b =>
        opt_bind (py_date y b d2) (fun end_ =>
        opt_bind (mnum (gstr t m 1)) (fun a =>
        opt_bind (py_date y a d1) (fun start =>
        if date_ltb end_ start then None else Some (start, end_)))))
    end
  end.

Definition date_eqb (a b : date) : bool :=
  (dyear a =? dyear b) && (dmonth a =? dmonth b) && (dday a =? dday b).

Definition _equiv_dates (a b : pystr) : bool :=
  match _parse_span_flexible a, _parse_span_flexible b with
  | Some (s1, e1), Some (s2, e2) => date_eqb s1 s2 && date_eqb e1 e2
  | _, _ => _equiv a b
  end.

Definition _TYPE_ALIASES : list (pystr * pystr) :=
  map (fun p => (u (fst p), u (snd p)))
    [("television", "series"); ("tv series", "series"); ("tv", "series");
     ("feature", "feature film"); ("film", "feature film");
     ("feature film", "feature film"); ("series", "series")]%string.

Definition _norm_type (s : pystr) : pystr :=
  let k := py_lower (py_strip s) in
  match assoc_get k _TYPE_ALIASES with Some v => v | None => k end.

(** [re.sub(r"\D", "", s)[-10:]] *)
Definition _norm_phone_for_compare (s : pystr) : pystr :=
  let d := filter cls_digit s in skipn (List.length d - 10) d.

(** [A-Z0-9._%+-]+@[A-Z0-9.-]+\.[A-Z]{2,} with re.I *)
Definition cls_email_user (c : Z) : bool :=
  cls_alpha_i c || is_ascii_digit (sre_lower c) || existsb (Z.eqb (sre_lower c)) [46; 95; 37; 43; 45].
Definition cls_email_host (c : Z) : bool :=
  cls_alpha_i c || is_ascii_digit (sre_lower c) || existsb (Z.eqb (sre_lower c)) [46; 45].
Definition RE_EMAIL_CMP : rx :=
  rx_seq [ RxRep cls_email_user 1 None; RxChar (lit_i 64); RxRep cls_email_host 1 None;
           RxChar (lit_i 46); RxRep cls_alpha_i 2 None ].

Definition _norm_email_for_compare (s : pystr) : pystr :=
  match rx_search RE_EMAIL_CMP 0 s with Some m => py_lower (gstr s m 0) | None => [] end.

(** [strftime("%B")] *)
Definition month_name (m : Z) : pystr := u (nth (Z.to_nat (m - 1)) month_names EmptyString).

Definition _start_month_from_span (s : pystr) : pystr :=
  match _parse_span_flexible s with
  | Some (st, _) => month_name (dmonth st)
  | None => py_strip s
  end.

(* ------------------------------------------------------------------ *)
(** ** [_changed_vs_master] (lines 887-949) *)

Definition _FIELDS_TO_COMPARE_AGAINST_MASTER : list pystr :=
  map u ["Production Name"; "Shooting Dates"; "Start Month"; "City"; "Province/State";
         "Country"; "Type"; "Director/Producer"; "Production Company"]%string.

(** the body of the loop for one field: is [f] appended to [diffs]? *)
Definition master_field_changed (master weekly : row) (f : pystr) : bool :=
  let ov := dict_get master f in
  let nv := dict_get weekly f in
  if str_in (_norm_text nv) NA_TOKENS && negb (str_in (_norm_text ov) NA_TOKENS) then false
  else if str_eqb f (u "Production Name") then negb (str_eqb (_norm_key ov) (_norm_key nv))
  else if str_eqb f (u "Shooting Dates") then negb (_equiv_dates ov nv)
  else if str_eqb f (u "Type") then negb (str_eqb (_norm_type ov) (_norm_type nv))
  else if str_eqb f (u "Start Month") then
    negb (str_eqb (_start_month_from_span (dict_get master (u "Shooting Dates")))
                  (_start_month_from_span (dict_get weekly (u "Shooting Dates"))))
  else if str_eqb f (u "Production Phone") then
    negb (str_eqb (_norm_phone_for_compare ov) (_norm_phone_for_compare nv))
  else if str_eqb f (u "Production Email") then
    negb (str_eqb (_norm_email_for_compare ov) (_norm_email_for_compare nv))
  else negb (_equiv ov nv).

Definition _changed_vs_master (master weekly : row) : list pystr :=
  filter (master_field_changed master weekly) _FIELDS_TO_COMPARE_AGAINST_MASTER.

(** the compared fields that go to the final [_equiv] branch *)
Definition equiv_compared : list pystr :=
  map u ["City"; "Province/State"; "Country"; "Director/Producer"; "Production Company"]%string.

(* ------------------------------------------------------------------ *)
(** ** Region tables (lines 1225-1255, 1362-1381) and [region_bucket] (1622-1663) *)

Definition str_pairs (l : list (string * string)) : list (pystr * pystr) :=
  map (fun p => (u (fst p), u (snd p))) l.

Definition US_STATES : list pystr := map u
  ["AL";"AK";"AZ";"AR";"CA";"CO";"CT";"DE";"DC";"FL";"GA";"HI";"ID";"IL";"IN";"IA";"KS";
   "KY";"LA";"ME";"MD";"MA";"MI";"MN";"MS";"MO";"MT";"NE";"NV";"NH";"NJ";"NM";"NY";"NC";
   "ND";"OH";"OK";"OR";"PA";"RI";"SC";"SD";"TN";"TX";"UT";"VT";"VA";"WA";"WV";"WI";"WY"]%string.

Definition CA_PROV : list pystr := map u
  ["AB";"BC";"MB";"NB";"NL";"NS";"NT";"NU";"ON";"PE";"QC";"SK";"YT"]%string.

Definition FULL_STATE : list (pystr * pystr) := str_pairs
  [("alabama","AL");("alaska","AK");("arizona","AZ");("arkansas","AR");("california","CA");
   ("colorado","CO");("connecticut","CT");("delaware","DE");("district of columbia","DC");
   ("florida","FL");("georgia","GA");("hawaii","HI");("idaho","ID");("illinois","IL");
   ("indiana","IN");("iowa","IA");("kansas","KS");("kentucky","KY");("louisiana","LA");
   ("maine","ME");("maryland","MD");("massachusetts","MA");("michigan","MI");("minnesota","MN");
   ("mississippi","MS");("missouri","MO");("montana","MT");("nebraska","NE");("nevada","NV");
   ("new hampshire","NH");("new jersey","NJ");("new mexico","NM");("new york","NY");
   ("north carolina","NC");("north dakota","ND");("ohio","OH");("oklahoma","OK");("oregon","OR");
   ("pennsylvania","PA");("rhode island","RI");("south carolina","SC");("south dakota","SD");
   ("tennessee","TN");("texas","TX");("utah","UT");("vermont","VT");("virginia","VA");
   ("washington","WA");("west virginia","WV");("wisconsin","WI");("wyoming","WY")]%string.

(** the repeated key "newfoundland and labrador" keeps one entry *)
Definition FULL_PROV : list (pystr * pystr) := str_pairs
  [("alberta","AB");("british columbia","BC");("manitoba","MB");("new brunswick","NB");
   ("newfoundland and labrador","NL");("nova scotia","NS");("northwest territories","NT");
   ("nunavut","NU");("ontario","ON");("prince edward island","PE");("quebec","QC");
   ("saskatchewan","SK");("yukon","YT");("newfoundland","NL")]%string.

Definition AU_STATES : list pystr := map u ["NSW";"VIC";"QLD";"WA";"SA";"TAS";"ACT";"NT"]%string.

Definition FULL_AU_STATE : list (pystr * pystr) := str_pairs
  [("new south wales","NSW");("victoria","VIC");("queensland","QLD");("western australia","WA");
   ("south australia","SA");("tasmania","TAS");("australian capital territory","ACT");
   ("northern territory","NT")]%string.

Definition COUNTRY_ALIASES : list (pystr * pystr) := str_pairs
  [("usa","USA");("u.s.a.","USA");("u.s.","USA");("us","USA");("united states","USA");
   ("united states of america","USA");("america","USA");
   ("canada","Canada");("can.","Canada");("can","Canada");
   ("united kingdom","United Kingdom");("u.k.","United Kingdom");("uk","United Kingdom");
   ("england","United Kingdom");("scotland","United Kingdom");("wales","United Kingdom");
   ("northern ireland","United Kingdom");
   ("australia","Australia");("aus","Australia");("new zealand","New Zealand");("nz","New Zealand");
   ("ireland","Ireland");("hungary","Hungary");("poland","Poland");("czech republic","Czech Republic");
   ("czechia","Czech Republic");("france","France");("germany","Germany");("spain","Spain");
   ("italy","Italy");("portugal","Portugal");("thailand","Thailand");("egypt","Egypt");
   ("japan","Japan");("korea","South Korea");("south korea","South Korea")]%string.

Definition EU_COUNTRIES : list pystr := map u
  ["United Kingdom";"Ireland";"France";"Germany";"Spain";"Italy";"Netherlands";"Belgium";
   "Austria";"Switzerland";"Czech Republic";"Poland";"Romania";"Bulgaria";"Denmark";"Sweden";
   "Norway";"Finland";"Iceland";"Portugal";"Greece";"Slovakia";"Slovenia";"Croatia";"Lithuania";
   "Latvia";"Estonia";"Luxembourg";"Malta";"Hungary";"Serbia"]%string.

Definition _as_country (token : pystr) : pystr :=
  match assoc_get (py_lower (py_strip token)) COUNTRY_ALIASES with Some v => v | None => [] end.

(** [(s.split("+")[0] if s else "")] *)
Definition first_component (s : pystr) : pystr :=
  match py_split_char 43 s with x :: _ => x | [] => [] end.

Definition first_region_of (region : pystr) : pystr := py_upper (py_strip (first_component region)).
Definition first_country_of (country : pystr) : pystr := py_strip (first_component country).

(** the local [ctry] of [region_bucket]: the normalised first country, or
    the country inferred from the first region *)
Definition region_bucket_country (first_region first_country : pystr) : pystr :=
  let ctry := match _as_country (py_lower first_country) with [] => first_country | a => a end in
  if is_empty ctry && negb (is_empty first_region) then
    if str_in first_region US_STATES || dict_in (py_lower first_region) FULL_STATE then u "USA"
    else if str_in first_region CA_PROV || dict_in (py_lower first_region) FULL_PROV then u "Canada"
    else if str_in first_region AU_STATES || dict_in (py_lower first_region) FULL_AU_STATE
    then u "Australia"
    else ctry
  else ctry.

Definition region_bucket (city region country : pystr) : pystr :=
  let first_city := py_strip (first_component city) in
  let first_region := first_region_of region in
  let first_country := first_country_of country in
  let ctry := region_bucket_country first_region first_country in
  if str_eqb ctry (u "Canada") then
    (if str_eqb first_region (u "BC") then u "West Coast Canada"
     else if str_eqb first_region (u "QC") then u "Quebec"
     else u "East Coast Canada")
  else if str_in ctry (map u ["USA"; "United States"]%string) then u "United States"
  else if str_in ctry (map u ["Ireland"; "Hungary"]%string) then u "Ireland/Hungary"
  else if str_in ctry (map u ["Australia"; "New Zealand"]%string) then u "Australia/New Zealand"
  else if str_in ctry EU_COUNTRIES then u "Europe/Other"
  else u "Other".

(* ------------------------------------------------------------------ *)
(** ** [_status_and_location_from_lines] (lines 598-654) *)

(** [s.split(":", 1)[1]], for [s] containing a colon *)
Definition after_colon (s : pystr) : pystr :=
  match py_find s [58] with Some p => skipn (S p) s | None => [] end.

(** [s.split(None, 1)] *)
Definition py_split_ws_max1 (s : pystr) : list pystr :=
  match drop_while py_isspace s with
  | [] => []
  | s1 =>
      let tok := take_while (fun c => negb (py_isspace c)) s1 in
      match drop_while py_isspace (drop_while (fun c => negb (py_isspace c)) s1) with
      | [] => [tok]
      | rest => [tok; rest]
      end
  end.

Definition STATUS_STRIP : pystr := [32; 58; 45; 9].              (* " :-\t" *)

(** one iteration of the loop, on line [i] = [ln] of [lines], before the
    test that ends it *)
Definition sl_step (lines : list pystr) (i : nat) (ln : pystr) (st : pystr * pystr) : pystr * pystr :=
  let '(status_val, location_val) := st in
  let up := py_strip (py_upper ln) in
  if py_startswith up (u "STATUS") && py_contains up (u "LOCATION") then
    let loc_pos := match py_find up (u "LOCATION") with Some p => p | None => O end in
    let status_part := firstn loc_pos ln in
    let loc_part := skipn loc_pos ln in
    let status_val :=
      if py_contains status_part [58] then py_strip (after_colon status_part)
      else py_strip_chars STATUS_STRIP (skipn 6 status_part) in
    let location_val :=
      if py_contains loc_part [58] then py_strip (after_colon loc_part)
      else match py_split_ws_max1 loc_part with
           | _ :: after1 :: _ => py_strip after1
           | _ => []
           end in
    (status_val, location_val)
  else
    let status_val :=
      if py_startswith up (u "STATUS") then
        (if py_contains ln [58] then py_strip (after_colon ln)
         else py_strip_chars STATUS_STRIP (skipn 6 ln))
      else status_val in
    let location_val :=
      if py_startswith up (u "LOCATION") then
        (if py_contains ln [58] then py_strip (after_colon ln)
         else match nth_error lines (S i) with
              | Some nxt => py_strip nxt
              | None => location_val
              end)
      else location_val in
    (status_val, location_val).

Definition both_found (st : pystr * pystr) : bool :=
  negb (is_empty (fst st)) && negb (is_empty (snd st)).

Fixpoint sl_loop (lines : list pystr) (i : nat) (rest : list pystr) (st : pystr * pystr)
    : pystr * pystr :=
  match rest with
  | [] => st
  | ln :: rest' =>
      let st' := sl_step lines i ln st in
      if both_found st' then st' else sl_loop lines (S i) rest' st'
  end.

Definition _status_and_location_from_lines (lines : list pystr) : pystr * pystr :=
  sl_loop lines 0 lines ([], []).

(** Reference function for the proofs about the scanner: the state after
    the first [n] lines of [rest], without the early exit. *)
Fixpoint sl_run_from (lines : list pystr) (i : nat) (rest : list pystr) (st : pystr * pystr)
    (n : nat) {struct n} : pystr * pystr :=
  match n with
  | O => st
  | S n' => match rest with
            | ln :: rest' => sl_run_from lines (S i) rest' (sl_step lines i ln st) n'
            | [] => st
            end
  end.
Definition sl_prefix (lines : list pystr) (n : nat) : pystr * pystr :=
  sl_run_from lines 0 lines ([], []) n.

(* ------------------------------------------------------------------ *)
(** ** Run-to-run [compare_cmd] (lines 1685-1691, 2060-2144) *)

Definition SCHEMA : list pystr := map u
  ["Production Name"; "Format Label"; "Start Month"; "Shooting Dates"; "Actively in Production";
   "If It Was Pushed"; "Computed Production Length"; "Description"; "City"; "Province/State";
   "Country"; "Type"; "Director/Producer"; "VFX Team"; "Studio Info"; "Production Office";
   "Production Phone"; "Production Email"; "Production Company"; "Notes"; "Category";
   "All Locations"]%string.

Definition fill_na (r : row) : row :=
  fold_left (fun out k => if is_empty (py_strip (dict_get out k)) then dict_set k (u "N/A") out else out)
    SCHEMA r.

Definition _changed_fields (old new : row) : list pystr :=
  filter (fun f => negb (_equiv (dict_get old f) (dict_get new f)))
    (map u ["Production Name"; "Shooting Dates"; "Start Month"; "City"; "Province/State"; "Country";
            "Type"; "Format Label"; "Director/Producer"; "All Locations";
            "Production Office"; "Production Company"]%string).

Definition qltb (a b : Q) : bool := negb (Qle_bool b a).

Definition NOTE_DASH : pystr := [32; EN_DASH; 32].               (* " – " *)

Section Compare.
(** [fuzz.token_set_ratio] of rapidfuzz, a float in [0, 100] *)
Variable token_set_ratio : pystr -> pystr -> Q.

(** The old rows carry their [_matched] flag. *)
Fixpoint best_match_from (n_title_norm : pystr) (olds : list (row * bool)) (j : nat)
    (best : option (nat * row) * Q) : option (nat * row) * Q :=
  match olds with
  | [] => best
  | (o_row, matched) :: olds' =>
      if matched then best_match_from n_title_norm olds' (S j) best
      else
        let o_title_norm := _norm_text (dict_get o_row (u "Production Name")) in
        let score := token_set_ratio n_title_norm o_title_norm in
        best_match_from n_title_norm olds' (S j)
          (if qltb (snd best) score then (Some (j, o_row), score) else best)
  end.

(** [best_match_row, best_score = None, 0] and the inner loop *)
Definition best_match (n_title_norm : pystr) (olds : list (row * bool)) : option (nat * row) * Q :=
  best_match_from n_title_norm olds 0 (None, 0%Q).

(** [best_match_row['_matched'] = True] *)
Fixpoint mark_matched (j : nat) (olds : list (row * bool)) : list (row * bool) :=
  match olds, j with
  | [], _ => []
  | (o, _) :: olds', O => (o, true) :: olds'
  | x :: olds', S j' => x :: mark_matched j' olds'
  end.

(** one iteration of the loop over the new rows: the updated old rows and
    the rows appended to [out_rows]; [None] where the code raises
    (subscripting a [None] best match) *)
Definition compare_step (new_label : pystr) (olds : list (row * bool)) (n_row : row)
    : option (list (row * bool) * list row) :=
  let n_title_norm := _norm_text (dict_get n_row (u "Production Name")) in
  let '(best_match_row, best_score) := best_match n_title_norm olds in
  let score_percent := best_score in
  if qltb 90%Q score_percent then
    match best_match_row with
    | None => None
    | Some (j, o) =>
        let diffs := _changed_fields o n_row in
        Some (mark_matched j olds,
              match diffs with
              | [] => []
              | _ => [fill_na (dict_set (u "Notes") (u "UPDATED (" ++ py_join (u ", ") diffs ++ u ")")
                                 (dict_set (u "Category") (u "Updated") n_row))]
              end)
    end
  else if Qle_bool 50%Q score_percent && Qle_bool score_percent 90%Q then
    match best_match_row with
    | None => None
    | Some (j, o) =>
        let old_name := dict_get o (u "Production Name") in
        let new_name := dict_get n_row (u "Production Name") in
        Some (mark_matched j olds,
              [fill_na (dict_set (u "Notes")
                          (u "UPDATED (Name changed from '" ++ old_name ++ u "' to '"
                             ++ new_name ++ u "')")
                          (dict_set (u "Category") (u "Updated") n_row))])
    end
  else
    Some (olds, [fill_na (dict_set (u "Notes") (u "NEW" ++ NOTE_DASH ++ u "from " ++ new_label)
                            (dict_set (u "Category") (u "New") n_row))]).

Fixpoint compare_loop (new_label : pystr) (olds : list (row * bool)) (new_rows : list row)
    (out_rows : list row) : option (list (row * bool) * list row) :=
  match new_rows with
  | [] => Some (olds, out_rows)
  | n_row :: new_rows' =>
      match compare_step new_label olds n_row with
      | None => None
      | Some (olds', out) => compare_loop new_label olds' new_rows' (out_rows ++ out)
      end
  end.

(** The rows written to the comparison CSV, before the projection to
    [COMPARE_SCHEMA]. (The [_matched] entry of a removed row is dropped by
    the writer's [extrasaction="ignore"] and is not kept here.) *)
Definition compare_rows (old_rows new_rows : list row) (old_label new_label : pystr)
    : option (list row) :=
  match compare_loop new_label (map (fun o => (o, false)) old_rows) new_rows [] with
  | None => None
  | Some (olds, out_rows) =>
      Some (out_rows ++
            flat_map (fun p : row * bool => if snd p then []
                               else [fill_na (dict_set (u "Notes") (u "REMOVED" ++ NOTE_DASH ++ u "from " ++ old_label)
                                                (dict_set (u "Category") (u "Removed") (fst p)))])
              olds)
  end.

End Compare.

(** [_collapse_dupes] (lines 1985-1998) *)
Definition collapse_score (r : row) : Z :=
  Z.of_nat (List.length (filter (fun f =>
     let v := py_strip (dict_get r f) in negb (is_empty v) && negb (str_eqb v (u "N/A")))
   (map u ["Shooting Dates"; "Description"; "Director/Producer"; "All Locations"; "City";
           "Province/State"; "Country"]%string))).

Definition collapse_step (st : list pystr * list (pystr * row) * list (pystr * pystr)) (r : row)
    : list pystr * list (pystr * row) * list (pystr * pystr) :=
  let '(order, best, dupes) := st in
  let k := _norm_key (dict_get r (u "Production Name")) in
  if is_empty k then st
  else match assoc_get k best with
       | None => (order ++ [k], dict_set k r best, dupes)
       | Some b =>
           (order, (if Z.ltb (collapse_score b) (collapse_score r) then dict_set k r best else best),
            dupes ++ [(dict_get r (u "Production Name"), dict_get b (u "Production Name"))])
       end.

Definition _collapse_dupes (rows : list row) : list (pystr * row) * list (pystr * pystr) :=
  let '(order, best, dupes) := fold_left collapse_step rows ([], [], []) in
  (flat_map (fun k => match assoc_get k best with Some r => [(k, r)] | None => [] end) order, dupes).

(* ------------------------------------------------------------------ *)
(** ** [master_compare_cmd] (lines 830-840, 857-860, 1798-1827, 2004-2057, 970-1088) *)

Definition MASTER_SCHEMA : list pystr := map u
  ["Region Bucket"; "Category"; "Production Name"; "Issue Link"; "Start Month"; "Shooting Dates";
   "Actively in Production"; "Date Pushed Back?"; "Length (Days)"; "Description"; "City";
   "Province/State"; "Country"; "Type"; "Director/Producer"; "VFX Notes"; "IMDb Link";
   "Studio Name"; "Production Office"; "Production Phone/Email"; "Prod. Co"]%string.

(** [str.isdigit()] *)
Definition py_str_isdigit (s : pystr) : bool :=
  negb (is_empty s)
  && forallb (fun c => if is_ascii c then (48 <=? c) && (c <=? 57) else u_isdigit c) s.

Definition _region_from_master (rows : list row) : pystr :=
  let vals := fold_left (fun acc r =>
                let v := py_strip (dict_get r (u "Region")) in
                if is_empty v || str_in v acc then acc else acc ++ [v]) rows [] in
  match vals with [v] => v | _ => [] end.

(** ^(January|...|December)\s+(\d{4})\b *)
Fixpoint rx_alt (l : list rx) : rx :=
  match l with
  | [] => RxEps
  | [a] => a
  | a :: l' => RxAlt a (rx_alt l')
  end.

Definition RE_START_MONTH : rx :=
  rx_seq [ RxStart; RxGroup 1 (rx_alt (map lits month_names)); RxRep cls_space 1 None;
           RxGroup 2 (RxRep cls_digit 4 (Some 4%nat)); RxBound ].

Definition _start_date_from_shooting_dates (s : pystr) : option date :=
  match rx_search RE_DATE_RANGE 6 s with
  | None => None
  | Some m =>
      let y := match group s m 3 with
               | Some y1 => if is_empty y1 then gstr s m 6 else y1
               | None => gstr s m 6 end in
      opt_bind (assoc_get (py_lower (gstr s m 1)) MONTHS) (fun mo =>
        py_date (py_int y) mo (py_int (gstr s m 2)))
  end.

Definition _approx_start_date_from_start_month (s : pystr) : option date :=
  match s with
  | [] => None
  | _ =>
      let t := py_strip s in
      match rx_match_at RE_START_MONTH 2 t 0 with
      | None => None
      | Some m =>
          opt_bind (assoc_get (py_lower (gstr t m 1)) MONTHS) (fun mo =>
            py_date (py_int (gstr t m 2)) mo 1)
      end
  end.

(** [baseline_index = {_norm_key(t): i+1 for i, t in enumerate(base_titles)}] *)
Definition baseline_index (base_titles : list pystr) : list (pystr * Z) :=
  snd (fold_left (fun acc t => (fst acc + 1, dict_set (_norm_key t) (fst acc + 1) (snd acc)))
         base_titles (0, [])).

(** the loops building [m_map], and [w_map] with [w_order] (its keys in order) *)
Definition build_key_map (rows : list row) : list (pystr * row) :=
  fold_left (fun m r =>
    let k := _norm_key (dict_get r (u "Production Name")) in
    if negb (is_empty k) && negb (dict_in k m) then m ++ [(k, r)] else m) rows [].

Section Master.
(** [detect_prod_co] (line 1890) *)
Variable detect_prod_co : row -> pystr.

(** [None] where [int(days)] raises: a string of digits that are not all decimal *)
Definition to_master_row (r : row) (issue_link : pystr) : option row :=
  let days := py_strip (dict_get r (u "Computed Production Length")) in
  if py_str_isdigit days && negb (forallb py_isdigit days) then None
  else
    let city := dict_get r (u "City") in
    let region := dict_get r (u "Province/State") in
    let country := dict_get r (u "Country") in
    let bucket := region_bucket city region country in
    Some [ (u "Region Bucket", bucket);
           (u "Category", dict_get r (u "Category"));
           (u "Production Name", dict_get r (u "Production Name"));
           (u "Issue Link", issue_link);
           (u "Start Month", dict_get r (u "Start Month"));
           (u "Shooting Dates", dict_get r (u "Shooting Dates"));
           (u "Actively in Production", dict_get r (u "Actively in Production"));
           (u "Date Pushed Back?", dict_get r (u "If It Was Pushed"));
           (u "Length (Days)", days);
           (u "Description", dict_get r (u "Description"));
           (u "City", city);
           (u "Province/State", region);
           (u "Country", country);
           (u "Type", dict_get r (u "Type"));
           (u "Director/Producer", dict_get r (u "Director/Producer"));
           (u "VFX Notes", dict_get r (u "VFX Team"));
           (u "IMDb Link", []);
           (u "Studio Name", dict_get r (u "Studio Info"));
           (u "Production Office", dict_get r (u "Production Office"));
           (u "Production Phone/Email",
              py_strip (dict_get r (u "Production Phone") ++ [32] ++ dict_get r (u "Production Email")));
           (u "Prod. Co", detect_prod_co r) ].

(** [_weekly_to_master_projection(output_row, region, weekly_label)] *)
Definition _weekly_to_master_projection (weekly_row : row) (region_label issue_link : pystr) : option row :=
  to_master_row weekly_row issue_link.

(** the body of [for k in w_order] *)
Definition master_compare_one (m_map : list (pystr * row)) (bidx : list (pystr * Z))
    (weekly_label region : pystr) (k : pystr) (weekly_record : row) : option (list row) :=
  let ordinal := match assoc_get k bidx with Some i => i | None => 0 end in
  match assoc_get k m_map with
  | Some master_record =>
      match _changed_vs_master master_record weekly_record with
      | [] => Some []
      | diffs =>
          let ms := _start_date_from_shooting_dates (dict_get master_record (u "Shooting Dates")) in
          let ws := _start_date_from_shooting_dates (dict_get weekly_record (u "Shooting Dates")) in
          let '(ms, ws) :=
            match ms, ws with
            | Some _, Some _ => (ms, ws)
            | _, _ =>
                (match ms with Some _ => ms
                 | None => _approx_start_date_from_start_month (dict_get master_record (u "Start Month")) end,
                 match ws with Some _ => ws
                 | None => _approx_start_date_from_start_month (dict_get weekly_record (u "Start Month")) end)
            end in
          let pushed := match ms, ws with Some a, Some b => date_ltb a b | _, _ => false end in
          let note := u "UPDATED vs Master (" ++ py_join (u ", ") diffs ++ u ")" ++ NOTE_DASH
                      ++ u "Prod. #" ++ z_to_str03 ordinal ++ u " (" ++ weekly_label ++ u ")" in
          let note := if pushed then note ++ u " | Date pushed back" else note in
          let output_row := dict_set (u "Category") (u "Updated vs Master") weekly_record in
          let output_row := dict_set (u "Notes") note output_row in
          let output_row := if pushed then dict_set (u "If It Was Pushed") (u "Yes") output_row
                            else output_row in
          option_map (fun r => [r]) (_weekly_to_master_projection output_row region weekly_label)
      end
  | None =>
      let note := u "NEW to Master" ++ NOTE_DASH ++ u "Prod. #" ++ z_to_str03 ordinal
                  ++ u " (" ++ weekly_label ++ u ")" in
      let output_row := dict_set (u "Category") (u "New to Master") weekly_record in
      let output_row := dict_set (u "Notes") note output_row in
      option_map (fun r => [r]) (_weekly_to_master_projection output_row region weekly_label)
  end.

Fixpoint master_compare_loop (m_map : list (pystr * row)) (bidx : list (pystr * Z))
    (weekly_label region : pystr) (w_map : list (pystr * row)) : option (list row) :=
  match w_map with
  | [] => Some []
  | (k, weekly_record) :: w_map' =>
      opt_bind (master_compare_one m_map bidx weekly_label region k weekly_record) (fun rs =>
      option_map (fun rest => rs ++ rest) (master_compare_loop m_map bidx weekly_label region w_map'))
  end.

(** [diff_rows_master], the rows given to the writer, from the rows read from
    the master CSV, the weekly CSV and the weekly baseline *)
Definition master_compare_rows (master_rows weekly_rows : list row) (base_titles : list pystr)
    (weekly_label region : pystr) : option (list row) :=
  let bidx := baseline_index base_titles in
  let region := if is_empty region then _region_from_master master_rows else region in
  let m_map := build_key_map master_rows in
  let w_kept := filter (fun r =>
                  if is_empty region then true
                  else str_eqb (region_bucket (dict_get r (u "City")) (dict_get r (u "Province/State"))
                                  (dict_get r (u "Country"))) region) weekly_rows in
  let w_map := build_key_map w_kept in
  master_compare_loop m_map bidx weekly_label region w_map.

End Master.

(* ------------------------------------------------------------------ *)
(** ** Gazetteer: [world_lookup_city] (lines 1145-1219) *)

(** an entry of [geonamescache]'s city table *)
Record gcity := mkcity { gc_name : pystr; gc_countrycode : pystr; gc_admin1code : pystr }.

(** [sorted(l, key=key, reverse=True)]: stable, so equal keys keep their order *)
Fixpoint insert_desc {A} (key : A -> Z) (x : A) (l : list A) : list A :=
  match l with
  | [] => [x]
  | y :: l' => if key y <? key x then x :: l else y :: insert_desc key x l'
  end.
Definition sort_desc {A} (key : A -> Z) (l : list A) : list A :=
  fold_left (fun acc x => insert_desc key x acc) l [].


Section Gazetteer.
(** [_GC_CITIES.values()] in its order *)
Variable _GC_CITIES : list gcity.
(** [_GC_CNTRY.get(iso2, {}).get("name", "")] *)
Variable country_name : pystr -> pystr.
(** [_iso2_to_admin1_map().get(iso2, {})], from pycountry *)
Variable admin1_map : pystr -> list (pystr * pystr).
(** [fuzz.partial_ratio] of rapidfuzz, a float in [0, 100] *)
Variable partial_ratio : pystr -> pystr -> Q.



(** the fuzzy loop: first strictly better score, stopping at a score >= 98 *)
Fixpoint fuzzy_scan (q : pystr) (cities : list gcity) (best : option pystr * Q) : option pystr * Q :=
  match cities with
  | [] => best
  | c :: cities' =>
      let s := partial_ratio q (py_lower (gc_name c)) in
      if qltb (snd best) s then
        (if Qle_bool 98%Q s then (Some (py_lower (gc_name c)), s)
         else fuzzy_scan q cities' (Some (py_lower (gc_name c)), s))
      else fuzzy_scan q cities' best
  end.



End Gazetteer.






(* ------------------------------------------------------------------ *)
(** ** Master CSV headers: [_MASTER_ALIASES], [_canon_header] and
       [_read_master_rows] (lines 787-858) *)

(** the dict after its [update]: every added key is new, so it goes last *)
Definition _MASTER_ALIASES : list (pystr * pystr) := str_pairs
  [("production name","Production Name"); ("title","Production Name");
   ("issue link","Issue Link"); ("start month","Start Month");
   ("shooting dates","Shooting Dates"); ("actively in production","Actively in Production");
   ("date pushed back?","Date Pushed Back?"); ("length (days)","Length (Days)");
   ("description","Description"); ("city","City"); ("province/state","Province/State");
   ("state/province","Province/State"); ("country","Country"); ("type","Type");
   ("director/producer","Director/Producer"); ("vfx notes","VFX Notes");
   ("imdb link","IMDb Link"); ("studio name","Studio Name");
   ("production office","Production Office"); ("production phone/email","Production Phone/Email");
   ("production company","Production Company"); ("vfx contact","VFX Contact");
   ("region","Region");
   ("production weekly","Issue Link"); ("act in prod","Actively in Production");
   ("prod. ph# / email","Production Phone/Email"); ("prod. co.","Production Company");
   ("colour key:",""); ("green = reached out or already have it","");
   ("yellow = reach out",""); ("red = unsure / contact asap or not at all","");
   ("unnamed: 0",""); ("unnamed: 1",""); ("unnamed: 2","")]%string.

Definition _canon_header (name : pystr) : pystr :=
  match assoc_get (py_lower (py_strip name)) _MASTER_ALIASES with Some v => v | None => name end.

(** [rec]: the cells of [r] under the non-empty canonical headers, a later
    column overwriting an earlier one of the same name *)
Definition master_record (headers : list pystr) (r : list pystr) : row :=
  fold_left (fun rec ih =>
    let '(i, h) := ih in if is_empty h then rec else dict_set h (nth i r []) rec)
    (combine (seq 0 (List.length headers)) headers) [].

(** [header_idx]: the first of the first 20 rows with a cell
    "production name" (stripped, lowered), else 0 *)
Definition master_header_idx (rows : list (list pystr)) : nat :=
  match find (fun i => str_in (u "production name")
                         (map (fun c => py_lower (py_strip c)) (nth i rows [])))
             (seq 0 (Nat.min 20 (List.length rows))) with
  | Some i => i
  | None => O
  end.

(** [_read_master_rows], from the rows given by [csv.reader] *)
Definition _read_master_rows (rows : list (list pystr)) : list row :=
  match rows with
  | [] => []
  | _ =>
    let header_idx := master_header_idx rows in
    let headers := map _canon_header (nth header_idx rows []) in
    flat_map (fun r =>
      if negb (existsb (fun c => negb (is_empty (py_strip c))) r) then []
      else let rec := master_record headers r in
           if is_empty (py_strip (dict_get rec (u "Production Name"))) then [] else [rec])
      (skipn (S header_idx) rows)
  end.

(* ------------------------------------------------------------------ *)
(** ** Location tokens (lines 1364-1403) *)

Definition COMMON_FIXES : list (pystr * pystr) := str_pairs
  [("ontartio","ontario"); ("los angles","los angeles"); ("newyork","new york");
   ("united kindom","united kingdom"); ("united kngdom","united kingdom");
   ("tokoyo","tokyo"); ("munchen","munich"); ("prauge","prague")]%string.

Definition _fix_common_typos (s : pystr) : pystr :=
  match s with
  | [] => s
  | _ => let key := py_lower (py_strip s) in
         match assoc_get key COMMON_FIXES with Some v => v | None => s end
  end.

(** [re.sub(r"[ \t]+", " ", (s or "").strip())] *)
Definition _normalize_spaces (s : pystr) : pystr :=
  rx_sub (RxRep (fun c => (c =? 32) || (c =? 9)) 1 None) 0 [32] (py_strip s).

Definition _looks_like_region_token (token : pystr) : pystr * pystr :=
  match token with
  | [] => ([], [])
  | _ =>
    let up := py_upper (py_strip token) in
    let lo := py_lower (py_strip token) in
    if str_in up US_STATES then (up, u "USA")
    else if str_in up CA_PROV then (up, u "Canada")
    else if str_in up AU_STATES then (up, u "Australia")
    else match assoc_get lo FULL_STATE with
         | Some v => (v, u "USA")
         | None =>
           match assoc_get lo FULL_PROV with
           | Some v => (v, u "Canada")
           | None =>
             match assoc_get lo FULL_AU_STATE with
             | Some v => (v, u "Australia")
             | None => ([], [])
             end
           end
         end
  end.

(* ------------------------------------------------------------------ *)
(** ** [_start_month_from_status] (lines 656-687) *)

(** [^0-9], the ASCII complement of the class *)
Definition cls_not_ascii_digit (c : Z) : bool := negb (is_ascii_digit c).

(** \b(January|...|December)\b(?:[^0-9]{0,10}\d{1,2})?[^0-9]{0,10}(\d{4}) *)
Definition RE_STATUS_MONTH : rx :=
  rx_seq [ RxBound; RxGroup 1 (rx_alt (map lits month_names)); RxBound;
           RxAlt (rx_seq [ RxRep cls_not_ascii_digit 0 (Some 10%nat);
                           RxRep cls_digit 1 (Some 2%nat) ]) RxEps;
           RxRep cls_not_ascii_digit 0 (Some 10%nat);
           RxGroup 2 (RxRep cls_digit 4 (Some 4%nat)) ].

(** [None] where [txt.split()[0]] raises IndexError *)
Definition _start_month_from_status (status_val : pystr) : option pystr :=
  match status_val with
  | [] => Some []
  | _ =>
    let txt := py_strip status_val in
    match rx_search RE_STATUS_MONTH 2 txt with
    | Some m => Some (gstr txt m 1 ++ [32] ++ gstr txt m 2)
    | None =>
        match py_split_ws txt with
        | first_tok :: _ => Some (_normalize_spaces first_tok)
        | [] => None
        end
    end
  end.

(* ------------------------------------------------------------------ *)
(** ** [_inclusive_days] (lines 1767-1769), with [date.toordinal] *)

(** [datetime._DAYS_BEFORE_MONTH] *)
Definition _DAYS_BEFORE_MONTH : list Z := [-1; 0; 31; 59; 90; 120; 151; 181; 212; 243; 273; 304; 334].

Definition _days_before_year (year : Z) : Z :=
  let y := year - 1 in y * 365 + y / 4 - y / 100 + y / 400.

Definition _days_before_month (year month : Z) : Z :=
  nth (Z.to_nat month) _DAYS_BEFORE_MONTH 0 + (if (month >? 2) && is_leap year then 1 else 0).

(** [_ymd2ord] *)
Definition toordinal (d : date) : Z :=
  _days_before_year (dyear d) + _days_before_month (dyear d) (dmonth d) + dday d.

(** [str((ed - sd).days + 1)]; a date is always truthy *)
Definition _inclusive_days (sd ed : option date) : pystr :=
  match sd, ed with
  | Some s, Some e => z_to_str (toordinal e - toordinal s + 1)
  | _, _ => []
  end.



(** [REGION_FILE_MAP] (lines 960-969): the report buckets and their file keys *)
Definition REGION_FILE_MAP : list (pystr * pystr) := str_pairs
  [("United States", "United States"); ("Quebec", "Quebec");
   ("West Coast Canada", "West Coast CA"); ("East Coast Canada", "East Coast CA");
   ("Ireland/Hungary", "Ireland_Hungary"); ("Australia/New Zealand", "Australia_NewZealand");
   ("Europe/Other", "Europe_Other"); ("Other", "Other")]%string.

End Program.

Definition ucd_ascii_only : UCD := {|
  u_lower := fun c => [c]; u_upper := fun c => [c]; u_slower := fun c => c;
  u_space := fun _ => false; u_digit := fun _ => None; u_isdigit := fun _ => false;
  u_word := fun _ => false;
  u_decomp := fun c => [c]; u_ccc := fun _ => 0 |}.

Section Proofs.
Context {U : UCD}.

Lemma str_eqb_eq : forall a b, str_eqb a b = true <-> a = b.
Proof.
  induction a as [|x a IH]; destruct b as [|y b]; simpl; try (split; congruence).
  rewrite andb_true_iff, Z.eqb_eq, IH. split; [intros [-> ->]; reflexivity|].
  intros H; injection H; auto.
Qed.


Lemma py_date_year : forall y m d x, py_date y m d = Some x -> dyear x = y.
Proof.
  unfold py_date; intros y m d x H.
  destruct (_ && _); [injection H as <-; reflexivity | discriminate].
Qed.

(** C1 (amended): with the first date read in its own year (the first year
    when given, otherwise the end year), an end date earlier than the start
    date moves the start to the end year minus one when that date exists,
    giving start <= end; when it does not exist only the matched text is
    returned. The end year must follow a comma: "November 3 - March 15 2026"
    has no span, "November 3 - March 15, 2026" is 2025-11-03 .. 2026-03-15. *)
Theorem _parse_date_range_year_wrap :
  (forall txt m mo1 mo2 sd0 ed,
     rx_search RE_DATE_RANGE 6 txt = Some m ->
     assoc_get (py_lower (gstr txt m 1)) MONTHS = Some mo1 ->
     assoc_get (py_lower (gstr txt m 4)) MONTHS = Some mo2 ->
     py_date (match group txt m 3 with
              | Some y1 => py_int y1 | None => py_int (gstr txt m 6) end)
             mo1 (py_int (gstr txt m 2)) = Some sd0 ->
     py_date (py_int (gstr txt m 6)) mo2 (py_int (gstr txt m 5)) = Some ed ->
     date_ltb ed sd0 = true ->
     match py_date (py_int (gstr txt m 6) - 1) mo1 (py_int (gstr txt m 2)) with
     | Some sd =>
         snd (fst (_parse_date_range txt)) = Some sd
         /\ snd (_parse_date_range txt) = Some ed
         /\ dyear sd = py_int (gstr txt m 6) - 1
         /\ date_leb sd ed = true
     | None => _parse_date_range txt = (gstr txt m 0, None, None)
     end)
  /\ _parse_date_range (u "November 3 - March 15 2026") = ([], None, None)
  /\ (exists s, _parse_date_range (u "November 3 - March 15, 2026")
                = (s, Some (mkdate 2025 11 3), Some (mkdate 2026 3 15))).
Proof.
  split; [|split; [vm_compute; reflexivity | eexists; vm_compute; reflexivity]].
  intros txt m mo1 mo2 sd0 ed Hs H1 H2 H3 H4 H5.
  unfold _parse_date_range, date_range_try; rewrite Hs; cbv zeta.
  rewrite H1; cbn [opt_bind]; rewrite H3; cbn [opt_bind]; rewrite H2; cbn [opt_bind];
  rewrite H4; cbn [opt_bind]; rewrite H5.
  destruct (py_date (py_int (gstr txt m 6) - 1) mo1 (py_int (gstr txt m 2))) as [sd|] eqn:E;
    simpl; [|reflexivity].
  apply py_date_year in E; apply py_date_year in H4.
  repeat split; auto.
  unfold date_leb, date_ltb; rewrite E, H4.
  replace (py_int (gstr txt m 6) <? py_int (gstr txt m 6) - 1) with false by (symmetry; apply Z.ltb_ge; lia).
  replace (py_int (gstr txt m 6) =? py_int (gstr txt m 6) - 1) with false by (symmetry; apply Z.eqb_neq; lia).
  reflexivity.
Qed.

(** *** [re.sub] with a one-class pattern [p+] collapses the runs of [p] *)

Lemma rep_try_none {T} : forall (f : nat -> option T) lo n,
  (forall j, f j = None) -> rep_try f lo n = None.
Proof.
  intros f lo n Hf; induction n as [|n IH]; simpl;
    destruct (Nat.ltb _ lo); auto; rewrite Hf; auto.
Qed.

Lemma skipn_S_tl : forall (L : list Z) pos c l,
  skipn pos L = c :: l -> skipn (S pos) L = l.
Proof.
  intros L pos c l H. replace (S pos) with (1 + pos)%nat by lia.
  rewrite <- skipn_skipn, H. reflexivity.
Qed.

Lemma match_rep1 : forall p L i,
  rx_match_at (RxRep p 1 None) 0 L i =
  match skipn i L with
  | c :: _ => if p c then Some (i, (i + run_len p (skipn i L))%nat, [None]) else None
  | [] => None
  end.
Proof.
  intros p L i; unfold rx_match_at; simpl.
  destruct (skipn i L) as [|c l]; simpl; [reflexivity|].
  destruct (p c); reflexivity.
Qed.

Lemma search_rep1 : forall p L fuel pos,
  (List.length L <= pos + fuel)%nat ->
  search_from (RxRep p 1 None) 0 L pos fuel =
  option_map (fun ab => ((pos + fst ab)%nat, (pos + fst ab + snd ab)%nat, [None]))
             (first_run p (skipn pos L)).
Proof.
  intros p L fuel; induction fuel as [|f IH]; intros pos Hlen; simpl;
    rewrite match_rep1; destruct (skipn pos L) as [|c l] eqn:E.
  - reflexivity.
  - assert (List.length (skipn pos L) = 0%nat) by (rewrite length_skipn; lia).
    rewrite E in H; discriminate.
  - rewrite IH by lia. rewrite skipn_all2; [reflexivity|].
    assert (List.length (skipn pos L) = 0%nat) by (rewrite E; reflexivity).
    rewrite length_skipn in H; lia.
  - simpl. destruct (p c) eqn:Hp; simpl.
    + rewrite !Nat.add_0_r. reflexivity.
    + rewrite IH by lia. rewrite (skipn_S_tl _ _ _ _ E).
      destruct (first_run p l) as [[a b]|]; simpl; [|reflexivity].
      do 3 f_equal; lia.
Qed.

Lemma first_run_bounds : forall p l a b,
  first_run p l = Some (a, b) -> (1 <= b)%nat /\ (a + b <= List.length l)%nat.
Proof.
  intros p l; induction l as [|c l IH]; intros a b H; simpl in H; [discriminate|].
  destruct (p c) eqn:Hp.
  - injection H as <- <-. simpl. try rewrite Hp.
    assert (forall q m, (run_len q m <= List.length m)%nat) as Hr.
    { intros q; induction m as [|x m IHm]; simpl; [lia|destruct (q x); simpl; lia]. }
    specialize (Hr p l). simpl; lia.
  - destruct (first_run p l) as [[a' b']|]; simpl in H; [|discriminate].
    injection H as <- <-. destruct (IH a' b' eq_refl). simpl; lia.
Qed.

Lemma collapse_runs_true : forall p repl l,
  collapse_runs p repl true l = collapse_runs p repl false (skipn (run_len p l) l).
Proof.
  intros p repl l; induction l as [|c l IH]; simpl; [reflexivity|].
  destruct (p c) eqn:Hp; simpl; [exact IH | rewrite Hp; reflexivity].
Qed.

Lemma collapse_runs_first : forall p repl l,
  collapse_runs p repl false l =
  match first_run p l with
  | None => l
  | Some (a, b) => firstn a l ++ repl ++ collapse_runs p repl false (skipn (a + b) l)
  end.
Proof.
  intros p repl l; induction l as [|c l IH]; simpl; [reflexivity|].
  destruct (p c) eqn:Hp.
  - simpl. rewrite ?Hp. simpl. rewrite collapse_runs_true. reflexivity.
  - rewrite IH. destruct (first_run p l) as [[a b]|]; simpl; reflexivity.
Qed.

Lemma sub_loop_rep1 : forall p repl L fuel pos,
  (List.length L - pos < fuel)%nat ->
  sub_loop (RxRep p 1 None) 0 repl L pos fuel = collapse_runs p repl false (skipn pos L).
Proof.
  intros p repl L fuel; induction fuel as [|f IH]; intros pos Hf; [lia|].
  simpl. rewrite search_rep1 by lia. rewrite (collapse_runs_first p repl (skipn pos L)).
  destruct (first_run p (skipn pos L)) as [[a b]|] eqn:E; simpl; [|reflexivity].
  destruct (first_run_bounds _ _ _ _ E) as [Hb Hab].
  rewrite length_skipn in Hab.
  replace (Nat.eqb (pos + a) (pos + a + b)) with false by (symmetry; apply Nat.eqb_neq; lia).
  unfold substr. replace (pos + a - pos)%nat with a by lia.
  rewrite IH by lia. rewrite skipn_skipn.
  replace (a + b + pos)%nat with (pos + a + b)%nat by lia. reflexivity.
Qed.

Lemma rx_sub_rep1 : forall p repl L,
  rx_sub (RxRep p 1 None) 0 repl L = collapse_runs p repl false L.
Proof. intros; unfold rx_sub; rewrite sub_loop_rep1 by lia; reflexivity. Qed.

(** *** [_norm_key] is idempotent *)

Ltac zb := repeat match goal with
  | |- context [?a <=? ?b] => destruct (Z.leb_spec a b)
  | |- context [?a <? ?b] => destruct (Z.ltb_spec a b)
  | |- context [?a =? ?b] => destruct (Z.eqb_spec a b)
  end; simpl; try reflexivity; try lia; try (exfalso; lia).

Lemma kc_bounds : forall c, kc c = true -> (97 <= c <= 122 \/ 48 <= c <= 57 \/ c = 32).
Proof.
  intros c; unfold kc, keychar, is_az, is_ascii_digit. zb; try discriminate.
Qed.

Lemma kc_facts : forall c, kc c = true ->
  is_ascii c = true /\ sre_lower c = c /\ lower_char c = [c] /\ ccc c = 0
  /\ decomp c = [c] /\ c < 128.
Proof.
  intros c H; apply kc_bounds in H.
  unfold sre_lower, lower_char, ccc, decomp, is_ascii.
  repeat split; zb; f_equal; lia.
Qed.

Lemma keychar_kc : forall c, keychar c = true -> kc c = true.
Proof. intros c H; unfold kc; rewrite H; reflexivity. Qed.

Lemma keychar_bounds : forall c, keychar c = true -> (97 <= c <= 122 \/ 48 <= c <= 57).
Proof.
  intros c; unfold keychar, is_az, is_ascii_digit. zb; try discriminate.
Qed.

Lemma keychar_not_space : forall c, keychar c = true -> py_isspace c = false.
Proof.
  intros c H; apply keychar_bounds in H. unfold py_isspace, is_ascii. zb.
Qed.

Lemma collapse_runs_chars : forall p repl b l,
  Forall (fun c => p c = false \/ In c repl) (collapse_runs p repl b l).
Proof.
  intros p repl b l; revert b; induction l as [|c l IH]; intros b; simpl; [constructor|].
  destruct (p c) eqn:Hp; [destruct b; [exact (IH true)|]|constructor; auto].
  apply Forall_app; split; [apply Forall_forall; auto | apply IH].
Qed.

Lemma split_ws_aux_words : forall t cur,
  Forall (fun c => keychar c = true) cur ->
  Forall (fun c => keychar c = true \/ py_isspace c = true) t ->
  key_words (split_ws_aux cur t).
Proof.
  unfold key_words.
  induction t as [|c t IH]; intros cur Hcur Ht; simpl.
  - destruct cur as [|x cur']; [constructor|].
    constructor; [|constructor]. split.
    + intros H; apply (f_equal (@List.length Z)) in H; rewrite length_rev in H; discriminate.
    + apply Forall_rev; assumption.
  - inversion Ht as [|? ? Hc Ht']; subst.
    destruct (py_isspace c) eqn:Hs.
    + destruct cur as [|x cur']; [apply IH; auto|].
      constructor; [split|apply IH; auto].
      * intros H; apply (f_equal (@List.length Z)) in H; rewrite length_rev in H; discriminate.
      * apply Forall_rev; assumption.
    + apply IH; auto. constructor; auto. destruct Hc; [assumption|discriminate].
Qed.

Lemma norm_key_words : forall t,
  key_words (py_split_ws (rx_sub RE_NON_ALNUM 0 [32] t)).
Proof.
  intros t; unfold RE_NON_ALNUM, py_split_ws; rewrite rx_sub_rep1.
  apply split_ws_aux_words; [constructor|].
  eapply Forall_impl; [|apply collapse_runs_chars].
  intros c [H|[H|[]]].
  - left; unfold keychar; destruct (is_az c || is_ascii_digit c); [reflexivity|discriminate].
  - right; subst; reflexivity.
Qed.

Lemma join_kc : forall W, key_words W -> Forall (fun c => kc c = true) (py_join [32] W).
Proof.
  induction W as [|w W IH]; intros HW; simpl; [constructor|].
  inversion HW as [|? ? [Hne Hw] HW']; subst.
  assert (Forall (fun c => kc c = true) w) by (eapply Forall_impl; [apply keychar_kc|exact Hw]).
  destruct W; [assumption|].
  apply Forall_app; split; [assumption|]. constructor; [reflexivity|]. apply IH; assumption.
Qed.

Lemma join_head : forall W, W <> [] -> key_words W ->
  exists c r, py_join [32] W = c :: r /\ keychar c = true.
Proof.
  intros [|w W] Hne HW; [congruence|].
  inversion HW as [|? ? [Hw Hwc] _]; subst.
  destruct w as [|c w']; [congruence|]. inversion Hwc; subst.
  destruct W; simpl; eauto.
Qed.

Lemma join_last : forall W, W <> [] -> key_words W ->
  exists r c, py_join [32] W = r ++ [c] /\ keychar c = true.
Proof.
  induction W as [|w W IH]; intros Hne HW; [congruence|].
  inversion HW as [|? ? [Hw Hwc] HW']; subst.
  destruct W as [|w2 W2].
  - destruct (exists_last Hw) as [r [c Hrc]]. subst w; simpl.
    exists r, c; split; [reflexivity|]. apply Forall_app in Hwc as [_ Hc].
    inversion Hc; assumption.
  - destruct (IH ltac:(discriminate) HW') as [r [c [Hj Hc]]].
    exists (w ++ 32 :: r), c; split; [|assumption].
    change (py_join [32] (w :: w2 :: W2)) with (w ++ [32] ++ py_join [32] (w2 :: W2)).
    rewrite Hj. rewrite <- app_assoc. reflexivity.
Qed.

Lemma collapse_runs_app_keep : forall p repl w l b,
  w <> [] -> Forall (fun c => p c = false) w ->
  collapse_runs p repl b (w ++ l) = w ++ collapse_runs p repl false l.
Proof.
  intros p repl w l; induction w as [|c w IH]; intros b Hne Hw; [congruence|].
  inversion Hw; subst. simpl. rewrite H1. f_equal.
  destruct w as [|c' w']; [reflexivity|]. apply IH; [discriminate|assumption].
Qed.

Lemma collapse_runs_sep : forall p repl x c l,
  p x = true -> p c = false ->
  collapse_runs p repl false (x :: c :: l) = repl ++ collapse_runs p repl false (c :: l).
Proof. intros p repl x c l Hx Hc; simpl; rewrite Hx, Hc; reflexivity. Qed.

Lemma collapse_key_join : forall W, key_words W ->
  collapse_runs (fun c => negb (is_az c || is_ascii_digit c)) [32] false (py_join [32] W)
  = py_join [32] W.
Proof.
  induction W as [|w W IH]; intros HW; [reflexivity|].
  inversion HW as [|? ? [Hne Hw] HW']; subst.
  assert (Hw' : Forall (fun c => negb (is_az c || is_ascii_digit c) = false) w).
  { eapply Forall_impl; [|exact Hw]. intros c Hc; unfold keychar in Hc; rewrite Hc; reflexivity. }
  destruct W as [|w2 W2].
  - simpl. rewrite <- (app_nil_r w) at 1. rewrite collapse_runs_app_keep by assumption.
    rewrite app_nil_r; reflexivity.
  - change (py_join [32] (w :: w2 :: W2)) with (w ++ 32 :: py_join [32] (w2 :: W2)).
    rewrite collapse_runs_app_keep by assumption. f_equal.
    destruct (join_head (w2 :: W2) ltac:(discriminate) HW') as [c [r [Hj Hc]]].
    rewrite Hj, collapse_runs_sep by (reflexivity || (unfold keychar in Hc; rewrite Hc; reflexivity)).
    rewrite <- Hj, IH by assumption. reflexivity.
Qed.

Lemma split_ws_aux_app : forall w cur l,
  Forall (fun c => py_isspace c = false) w ->
  split_ws_aux cur (w ++ l) = split_ws_aux (rev w ++ cur) l.
Proof.
  induction w as [|c w IH]; intros cur l Hw; [reflexivity|].
  inversion Hw; subst. simpl. rewrite H1, IH by assumption.
  rewrite <- app_assoc. reflexivity.
Qed.

Lemma split_ws_aux_space : forall y ys x l, py_isspace x = true ->
  split_ws_aux (y :: ys) (x :: l) = rev (y :: ys) :: split_ws_aux [] l.
Proof. intros y ys x l H; simpl; rewrite H; reflexivity. Qed.

Lemma split_join_key : forall W, key_words W -> py_split_ws (py_join [32] W) = W.
Proof.
  unfold py_split_ws.
  induction W as [|w W IH]; intros HW; [reflexivity|].
  inversion HW as [|? ? [Hne Hw] HW']; subst.
  assert (Hs : Forall (fun c => py_isspace c = false) w)
    by (eapply Forall_impl; [apply keychar_not_space|exact Hw]).
  assert (Hr : rev w <> []).
  { intros H; apply Hne; rewrite <- (rev_involutive w), H; reflexivity. }
  destruct W as [|w2 W2].
  - simpl. rewrite <- (app_nil_r w) at 1. rewrite split_ws_aux_app by assumption.
    rewrite app_nil_r. simpl. destruct (rev w) eqn:E; [congruence|].
    rewrite <- E, rev_involutive; reflexivity.
  - change (py_join [32] (w :: w2 :: W2)) with (w ++ 32 :: py_join [32] (w2 :: W2)).
    rewrite split_ws_aux_app by assumption. rewrite app_nil_r.
    destruct (rev w) as [|y ys] eqn:E; [congruence|].
    rewrite split_ws_aux_space by reflexivity.
    rewrite <- E, rev_involutive, IH by assumption. reflexivity.
Qed.

Lemma mt_rep_char_none {T} : forall inp p lo hi q rest i c (K : nat -> cap -> option T),
  (forall j ch, nth_error inp j = Some ch -> q ch = false) ->
  mt inp (RxSeq (RxRep p lo hi) (RxSeq (RxChar q) rest)) i c K = None.
Proof.
  intros inp p lo hi q rest i c K H; simpl. apply rep_try_none. intros j; simpl.
  destruct (nth_error inp (i + j)) eqn:E; [rewrite (H _ _ E)|]; reflexivity.
Qed.

Lemma aka_fixed : forall k, Forall (fun c => kc c = true) k ->
  rx_sub RE_AKA_CLAUSE 0 [] k = k.
Proof.
  intros k Hk.
  assert (Hm : forall pos, rx_match_at RE_AKA_CLAUSE 0 k pos = None).
  { intros pos. unfold rx_match_at; cbn [RE_AKA_CLAUSE rx_seq]. apply mt_rep_char_none.
    intros j ch Hj. apply nth_error_In in Hj. rewrite Forall_forall in Hk.
    specialize (Hk _ Hj). destruct (kc_facts _ Hk) as [_ [Hl _]].
    apply kc_bounds in Hk. unfold lit_i; rewrite Hl. apply Z.eqb_neq; lia. }
  assert (Hs : forall fuel pos, search_from RE_AKA_CLAUSE 0 k pos fuel = None).
  { induction fuel as [|f IH]; intros pos; cbn [search_from]; rewrite Hm; auto. }
  unfold rx_sub; cbn [sub_loop]; rewrite Hs; reflexivity.
Qed.

Lemma strip_fixed : forall k c r r' c',
  k = c :: r -> k = r' ++ [c'] -> py_isspace c = false -> py_isspace c' = false ->
  py_strip k = k.
Proof.
  intros k c r r' c' H1 H2 Hc Hc'. unfold py_strip, strip_by.
  rewrite H1 at 1; simpl; rewrite Hc. rewrite <- H1, H2, rev_app_distr; simpl.
  rewrite Hc'; simpl. rewrite rev_involutive; reflexivity.
Qed.

Lemma nfkd_fixed : forall k, Forall (fun c => kc c = true) k -> nfkd k = k.
Proof.
  intros k Hk. unfold nfkd, canonical_order.
  assert (Hd : flat_map decomp k = k).
  { induction Hk as [|c k Hc Hk IH]; [reflexivity|]. simpl.
    destruct (kc_facts _ Hc) as [_ [_ [_ [_ [-> _]]]]]. simpl; rewrite IH; reflexivity. }
  rewrite Hd. clear Hd.
  assert (Hf : forall acc, fold_left (fun acc c => if ccc c =? 0 then c :: acc
                                                 else insert_mark c acc) k acc = rev k ++ acc).
  { induction Hk as [|c k Hc Hk IH]; intros acc; [reflexivity|]. simpl.
    destruct (kc_facts _ Hc) as [_ [_ [_ [-> _]]]]. simpl. rewrite IH, <- app_assoc; reflexivity. }
  rewrite Hf, app_nil_r, rev_involutive; reflexivity.
Qed.

Lemma filter_combining_fixed : forall k, Forall (fun c => kc c = true) k ->
  filter (fun c => combining c =? 0) k = k.
Proof.
  unfold combining.
  induction 1 as [|c k Hc Hk IH]; [reflexivity|]. simpl.
  destruct (kc_facts _ Hc) as [_ [_ [_ [-> _]]]]. simpl; rewrite IH; reflexivity.
Qed.

Lemma replace_char_fixed : forall old new k, 128 <= old -> Forall (fun c => kc c = true) k ->
  replace_char old new k = k.
Proof.
  intros old new k Ho; unfold replace_char; induction 1 as [|c k Hc Hk IH]; [reflexivity|]. simpl.
  destruct (kc_facts _ Hc) as [_ [_ [_ [_ [_ Hlt]]]]].
  replace (c =? old) with false by (symmetry; apply Z.eqb_neq; lia).
  rewrite IH; reflexivity.
Qed.

Lemma lower_fixed : forall k, Forall (fun c => kc c = true) k -> py_lower k = k.
Proof.
  unfold py_lower; induction 1 as [|c k Hc Hk IH]; [reflexivity|]. simpl.
  destruct (kc_facts _ Hc) as [_ [_ [-> _]]]. simpl; rewrite IH; reflexivity.
Qed.

Lemma norm_key_fixed : forall W, key_words W -> _norm_key (py_join [32] W) = py_join [32] W.
Proof.
  intros W HW.
  destruct (py_join [32] W) as [|c r] eqn:Ek; [reflexivity|].
  assert (HWne : W <> []) by (intros ->; discriminate).
  pose proof (join_kc W HW) as Hkc; rewrite Ek in Hkc.
  destruct (join_head W HWne HW) as [c0 [r0 [Hh Hc0]]].
  destruct (join_last W HWne HW) as [r1 [c1 [Hl Hc1]]].
  rewrite Ek in Hh, Hl.
  assert (Hst : py_strip (c :: r) = c :: r)
    by (eapply strip_fixed; [exact Hh|exact Hl|apply keychar_not_space; assumption..]).
  unfold _norm_key; cbv zeta.
  rewrite aka_fixed, Hst, nfkd_fixed, filter_combining_fixed by assumption.
  rewrite (replace_char_fixed RSQUO), (replace_char_fixed LSQUO), (replace_char_fixed LDQUO),
    (replace_char_fixed RDQUO), (replace_char_fixed EN_DASH), (replace_char_fixed EM_DASH)
    by (assumption || (unfold RSQUO, LSQUO, LDQUO, RDQUO, EN_DASH, EM_DASH; lia)).
  rewrite lower_fixed, Hst by assumption.
  unfold RE_NON_ALNUM; rewrite rx_sub_rep1, <- Ek, collapse_key_join, split_join_key by assumption.
  reflexivity.
Qed.

(** C7: [_norm_key] is idempotent: normalising an already normalised key
    returns it unchanged, for every title and every Unicode database. *)
Theorem _norm_key_idempotent : forall name, _norm_key (_norm_key name) = _norm_key name.
Proof.
  intros [|c n]; [reflexivity|].
  change (_norm_key (c :: n)) with
    (let s := py_strip (rx_sub RE_AKA_CLAUSE 0 [] (c :: n)) in
     let s := nfkd s in
     let s := filter (fun c => combining c =? 0) s in
     let s := replace_char EM_DASH 45 (replace_char EN_DASH 45
              (replace_char RDQUO 34 (replace_char LDQUO 34
              (replace_char LSQUO 39 (replace_char RSQUO 39 s))))) in
     let s := py_strip (py_lower s) in
     let s := rx_sub RE_NON_ALNUM 0 [32] s in
     py_join [32] (py_split_ws s)).
  cbv zeta. apply norm_key_fixed, norm_key_words.
Qed.

(* ------------------------------------------------------------------ *)
(** *** Strings, rows and lists *)

Lemma str_eqb_refl : forall a, str_eqb a a = true.
Proof. intros a; apply str_eqb_eq; reflexivity. Qed.

Lemma str_eqb_sym : forall a b, str_eqb a b = str_eqb b a.
Proof.
  intros a b; destruct (str_eqb a b) eqn:E; destruct (str_eqb b a) eqn:F; auto.
  - apply str_eqb_eq in E; subst; rewrite str_eqb_refl in F; discriminate.
  - apply str_eqb_eq in F; subst; rewrite str_eqb_refl in E; discriminate.
Qed.

Lemma str_eqb_neq : forall a b, a <> b -> str_eqb a b = false.
Proof. intros a b H; destruct (str_eqb a b) eqn:E; auto; apply str_eqb_eq in E; contradiction. Qed.

Lemma str_in_iff : forall s l, str_in s l = true <-> In s l.
Proof.
  intros s l; unfold str_in; rewrite existsb_exists; split.
  - intros [x [Hx He]]; apply str_eqb_eq in He; subst; exact Hx.
  - intros H; exists s; split; [exact H | apply str_eqb_refl].
Qed.

Lemma str_in_false : forall s l, ~ In s l -> str_in s l = false.
Proof.
  intros s l H; destruct (str_in s l) eqn:E; auto; apply str_in_iff in E; contradiction.
Qed.

Lemma assoc_get_app {V} : forall k (l l' : list (pystr * V)),
  assoc_get k (l ++ l') = match assoc_get k l with Some v => Some v | None => assoc_get k l' end.
Proof.
  intros k l l'; induction l as [|[k' v'] l IH]; [reflexivity|]; simpl.
  destruct (str_eqb k k'); [reflexivity | exact IH].
Qed.

Lemma assoc_get_set_same {V} : forall k (v : V) d, assoc_get k (dict_set k v d) = Some v.
Proof.
  intros k v d; induction d as [|[k' v'] d IH]; simpl.
  - rewrite str_eqb_refl; reflexivity.
  - destruct (str_eqb k k') eqn:E; simpl; rewrite ?E; [reflexivity | exact IH].
Qed.

Lemma assoc_get_set_other {V} : forall k k' (v : V) d,
  str_eqb k' k = false -> assoc_get k' (dict_set k v d) = assoc_get k' d.
Proof.
  intros k k' v d Hk; induction d as [|[k'' v''] d IH]; simpl.
  - rewrite Hk; reflexivity.
  - destruct (str_eqb k k'') eqn:E; simpl.
    + apply str_eqb_eq in E; subst k''; rewrite Hk; reflexivity.
    + destruct (str_eqb k' k''); [reflexivity | exact IH].
Qed.

Lemma dict_get_set_same : forall k v d, dict_get (dict_set k v d) k = v.
Proof. intros; unfold dict_get; rewrite assoc_get_set_same; reflexivity. Qed.

Lemma dict_get_set_other : forall k k' v d,
  str_eqb k' k = false -> dict_get (dict_set k v d) k' = dict_get d k'.
Proof. intros; unfold dict_get; rewrite assoc_get_set_other; auto. Qed.

Lemma drop_while_nil : forall p l, drop_while p l = [] -> forall c, In c l -> p c = true.
Proof.
  intros p l; induction l as [|x l IH]; simpl; [tauto|].
  destruct (p x) eqn:E; [|discriminate].
  intros H c [<-|Hc]; auto.
Qed.

Lemma strip_nonempty : forall c s, py_isspace c = false -> py_strip (c :: s) <> [].
Proof.
  intros c s Hc; unfold py_strip, strip_by; simpl; rewrite Hc; intros H.
  apply (f_equal (@rev Z)) in H; rewrite rev_involutive in H; simpl in H.
  pose proof (drop_while_nil _ _ H c) as Hd.
  rewrite Hc in Hd; discriminate Hd; apply in_or_app; right; left; reflexivity.
Qed.

Lemma filter_filter_comm {A} : forall (p q : A -> bool) l,
  filter p (filter q l) = filter q (filter p l).
Proof.
  intros p q l; induction l as [|x l IH]; [reflexivity|]; simpl.
  destruct (q x) eqn:Eq, (p x) eqn:Ep; simpl; rewrite ?Eq, ?Ep, IH; reflexivity.
Qed.

(* ------------------------------------------------------------------ *)
(** *** [region_bucket] *)

Lemma split_char_first : forall sep l l' cur,
  hd [] (split_char_aux sep cur (l ++ sep :: l')) = hd [] (split_char_aux sep cur l).
Proof.
  intros sep l l'; induction l as [|c l IH]; intros cur; simpl.
  - rewrite Z.eqb_refl; reflexivity.
  - destruct (c =? sep); [reflexivity | apply IH].
Qed.

Lemma first_component_app : forall l l', first_component (l ++ 43 :: l') = first_component l.
Proof.
  intros l l'; unfold first_component, py_split_char.
  pose proof (split_char_first 43 l l' []) as H.
  destruct (split_char_aux 43 [] (l ++ 43 :: l')), (split_char_aux 43 [] l); simpl in *; auto.
Qed.

Lemma region_bucket_country_usa : forall fr, region_bucket_country fr (first_country_of (u "USA")) = u "USA".
Proof.
  intros fr; unfold region_bucket_country.
  replace (first_country_of (u "USA")) with (u "USA") by (vm_compute; reflexivity).
  replace (_as_country (py_lower (u "USA"))) with (u "USA") by (vm_compute; reflexivity).
  reflexivity.
Qed.

(** C8: [region_bucket] reads only the first "+"-separated component of
    each part; with the (possibly inferred) country Canada it gives
    "West Coast Canada" for the first region BC, "Quebec" for QC and
    "East Coast Canada" otherwise; the country USA (or United States)
    gives "United States", also for the country text "USA" with any
    region; and a country that is none of the recognised ones or groups
    gives "Other". *)
Theorem region_bucket_spec : forall city region country,
  (forall city' region' country',
     region_bucket (city ++ 43 :: city') (region ++ 43 :: region') (country ++ 43 :: country')
     = region_bucket city region country)
  /\ (region_bucket_country (first_region_of region) (first_country_of country) = u "Canada" ->
      region_bucket city region country =
        if str_eqb (first_region_of region) (u "BC") then u "West Coast Canada"
        else if str_eqb (first_region_of region) (u "QC") then u "Quebec"
        else u "East Coast Canada")
  /\ (In (region_bucket_country (first_region_of region) (first_country_of country))
         (map u ["USA"; "United States"]%string) ->
      region_bucket city region country = u "United States")
  /\ region_bucket city region (u "USA") = u "United States"
  /\ (~ In (region_bucket_country (first_region_of region) (first_country_of country))
         (map u ["Canada"; "USA"; "United States"; "Ireland"; "Hungary"; "Australia";
                 "New Zealand"]%string ++ EU_COUNTRIES) ->
      region_bucket city region country = u "Other").
Proof.
  intros city region country; split; [|split; [|split; [|split]]].
  - intros; unfold region_bucket, first_region_of, first_country_of.
    rewrite !first_component_app; reflexivity.
  - intros H; unfold region_bucket; cbv zeta; rewrite H, str_eqb_refl; reflexivity.
  - intros H; unfold region_bucket; cbv zeta.
    assert (Hc : str_eqb (region_bucket_country (first_region_of region) (first_country_of country))
                   (u "Canada") = false).
    { apply str_eqb_neq; intros E; rewrite E in H; vm_compute in H; intuition discriminate. }
    rewrite Hc, (proj2 (str_in_iff _ _) H); reflexivity.
  - unfold region_bucket; cbv zeta; rewrite region_bucket_country_usa; reflexivity.
  - intros H; unfold region_bucket; cbv zeta.
    set (c := region_bucket_country (first_region_of region) (first_country_of country)) in *.
    rewrite str_eqb_neq by (intros E; apply H; rewrite E; left; reflexivity).
    rewrite !str_in_false; [reflexivity | ..];
      intros Hi; apply H; apply in_or_app; simpl in Hi |- *; tauto.
Qed.

(* ------------------------------------------------------------------ *)
(** *** [_status_and_location_from_lines] *)

Lemma sl_loop_prefix : forall lines rest i st,
  exists n, (n <= List.length rest)%nat
    /\ sl_loop lines i rest st = sl_run_from lines i rest st n
    /\ (forall m, (0 < m < n)%nat -> both_found (sl_run_from lines i rest st m) = false)
    /\ (n = List.length rest \/ both_found (sl_run_from lines i rest st n) = true).
Proof.
  intros lines rest; induction rest as [|ln rest IH]; intros i st.
  - exists O; simpl; split; [lia|split; [reflexivity|split; [intros m Hm; lia | left; reflexivity]]].
  - simpl. destruct (both_found (sl_step lines i ln st)) eqn:Eb.
    + exists 1%nat; simpl; split; [lia|split; [reflexivity|split; [intros m Hm; lia | right; exact Eb]]].
    + destruct (IH (S i) (sl_step lines i ln st)) as [n [Hn [He [Hm Hl]]]].
      exists (S n); simpl; split; [lia|]; split; [exact He|]; split.
      * intros [|[|m]] Hm'; [lia | exact Eb | exact (Hm (S m) ltac:(lia))].
      * destruct Hl as [->|Hl]; [left; reflexivity | right; exact Hl].
Qed.

Lemma startswith_head : forall s a p b q,
  py_startswith s (a :: p) = true -> py_startswith s (b :: q) = true -> a = b.
Proof.
  intros [|c s] a p b q; simpl; [discriminate|].
  intros H1 H2; apply andb_prop in H1; apply andb_prop in H2.
  destruct H1 as [H1 _], H2 as [H2 _]; apply Z.eqb_eq in H1, H2; congruence.
Qed.

(** C4 (amended): the scanner returns the state reached after the first
    [n] lines, where [n] is the first line count at which both values are
    non-empty (or all lines); in that state a line starting with STATUS
    (without LOCATION) and holding a colon sets the status to the text
    after its first colon, and a line starting with LOCATION and holding a
    colon sets the location likewise, whatever was found before. *)
Theorem _status_and_location_last_marker :
  (forall lines, exists n, (n <= List.length lines)%nat
     /\ _status_and_location_from_lines lines = sl_prefix lines n
     /\ (forall m, (m < n)%nat -> both_found (sl_prefix lines m) = false)
     /\ (n = List.length lines \/ both_found (sl_prefix lines n) = true))
  /\ (forall lines i ln st,
        py_startswith (py_strip (py_upper ln)) (u "STATUS") = true ->
        py_contains (py_strip (py_upper ln)) (u "LOCATION") = false ->
        py_contains ln [58] = true ->
        fst (sl_step lines i ln st) = py_strip (after_colon ln))
  /\ (forall lines i ln st,
        py_startswith (py_strip (py_upper ln)) (u "LOCATION") = true ->
        py_contains ln [58] = true ->
        snd (sl_step lines i ln st) = py_strip (after_colon ln)).
Proof.
  split; [|split].
  - intros lines; destruct (sl_loop_prefix lines lines 0 ([], [])) as [n [Hn [He [Hm Hl]]]].
    exists n; unfold _status_and_location_from_lines, sl_prefix.
    split; [exact Hn|]; split; [exact He|]; split; [|exact Hl].
    intros [|m] Hlt; [reflexivity | apply Hm; lia].
  - intros lines i ln [st lv] Hs Hl Hc; unfold sl_step; rewrite Hs, Hl, Hc; reflexivity.
  - intros lines i ln [st lv] Hl Hc; unfold sl_step.
    assert (Hs : py_startswith (py_strip (py_upper ln)) (u "STATUS") = false).
    { destruct (py_startswith (py_strip (py_upper ln)) (u "STATUS")) eqn:E; auto.
      pose proof (startswith_head _ _ _ _ _ Hl E) as Hab; discriminate Hab. }
    rewrite Hs, Hl, Hc; reflexivity.
Qed.

(* ------------------------------------------------------------------ *)
(** *** [_changed_vs_master] *)


Lemma run_len_spec : forall p l q, (q < run_len p l)%nat ->
  exists ch, nth_error l q = Some ch /\ p ch = true.
Proof.
  intros p l; induction l as [|c l IH]; intros q Hq; cbn [run_len] in Hq; [lia|].
  destruct (p c) eqn:E; [|lia].
  destruct q as [|q]; [exists c; split; [reflexivity|exact E]|].
  apply IH; lia.
Qed.

Lemma in_firstn_l {A} : forall n (l : list A) x, In x (firstn n l) -> In x l.
Proof. intros n l x H; rewrite <- (firstn_skipn n l); apply in_or_app; left; exact H. Qed.

Lemma in_skipn_l {A} : forall n (l : list A) x, In x (skipn n l) -> In x l.
Proof. intros n l x H; rewrite <- (firstn_skipn n l); apply in_or_app; right; exact H. Qed.

(** a match of [\s+] at [i] is a non-empty run of whitespace starting there *)
Lemma ws_match_at : forall s i a b cc,
  rx_match_at RE_WS 0 s i = Some (a, b, cc) ->
  a = i /\ (i < b)%nat
  /\ forall q, (i <= q < b)%nat -> exists ch, nth_error s q = Some ch /\ py_isspace ch = true.
Proof.
  intros s i a b cc H; unfold rx_match_at, RE_WS in H; cbn [mt] in H.
  destruct (run_len cls_space (skipn i s)) as [|n] eqn:E; [discriminate|].
  cbn [rep_try Nat.ltb Nat.leb] in H; injection H as <- <- _.
  split; [reflexivity|split; [lia|]].
  intros q Hq; destruct (run_len_spec cls_space (skipn i s) (q - i)) as [ch [H1 H2]]; [lia|].
  exists ch; rewrite nth_error_skipn in H1; replace (i + (q - i))%nat with q in H1 by lia.
  split; [exact H1|exact H2].
Qed.

Lemma ws_search_from : forall s fuel pos a b cc,
  search_from RE_WS 0 s pos fuel = Some (a, b, cc) ->
  (pos <= a)%nat /\ (a < b)%nat
  /\ forall q, (a <= q < b)%nat -> exists ch, nth_error s q = Some ch /\ py_isspace ch = true.
Proof.
  intros s; induction fuel as [|f IH]; intros pos a b cc H; cbn [search_from] in H.
  - destruct (rx_match_at RE_WS 0 s pos) as [[[a' b'] c']|] eqn:E; [|discriminate].
    injection H as -> -> ->; destruct (ws_match_at _ _ _ _ _ E) as [-> [H1 H2]]; auto.
  - destruct (rx_match_at RE_WS 0 s pos) as [[[a' b'] c']|] eqn:E.
    + injection H as -> -> ->; destruct (ws_match_at _ _ _ _ _ E) as [-> [H1 H2]]; auto.
    + destruct (IH _ _ _ _ H) as [H1 H2]; split; [lia|exact H2].
Qed.

(** [re.sub(r"\s+", " ", s)] keeps every character that is not whitespace *)
Lemma ws_sub_loop_keep : forall s fuel pos p c, (pos <= p)%nat -> nth_error s p = Some c ->
  py_isspace c = false -> In c (sub_loop RE_WS 0 [32] s pos fuel).
Proof.
  intros s; induction fuel as [|f IH]; intros pos p c Hp Hc Hs; cbn [sub_loop].
  - apply (nth_error_In _ (p - pos)); rewrite nth_error_skipn; replace (pos + (p - pos))%nat with p by lia.
    exact Hc.
  - destruct (search_from RE_WS 0 s pos (List.length s - pos)) as [[[a b] cc]|] eqn:E.
    + destruct (ws_search_from _ _ _ _ _ _ E) as [H1 [H2 H3]].
      replace (Nat.eqb a b) with false by (symmetry; apply Nat.eqb_neq; lia).
      destruct (Nat.lt_ge_cases p a) as [Hpa|Hpa].
      * apply in_or_app; left; unfold substr.
        apply (nth_error_In _ (p - pos)); rewrite nth_error_firstn.
        replace (Nat.ltb (p - pos) (a - pos)) with true by (symmetry; apply Nat.ltb_lt; lia).
        rewrite nth_error_skipn; replace (pos + (p - pos))%nat with p by lia; exact Hc.
      * destruct (Nat.lt_ge_cases p b) as [Hpb|Hpb].
        -- destruct (H3 p (conj Hpa Hpb)) as [ch [Hch Hsp]]; rewrite Hc in Hch; injection Hch as ->.
           rewrite Hs in Hsp; discriminate.
        -- apply in_or_app; right; right; apply (IH b p); assumption.
    + apply (nth_error_In _ (p - pos)); rewrite nth_error_skipn; replace (pos + (p - pos))%nat with p by lia.
      exact Hc.
Qed.

Lemma norm_text_keep : forall s c, In c (py_lower (py_strip s)) -> py_isspace c = false ->
  In c (_norm_text s).
Proof.
  intros s c Hc Hs; unfold _norm_text, rx_sub.
  apply In_nth_error in Hc as [p Hp]; apply (ws_sub_loop_keep _ _ 0 p); [lia|exact Hp|exact Hs].
Qed.

Lemma py_int_nodigit : forall l, (forall c, In c l -> py_digit c = None) -> py_int l = 0.
Proof.
  unfold py_int; induction l as [|c l IH]; intros H; [reflexivity|]; cbn [fold_left].
  rewrite (H c (or_introl eq_refl)); apply IH; intros c' Hc'; apply H; right; exact Hc'.
Qed.

Lemma in_gstr : forall t m n c, In c (gstr t m n) -> In c t.
Proof.
  intros t [[i j] cp] n c; unfold gstr, group, substr.
  destruct n as [|n].
  - intros H; exact (in_skipn_l _ _ _ (in_firstn_l _ _ _ H)).
  - destruct (nth_error cp (S n)) as [[[a b]|]|]; try (intros []).
    intros H; exact (in_skipn_l _ _ _ (in_firstn_l _ _ _ H)).
Qed.

(** a string with no decimal digit (outside em dashes) is no date span *)
Lemma parse_span_flexible_nodigit : forall s,
  (forall c, In c (py_strip s) -> c <> EM_DASH -> py_digit c = None) ->
  _parse_span_flexible s = None.
Proof.
  intros s H; unfold _parse_span_flexible; destruct s as [|c0 s0]; [reflexivity|].
  set (t := filter _ _).
  assert (Ht : forall c, In c t -> py_digit c = None).
  { intros c Hc; unfold t in Hc; apply filter_In in Hc as [Hc _].
    unfold replace_char in Hc; rewrite map_map in Hc; apply in_map_iff in Hc as [x [<- Hx]].
    destruct (x =? EM_DASH) eqn:E1; [reflexivity|].
    destruct (x =? EN_DASH) eqn:E2; [reflexivity|].
    apply H; [exact Hx|apply Z.eqb_neq, E1]. }
  destruct (rx_search RE_SPAN_FLEX 5 t) as [m|]; [|reflexivity].
  rewrite (py_int_nodigit (gstr t m 5)) by (intros c Hc; apply Ht, (in_gstr _ _ _ _ Hc)).
  destruct (mnum (gstr t m 3)); reflexivity.
Qed.

Section DigitNoCase.
(** Unicode: a decimal digit has no case mapping and is no whitespace *)
Hypothesis digit_no_case : forall c, is_ascii c = false -> u_digit c <> None ->
  u_lower c = [c] /\ u_space c = false.

Lemma na_strip_nodigit : forall s, str_in (_norm_text s) NA_TOKENS = true ->
  forall c, In c (py_strip s) -> c <> EM_DASH -> py_digit c = None.
Proof.
  intros s Hna c Hc Hem; destruct (py_digit c) as [d|] eqn:Ed; [exfalso|reflexivity].
  assert (Hl : lower_char c = [c] /\ py_isspace c = false).
  { unfold lower_char, py_isspace; unfold py_digit in Ed; destruct (is_ascii c) eqn:Ea.
    - destruct ((48 <=? c) && (c <=? 57)) eqn:E; [|discriminate].
      apply andb_true_iff in E as [E1 E2]; apply Z.leb_le in E1, E2.
      replace ((65 <=? c) && (c <=? 90)) with false by (symmetry; apply andb_false_iff; left; apply Z.leb_gt; lia).
      split; [reflexivity|].
      apply orb_false_iff; split; apply andb_false_iff; right; apply Z.leb_gt; lia.
    - apply digit_no_case; [exact Ea|rewrite Ed; discriminate]. }
  destruct Hl as [Hl Hsp].
  assert (Hin : In c (_norm_text s)).
  { apply norm_text_keep; [|exact Hsp].
    unfold py_lower; apply in_flat_map; exists c; split; [exact Hc|rewrite Hl; left; reflexivity]. }
  apply str_in_iff in Hna; unfold NA_TOKENS in Hna.
  repeat (destruct Hna as [Hna|Hna]; [rewrite <- Hna in Hin; vm_compute in Hin;
            repeat (destruct Hin as [Hin|Hin]; [subst c; first [discriminate Ed|contradiction]|]);
            exact Hin|]).
  exact Hna.
Qed.

Lemma na_parse_none : forall s, str_in (_norm_text s) NA_TOKENS = true -> _parse_span_flexible s = None.
Proof. intros s H; apply parse_span_flexible_nodigit, na_strip_nodigit, H. Qed.

End DigitNoCase.

Lemma assoc_get_in {V} : forall k (l : list (pystr * V)) v, assoc_get k l = Some v -> In (k, v) l.
Proof.
  intros k l v; induction l as [|[k' v'] l IH]; cbn [assoc_get]; [discriminate|].
  destruct (str_eqb k k') eqn:E; [intros H; injection H as <-; apply str_eqb_eq in E; subst; left; reflexivity|].
  intros H; right; apply IH, H.
Qed.

Lemma type_aliases_filled : forall k v, assoc_get k _TYPE_ALIASES = Some v ->
  str_in (rx_sub RE_WS 0 [32] k) NA_TOKENS = false /\ str_in (rx_sub RE_WS 0 [32] v) NA_TOKENS = false.
Proof.
  intros k v E; apply assoc_get_in in E.
  assert (G : forall p, In p _TYPE_ALIASES ->
            str_in (rx_sub RE_WS 0 [32] (fst p)) NA_TOKENS = false
            /\ str_in (rx_sub RE_WS 0 [32] (snd p)) NA_TOKENS = false).
  { intros p Hp; vm_compute in Hp.
    repeat (destruct Hp as [<-|Hp]; [split; vm_compute; reflexivity|]); destruct Hp. }
  exact (G _ E).
Qed.

(** [_norm_type] of a blank or N/A value is never that of a filled one *)
Lemma norm_type_na : forall a b, str_in (_norm_text a) NA_TOKENS = true ->
  str_in (_norm_text b) NA_TOKENS = false -> _norm_type a <> _norm_type b.
Proof.
  intros a b Ha Hb; unfold _norm_type; unfold _norm_text in Ha, Hb.
  destruct (assoc_get (py_lower (py_strip a)) _TYPE_ALIASES) as [va|] eqn:Ea.
  - destruct (type_aliases_filled _ _ Ea) as [E _]; rewrite E in Ha; discriminate.
  - destruct (assoc_get (py_lower (py_strip b)) _TYPE_ALIASES) as [vb|] eqn:Eb.
    + destruct (type_aliases_filled _ _ Eb) as [_ E]; intros Heq; rewrite Heq, E in Ha; discriminate.
    + intros Heq; rewrite Heq, Hb in Ha; discriminate.
Qed.



Lemma field_changed_equiv : forall master weekly f, In f equiv_compared ->
  master_field_changed master weekly f =
    (if str_in (_norm_text (dict_get weekly f)) NA_TOKENS
        && negb (str_in (_norm_text (dict_get master f)) NA_TOKENS) then false
     else negb (_equiv (dict_get master f) (dict_get weekly f))).
Proof.
  intros master weekly f Hf.
  repeat (destruct Hf as [<-|Hf]; [reflexivity|]); destruct Hf.
Qed.

Lemma equiv_compared_in : forall f, In f equiv_compared -> In f _FIELDS_TO_COMPARE_AGAINST_MASTER.
Proof.
  intros f Hf; repeat (destruct Hf as [<-|Hf]; [apply str_in_iff; reflexivity|]); destruct Hf.
Qed.

Lemma equiv_na_filled : forall a b, str_in (_norm_text a) NA_TOKENS = true ->
  str_in (_norm_text b) NA_TOKENS = false -> _equiv a b = false.
Proof.
  intros a b Ha Hb; unfold _equiv; rewrite Ha, Hb; simpl.
  destruct (str_eqb (_norm_text a) (_norm_text b)) eqn:E; [|reflexivity].
  apply str_eqb_eq in E; rewrite E, Hb in Ha; discriminate.
Qed.

Section BlankRule.
Hypothesis digit_no_case : forall c, is_ascii c = false -> u_digit c <> None ->
  u_lower c = [c] /\ u_space c = false.

(** C6 (amended). A field whose weekly value is blank or N/A while the
    master value is filled is never flagged. Conversely, a master value that
    is blank or N/A against a filled weekly value flags Shooting Dates, City,
    Province/State, Country, Type, Director/Producer and Production Company.
    Production Name is flagged exactly when the [_norm_key]s differ, and
    Start Month exactly when the months [_start_month_from_span] derives
    from the two Shooting Dates differ, whatever the Start Month values.
    (Hypothesis, as in the Unicode data: a non-ASCII decimal digit has no
    lowercase mapping of its own and is no whitespace.) *)
Theorem _changed_vs_master_blank_rule : forall master weekly,
  (forall f, str_in (_norm_text (dict_get weekly f)) NA_TOKENS = true ->
     str_in (_norm_text (dict_get master f)) NA_TOKENS = false ->
     ~ In f (_changed_vs_master master weekly))
  /\ (forall f, In f _FIELDS_TO_COMPARE_AGAINST_MASTER ->
       f <> u "Production Name" -> f <> u "Start Month" ->
       str_in (_norm_text (dict_get master f)) NA_TOKENS = true ->
       str_in (_norm_text (dict_get weekly f)) NA_TOKENS = false ->
       In f (_changed_vs_master master weekly))
  /\ (str_in (_norm_text (dict_get master (u "Production Name"))) NA_TOKENS = true ->
      (In (u "Production Name") (_changed_vs_master master weekly)
       <-> _norm_key (dict_get master (u "Production Name"))
           <> _norm_key (dict_get weekly (u "Production Name"))))
  /\ (str_in (_norm_text (dict_get master (u "Start Month"))) NA_TOKENS = true ->
      (In (u "Start Month") (_changed_vs_master master weekly)
       <-> _start_month_from_span (dict_get master (u "Shooting Dates"))
           <> _start_month_from_span (dict_get weekly (u "Shooting Dates")))).
Proof.
  intros master weekly; split; [|split; [|split]].
  - intros f Hw Hm Hin; unfold _changed_vs_master in Hin; apply filter_In in Hin.
    destruct Hin as [_ Hc]; unfold master_field_changed in Hc; rewrite Hw, Hm in Hc; discriminate.
  - intros f Hf Hpn Hsm Hm Hw; unfold _changed_vs_master; apply filter_In; split; [exact Hf|].
    destruct (in_dec (list_eq_dec Z.eq_dec) f equiv_compared) as [He|He].
    + rewrite field_changed_equiv by exact He; rewrite Hw; simpl.
      rewrite equiv_na_filled by assumption; reflexivity.
    + destruct Hf as [<-|[<-|[<-|[<-|[<-|[<-|[<-|[<-|[<-|[]]]]]]]]]];
        try (exfalso; apply He; apply str_in_iff; reflexivity); try contradiction.
      * change (master_field_changed master weekly (u "Shooting Dates"))
          with (if str_in (_norm_text (dict_get weekly (u "Shooting Dates"))) NA_TOKENS
                   && negb (str_in (_norm_text (dict_get master (u "Shooting Dates"))) NA_TOKENS) then false
                else negb (_equiv_dates (dict_get master (u "Shooting Dates")) (dict_get weekly (u "Shooting Dates")))).
        rewrite Hw; simpl; unfold _equiv_dates; rewrite (na_parse_none digit_no_case _ Hm).
        rewrite equiv_na_filled by assumption; reflexivity.
      * change (master_field_changed master weekly (u "Type"))
          with (if str_in (_norm_text (dict_get weekly (u "Type"))) NA_TOKENS
                   && negb (str_in (_norm_text (dict_get master (u "Type"))) NA_TOKENS) then false
                else negb (str_eqb (_norm_type (dict_get master (u "Type"))) (_norm_type (dict_get weekly (u "Type"))))).
        rewrite Hw; simpl; rewrite str_eqb_neq by (apply norm_type_na; assumption); reflexivity.
  - intros Hm; unfold _changed_vs_master; rewrite filter_In.
    change (master_field_changed master weekly (u "Production Name"))
      with (if str_in (_norm_text (dict_get weekly (u "Production Name"))) NA_TOKENS
               && negb (str_in (_norm_text (dict_get master (u "Production Name"))) NA_TOKENS) then false
            else negb (str_eqb (_norm_key (dict_get master (u "Production Name")))
                               (_norm_key (dict_get weekly (u "Production Name"))))).
    rewrite Hm, andb_false_r; cbv beta iota.
    split; [intros [_ H] E; rewrite E, str_eqb_refl in H; discriminate|].
    intros E; split; [apply str_in_iff; reflexivity|rewrite str_eqb_neq by exact E; reflexivity].
  - intros Hm; unfold _changed_vs_master; rewrite filter_In.
    change (master_field_changed master weekly (u "Start Month"))
      with (if str_in (_norm_text (dict_get weekly (u "Start Month"))) NA_TOKENS
               && negb (str_in (_norm_text (dict_get master (u "Start Month"))) NA_TOKENS) then false
            else negb (str_eqb (_start_month_from_span (dict_get master (u "Shooting Dates")))
                               (_start_month_from_span (dict_get weekly (u "Shooting Dates"))))).
    rewrite Hm, andb_false_r; cbv beta iota.
    split; [intros [_ H] E; rewrite E, str_eqb_refl in H; discriminate|].
    intros E; split; [apply str_in_iff; reflexivity|rewrite str_eqb_neq by exact E; reflexivity].
Qed.

End BlankRule.

(* ------------------------------------------------------------------ *)
(** *** Run-to-run compare *)

Lemma qltb_iff : forall a b, qltb a b = true <-> (a < b)%Q.
Proof.
  intros a b; unfold qltb; rewrite negb_true_iff; split.
  - intros H; apply Qnot_le_lt; intros H'; apply Qle_bool_iff in H'; congruence.
  - intros H; destruct (Qle_bool b a) eqn:E; auto; apply Qle_bool_iff in E; apply Qlt_not_le in H; contradiction.
Qed.

Lemma qltb_false : forall a b, qltb a b = false -> (b <= a)%Q.
Proof.
  intros a b H; apply Qnot_lt_le; intros H'; apply qltb_iff in H'; congruence.
Qed.

Lemma Qle_bool_false : forall a b, Qle_bool a b = false -> (b < a)%Q.
Proof.
  intros a b H; apply Qnot_le_lt; intros H'; apply Qle_bool_iff in H'; congruence.
Qed.

Section CompareProofs.
Variable token_set_ratio : pystr -> pystr -> Q.

Lemma best_match_from_spec : forall nt olds j best,
  (snd best <= snd (best_match_from token_set_ratio nt olds j best))%Q
  /\ (best_match_from token_set_ratio nt olds j best = best
      \/ exists k o, fst (best_match_from token_set_ratio nt olds j best) = Some (k, o)
           /\ (j <= k)%nat /\ nth_error olds (k - j) = Some (o, false)
           /\ snd (best_match_from token_set_ratio nt olds j best)
              = token_set_ratio nt (_norm_text (dict_get o (u "Production Name"))))
  /\ (forall i o, nth_error olds i = Some (o, false) ->
        (token_set_ratio nt (_norm_text (dict_get o (u "Production Name")))
         <= snd (best_match_from token_set_ratio nt olds j best))%Q).
Proof.
  intros nt olds; induction olds as [|[o m] olds IH]; intros j best.
  - simpl; split; [apply Qle_refl|split; [left; reflexivity|]].
    intros [|i] o; discriminate.
  - simpl. destruct m.
    + destruct (IH (S j) best) as [H1 [H2 H3]]; split; [exact H1|split].
      * destruct H2 as [H2|[k [o' [Hk1 [Hk2 [Hk3 Hk4]]]]]]; [left; exact H2|right].
        exists k, o'; split; [exact Hk1|split; [lia|split; [|exact Hk4]]].
        replace (k - j)%nat with (S (k - S j)) by lia; exact Hk3.
      * intros [|i] o' Hi; [discriminate|]; apply (H3 i o' Hi).
    + set (s := token_set_ratio nt (_norm_text (dict_get o (u "Production Name")))).
      set (best' := if qltb (snd best) s then (Some (j, o), s) else best).
      assert (Hb : (snd best <= snd best')%Q /\ (s <= snd best')%Q).
      { unfold best'; destruct (qltb (snd best) s) eqn:E; simpl.
        - apply qltb_iff in E; split; [apply Qlt_le_weak, E | apply Qle_refl].
        - split; [apply Qle_refl | apply qltb_false, E]. }
      destruct (IH (S j) best') as [H1 [H2 H3]]; split; [|split].
      * eapply Qle_trans; [apply Hb | exact H1].
      * destruct H2 as [H2|[k [o' [Hk1 [Hk2 [Hk3 Hk4]]]]]].
        -- rewrite H2; unfold best'; destruct (qltb (snd best) s); [right|left; reflexivity].
           exists j, o; simpl; split; [reflexivity|split; [lia|split; [|reflexivity]]].
           rewrite Nat.sub_diag; reflexivity.
        -- right; exists k, o'; split; [exact Hk1|split; [lia|split; [|exact Hk4]]].
           replace (k - j)%nat with (S (k - S j)) by lia; exact Hk3.
      * intros [|i] o' Hi.
        -- injection Hi as <-; eapply Qle_trans; [apply Hb | exact H1].
        -- apply (H3 i o' Hi).
Qed.

Lemma best_match_spec : forall nt olds bm bs,
  best_match token_set_ratio nt olds = (bm, bs) ->
  (forall j o, nth_error olds j = Some (o, false) ->
     (token_set_ratio nt (_norm_text (dict_get o (u "Production Name"))) <= bs)%Q)
  /\ ((bm = None /\ bs = 0%Q)
      \/ exists j o, bm = Some (j, o) /\ nth_error olds j = Some (o, false)
           /\ bs = token_set_ratio nt (_norm_text (dict_get o (u "Production Name")))).
Proof.
  intros nt olds bm bs Hb; unfold best_match in Hb.
  destruct (best_match_from_spec nt olds 0 (None, 0%Q)) as [_ [H2 H3]]; rewrite Hb in H2, H3.
  split; [exact H3|].
  destruct H2 as [H2|[k [o [Hk1 [_ [Hk3 Hk4]]]]]].
  - left; injection H2 as -> ->; split; reflexivity.
  - right; exists k, o; simpl in *; rewrite Nat.sub_0_r in Hk3; auto.
Qed.

(** C5: for a new row whose best title score over the unmatched old rows
    is [bs]: above 90 it is matched to the best old row and gives an
    Updated row only when a compared field differs; from 50 to 90, both
    included, it is matched and always gives an Updated row whose note
    names the old and the new title; below 50 it gives a New row. *)
Theorem compare_step_thresholds : forall new_label olds n_row bm bs,
  best_match token_set_ratio (_norm_text (dict_get n_row (u "Production Name"))) olds = (bm, bs) ->
  ((forall j o, nth_error olds j = Some (o, false) ->
      (token_set_ratio (_norm_text (dict_get n_row (u "Production Name")))
                       (_norm_text (dict_get o (u "Production Name"))) <= bs)%Q)
   /\ ((bm = None /\ bs = 0%Q)
       \/ exists j o, bm = Some (j, o) /\ nth_error olds j = Some (o, false)
            /\ bs = token_set_ratio (_norm_text (dict_get n_row (u "Production Name")))
                                    (_norm_text (dict_get o (u "Production Name")))))
  /\ ((90 < bs)%Q -> exists j o, bm = Some (j, o) /\ nth_error olds j = Some (o, false)
        /\ compare_step token_set_ratio new_label olds n_row
           = Some (mark_matched j olds,
                   let diffs := _changed_fields o n_row in
                   match diffs with
                   | [] => []
                   | _ => [fill_na (dict_set (u "Notes") (u "UPDATED (" ++ py_join (u ", ") diffs ++ u ")")
                                          (dict_set (u "Category") (u "Updated") n_row))]
                   end))
  /\ ((50 <= bs <= 90)%Q -> exists j o, bm = Some (j, o) /\ nth_error olds j = Some (o, false)
        /\ compare_step token_set_ratio new_label olds n_row
           = Some (mark_matched j olds,
                   [fill_na (dict_set (u "Notes")
                               (u "UPDATED (Name changed from '" ++ dict_get o (u "Production Name")
                                  ++ u "' to '" ++ dict_get n_row (u "Production Name") ++ u "')")
                               (dict_set (u "Category") (u "Updated") n_row))]))
  /\ ((bs < 50)%Q ->
      compare_step token_set_ratio new_label olds n_row
      = Some (olds, [fill_na (dict_set (u "Notes") (u "NEW" ++ NOTE_DASH ++ u "from " ++ new_label)
                                (dict_set (u "Category") (u "New") n_row))])).
Proof.
  intros new_label olds n_row bm bs Hb.
  pose proof (best_match_spec _ _ _ _ Hb) as [Hmax Hbm].
  split; [split; [exact Hmax | exact Hbm]|].
  unfold compare_step; cbv zeta; rewrite Hb.
  split; [|split].
  - intros H90.
    destruct Hbm as [[-> ->]|[j [o [-> [Hj _]]]]]; [lra|].
    exists j, o; split; [reflexivity|split; [exact Hj|]].
    replace (qltb 90 bs) with true by (symmetry; apply qltb_iff; exact H90); reflexivity.
  - intros [H50 H90].
    destruct Hbm as [[-> ->]|[j [o [-> [Hj _]]]]]; [lra|].
    exists j, o; split; [reflexivity|split; [exact Hj|]].
    replace (qltb 90 bs) with false
      by (symmetry; destruct (qltb 90 bs) eqn:E; auto; apply qltb_iff in E; lra).
    replace (Qle_bool 50 bs) with true by (symmetry; apply Qle_bool_iff; exact H50).
    replace (Qle_bool bs 90) with true by (symmetry; apply Qle_bool_iff; exact H90).
    reflexivity.
  - intros H50.
    replace (qltb 90 bs) with false
      by (symmetry; destruct (qltb 90 bs) eqn:E; auto; apply qltb_iff in E; lra).
    replace (Qle_bool 50 bs) with false
      by (symmetry; destruct (Qle_bool 50 bs) eqn:E; auto; apply Qle_bool_iff in E; lra).
    reflexivity.
Qed.

End CompareProofs.

(* ------------------------------------------------------------------ *)
(** *** Duplicate titles: [build_key_map] and [_collapse_dupes] *)

Local Abbreviation ckey r := (_norm_key (dict_get r (u "Production Name"))).

Lemma build_key_map_fold : forall rows m k, k <> [] ->
  assoc_get k (fold_left (fun m r =>
    let k := ckey r in
    if negb (is_empty k) && negb (dict_in k m) then m ++ [(k, r)] else m) rows m)
  = match assoc_get k m with
    | Some r => Some r
    | None => find (fun r => str_eqb (ckey r) k) rows
    end.
Proof.
  induction rows as [|a rows IH]; intros m k Hk; cbn [fold_left find].
  - destruct (assoc_get k m); reflexivity.
  - rewrite IH by exact Hk.
    destruct (is_empty (ckey a)) eqn:Ee; cbn [negb andb].
    + destruct (assoc_get k m); [reflexivity|].
      destruct (str_eqb (ckey a) k) eqn:E; [|reflexivity].
      apply str_eqb_eq in E; rewrite E in Ee; destruct k; [congruence|discriminate].
    + unfold dict_in; destruct (assoc_get (ckey a) m) eqn:Ea; cbn [negb].
      * destruct (assoc_get k m) eqn:Ek; [reflexivity|].
        destruct (str_eqb (ckey a) k) eqn:E; [|reflexivity].
        apply str_eqb_eq in E; rewrite E in Ea; congruence.
      * rewrite assoc_get_app; destruct (assoc_get k m); [reflexivity|].
        simpl; rewrite str_eqb_sym; destruct (str_eqb (ckey a) k); reflexivity.
Qed.

Lemma build_key_map_first : forall rows k, k <> [] ->
  assoc_get k (build_key_map rows) = find (fun r => str_eqb (ckey r) k) rows.
Proof. intros rows k Hk; unfold build_key_map; rewrite build_key_map_fold by exact Hk; reflexivity. Qed.

Local Abbreviation collapse_inv P order best :=
  ((forall k b, assoc_get k best = Some b ->
      k <> [] /\ In b P /\ ckey b = k /\
      forall r', In r' P -> ckey r' = k -> (collapse_score r' <= collapse_score b)%Z)
   /\ (forall r, In r P -> ckey r <> [] -> assoc_get (ckey r) best <> None)
   /\ (forall k, assoc_get k best <> None -> In k order)).

Lemma not_empty_nil : forall s : pystr, is_empty s = false -> s <> [].
Proof. intros [|c s] H; [discriminate | discriminate]. Qed.

Lemma collapse_step_inv : forall P order best dupes a,
  collapse_inv P order best ->
  let '(order', best', _) := collapse_step (order, best, dupes) a in
  collapse_inv (P ++ [a]) order' best'.
Proof.
  intros P order best dupes a [H1 [H2 H3]].
  unfold collapse_step.
  destruct (is_empty (ckey a)) eqn:Ee.
  - assert (Ea : ckey a = []) by (destruct (ckey a); [reflexivity|discriminate]).
    split; [|split].
    + intros k b Hb; destruct (H1 k b Hb) as [Hk [Hin [Hkey Hle]]].
      split; [exact Hk|split; [apply in_or_app; left; exact Hin|split; [exact Hkey|]]].
      intros r' Hr' Hk'; apply in_app_or in Hr' as [Hr'|[<-|[]]]; [exact (Hle r' Hr' Hk')|].
      rewrite Ea in Hk'; rewrite <- Hk' in Hk; exfalso; exact (Hk eq_refl).
    + intros r Hr Hn; apply in_app_or in Hr as [Hr|[<-|[]]]; [exact (H2 r Hr Hn)|contradiction].
    + exact H3.
  - pose proof (not_empty_nil _ Ee) as Hne.
    destruct (assoc_get (ckey a) best) as [b0|] eqn:Eb.
    + destruct (collapse_score b0 <? collapse_score a)%Z eqn:Elt.
      * apply Z.ltb_lt in Elt.
        split; [|split].
        -- intros k b Hb.
           destruct (str_eqb k (ckey a)) eqn:E.
           ++ apply str_eqb_eq in E; subst k; rewrite assoc_get_set_same in Hb; injection Hb as <-.
              split; [exact Hne|split; [apply in_or_app; right; left; reflexivity|split; [reflexivity|]]].
              intros r' Hr' Hk'; apply in_app_or in Hr' as [Hr'|[<-|[]]]; [|lia].
              destruct (H1 _ _ Eb) as [_ [_ [_ Hle]]]; specialize (Hle r' Hr' Hk'); lia.
           ++ rewrite assoc_get_set_other in Hb by exact E.
              destruct (H1 k b Hb) as [Hk [Hin [Hkey Hle]]].
              split; [exact Hk|split; [apply in_or_app; left; exact Hin|split; [exact Hkey|]]].
              intros r' Hr' Hk'; apply in_app_or in Hr' as [Hr'|[<-|[]]]; [exact (Hle r' Hr' Hk')|].
              rewrite Hk', str_eqb_refl in E; discriminate.
        -- intros r Hr Hn.
           destruct (str_eqb (ckey r) (ckey a)) eqn:E.
           ++ apply str_eqb_eq in E; rewrite E, assoc_get_set_same; discriminate.
           ++ rewrite assoc_get_set_other by exact E.
              apply in_app_or in Hr as [Hr|[<-|[]]]; [exact (H2 r Hr Hn)|].
              rewrite str_eqb_refl in E; discriminate.
        -- intros k Hk.
           destruct (str_eqb k (ckey a)) eqn:E.
           ++ apply str_eqb_eq in E; subst k; apply H3; rewrite Eb; discriminate.
           ++ rewrite assoc_get_set_other in Hk by exact E; exact (H3 k Hk).
      * apply Z.ltb_ge in Elt.
        split; [|split].
        -- intros k b Hb; destruct (H1 k b Hb) as [Hk [Hin [Hkey Hle]]].
           split; [exact Hk|split; [apply in_or_app; left; exact Hin|split; [exact Hkey|]]].
           intros r' Hr' Hk'; apply in_app_or in Hr' as [Hr'|[<-|[]]]; [exact (Hle r' Hr' Hk')|].
           rewrite Hk' in Eb; rewrite Eb in Hb; injection Hb as ->; exact Elt.
        -- intros r Hr Hn; apply in_app_or in Hr as [Hr|[<-|[]]]; [exact (H2 r Hr Hn)|].
           rewrite Eb; discriminate.
        -- exact H3.
    + split; [|split].
      * intros k b Hb.
        destruct (str_eqb k (ckey a)) eqn:E.
        -- apply str_eqb_eq in E; subst k; rewrite assoc_get_set_same in Hb; injection Hb as <-.
           split; [exact Hne|split; [apply in_or_app; right; left; reflexivity|split; [reflexivity|]]].
           intros r' Hr' Hk'; apply in_app_or in Hr' as [Hr'|[<-|[]]]; [|lia].
           exfalso; apply (H2 r' Hr'); [rewrite Hk'; exact Hne|rewrite Hk'; exact Eb].
        -- rewrite assoc_get_set_other in Hb by exact E.
           destruct (H1 k b Hb) as [Hk [Hin [Hkey Hle]]].
           split; [exact Hk|split; [apply in_or_app; left; exact Hin|split; [exact Hkey|]]].
           intros r' Hr' Hk'; apply in_app_or in Hr' as [Hr'|[<-|[]]]; [exact (Hle r' Hr' Hk')|].
           rewrite Hk', str_eqb_refl in E; discriminate.
      * intros r Hr Hn.
        destruct (str_eqb (ckey r) (ckey a)) eqn:E.
        -- apply str_eqb_eq in E; rewrite E, assoc_get_set_same; discriminate.
        -- rewrite assoc_get_set_other by exact E.
           apply in_app_or in Hr as [Hr|[<-|[]]]; [exact (H2 r Hr Hn)|].
           rewrite str_eqb_refl in E; discriminate.
      * intros k Hk; apply in_or_app.
        destruct (str_eqb k (ckey a)) eqn:E.
        -- apply str_eqb_eq in E; right; left; symmetry; exact E.
        -- rewrite assoc_get_set_other in Hk by exact E; left; exact (H3 k Hk).
Qed.

Lemma collapse_fold_inv : forall rows P order best dupes,
  collapse_inv P order best ->
  let '(order', best', _) := fold_left collapse_step rows (order, best, dupes) in
  collapse_inv (P ++ rows) order' best'.
Proof.
  induction rows as [|a rows IH]; intros P order best dupes Hinv; cbn [fold_left].
  - rewrite app_nil_r; exact Hinv.
  - pose proof (collapse_step_inv P order best dupes a Hinv) as Hs.
    destruct (collapse_step (order, best, dupes) a) as [[o' b'] d'].
    specialize (IH (P ++ [a]) o' b' d' Hs); rewrite <- app_assoc in IH; exact IH.
Qed.

Lemma assoc_get_flat_map_order : forall (best : list (pystr * row)) order k,
  assoc_get k (flat_map (fun k => match assoc_get k best with Some r => [(k, r)] | None => [] end) order)
  = if str_in k order then assoc_get k best else None.
Proof.
  intros best order k; unfold str_in; induction order as [|a order IH]; [reflexivity|].
  cbn [flat_map existsb]; rewrite assoc_get_app.
  destruct (assoc_get a best) as [r|] eqn:Ea; cbn [assoc_get].
  - destruct (str_eqb k a) eqn:E; [|exact IH].
    apply str_eqb_eq in E; subst; rewrite Ea; reflexivity.
  - rewrite IH; destruct (str_eqb k a) eqn:E; [|reflexivity].
    apply str_eqb_eq in E; subst; rewrite Ea; destruct (existsb _ _); reflexivity.
Qed.

(** The master comparison's key maps, built by the loops
    [m_map] and [w_map] ([build_key_map]), keep for each non-empty key the
    FIRST record carrying it, whatever the completeness scores. Only
    [_collapse_dupes] applies the completeness score: the record it keeps
    for a key is a row with that key, no row with that key has a higher
    [collapse_score], and every non-empty key of the rows is kept. *)
Theorem _collapse_dupes_best_vs_key_map_first :
  (forall rows k, k <> [] ->
     assoc_get k (build_key_map rows) = find (fun r => str_eqb (ckey r) k) rows)
  /\ (forall rows k r, assoc_get k (fst (_collapse_dupes rows)) = Some r ->
        In r rows /\ ckey r = k /\
        forall r', In r' rows -> ckey r' = k -> (collapse_score r' <= collapse_score r)%Z)
  /\ (forall rows r, In r rows -> ckey r <> [] ->
        assoc_get (ckey r) (fst (_collapse_dupes rows)) <> None).
Proof.
  assert (Hinit : collapse_inv [] [] (@nil (pystr * row))).
  { split; [intros k b Hb; discriminate|split; [intros r []|intros k Hk; exfalso; exact (Hk eq_refl)]]. }
  split; [exact build_key_map_first|split].
  - intros rows k r Hr; unfold _collapse_dupes in Hr.
    pose proof (collapse_fold_inv rows [] [] [] [] Hinit) as Hi.
    destruct (fold_left collapse_step rows ([], [], [])) as [[order best] dupes].
    cbn [fst] in Hr; rewrite assoc_get_flat_map_order in Hr.
    destruct (str_in k order); [|discriminate].
    destruct Hi as [H1 _]; destruct (H1 k r Hr) as [_ [Hin [Hk Hle]]].
    split; [exact Hin|split; [exact Hk|exact Hle]].
  - intros rows r Hr Hn; unfold _collapse_dupes.
    pose proof (collapse_fold_inv rows [] [] [] [] Hinit) as Hi.
    destruct (fold_left collapse_step rows ([], [], [])) as [[order best] dupes].
    destruct Hi as [_ [H2 H3]]; cbn [fst]; rewrite assoc_get_flat_map_order.
    specialize (H2 r Hr Hn); pose proof (H3 _ H2) as Ho.
    apply str_in_iff in Ho; rewrite Ho; exact H2.
Qed.

(* ------------------------------------------------------------------ *)
(** *** Master compare: empty keys *)

Lemma build_key_map_filter_fold : forall rows m,
  fold_left (fun m r =>
    let k := ckey r in
    if negb (is_empty k) && negb (dict_in k m) then m ++ [(k, r)] else m)
    (filter (fun r => negb (is_empty (ckey r))) rows) m
  = fold_left (fun m r =>
    let k := ckey r in
    if negb (is_empty k) && negb (dict_in k m) then m ++ [(k, r)] else m) rows m.
Proof.
  induction rows as [|a rows IH]; intros m; [reflexivity|]; cbn [filter fold_left].
  destruct (is_empty (ckey a)) eqn:E; cbn [negb andb fold_left]; [apply IH|].
  rewrite E; exact (IH (if negb (dict_in (ckey a) m) then m ++ [(ckey a, a)] else m)).
Qed.

Lemma build_key_map_filter : forall rows,
  build_key_map (filter (fun r => negb (is_empty (ckey r))) rows) = build_key_map rows.
Proof. intros rows; unfold build_key_map; apply build_key_map_filter_fold. Qed.

Lemma build_key_map_fold_entries : forall rows m k r,
  In (k, r) (fold_left (fun m r =>
    let k := ckey r in
    if negb (is_empty k) && negb (dict_in k m) then m ++ [(k, r)] else m) rows m) ->
  In (k, r) m \/ (In r rows /\ k = ckey r /\ k <> []).
Proof.
  induction rows as [|a rows IH]; intros m k r H; cbn [fold_left] in H; [left; exact H|].
  apply IH in H as [H|[Hin Hk]]; [|right; split; [right; exact Hin|exact Hk]].
  destruct (is_empty (ckey a)) eqn:Ee; cbn [negb andb] in H; [left; exact H|].
  destruct (dict_in (ckey a) m); cbn [negb] in H; [left; exact H|].
  apply in_app_or in H as [H|[H|[]]]; [left; exact H|].
  injection H as <- <-; right; split; [left; reflexivity|split; [reflexivity|exact (not_empty_nil _ Ee)]].
Qed.

Section MasterProofs.
Variable detect_prod_co : row -> pystr.

Lemma to_master_row_name : forall X il o, to_master_row detect_prod_co X il = Some o ->
  dict_get o (u "Production Name") = dict_get X (u "Production Name").
Proof.
  intros X il o H; unfold to_master_row in H.
  destruct (_ && _); [discriminate|]; injection H as <-; reflexivity.
Qed.

Lemma to_master_row_schema : forall X il o, to_master_row detect_prod_co X il = Some o ->
  map fst o = MASTER_SCHEMA.
Proof.
  intros X il o H; unfold to_master_row in H.
  destruct (_ && _); [discriminate|]; injection H as <-; reflexivity.
Qed.

(** every row of [master_compare_one] is the projection of the weekly
    record with its Category, Notes and pushed flag set *)
Lemma master_compare_one_proj : forall m_map bidx wl reg k w rs,
  master_compare_one detect_prod_co m_map bidx wl reg k w = Some rs ->
  forall o, In o rs -> exists X il, to_master_row detect_prod_co X il = Some o
    /\ dict_get X (u "Production Name") = dict_get w (u "Production Name").
Proof.
  intros m_map bidx wl reg k w rs H o Ho.
  unfold master_compare_one, _weekly_to_master_projection in H; cbv zeta in H.
  destruct (assoc_get k m_map) as [mr|].
  - destruct (_changed_vs_master mr w) as [|d ds]; [injection H as <-; destruct Ho|].
    match type of H with context [match ?E with (_, _) => _ end] => destruct E as [ms ws] end.
    match type of H with option_map _ (to_master_row _ ?X ?il) = _ =>
      destruct (to_master_row detect_prod_co X il) as [o'|] eqn:Et; [|discriminate];
      injection H as <-; destruct Ho as [<-|[]];
      exists X, il; split; [exact Et|] end.
    repeat match goal with |- context [if ?b then _ else _] => destruct b end;
    rewrite ?dict_get_set_other by reflexivity; reflexivity.
  - match type of H with option_map _ (to_master_row _ ?X ?il) = _ =>
      destruct (to_master_row detect_prod_co X il) as [o'|] eqn:Et; [|discriminate];
      injection H as <-; destruct Ho as [<-|[]];
      exists X, il; split; [exact Et|] end.
    rewrite ?dict_get_set_other by reflexivity; reflexivity.
Qed.

Lemma master_compare_loop_proj : forall m_map bidx wl reg w_map outs,
  master_compare_loop detect_prod_co m_map bidx wl reg w_map = Some outs ->
  forall o, In o outs -> exists k w X il, In (k, w) w_map
    /\ to_master_row detect_prod_co X il = Some o
    /\ dict_get X (u "Production Name") = dict_get w (u "Production Name").
Proof.
  intros m_map bidx wl reg w_map; induction w_map as [|[k w] w_map IH]; intros outs H o Ho;
    cbn [master_compare_loop] in H.
  - injection H as <-; destruct Ho.
  - unfold opt_bind in H.
    destruct (master_compare_one detect_prod_co m_map bidx wl reg k w) as [rs|] eqn:E1; [|discriminate].
    destruct (master_compare_loop detect_prod_co m_map bidx wl reg w_map) as [rest|]; [|discriminate].
    cbn [option_map] in H; injection H as <-.
    apply in_app_or in Ho as [Ho|Ho].
    + destruct (master_compare_one_proj _ _ _ _ _ _ _ E1 o Ho) as [X [il [Et He]]].
      exists k, w, X, il; split; [left; reflexivity|split; [exact Et|exact He]].
    + destruct (IH rest eq_refl o Ho) as [k' [w' [X [il [Hin [Et He]]]]]].
      exists k', w', X, il; split; [right; exact Hin|split; [exact Et|exact He]].
Qed.

(** C10. In master compare, the weekly records whose production name
    normalises to the empty key play no part: removing them from the weekly
    rows leaves the result unchanged, and every output row carries the
    production name of a weekly record with a non-empty key. *)
Theorem master_compare_empty_key_omitted : forall master_rows weekly_rows base_titles weekly_label region,
  master_compare_rows detect_prod_co master_rows
     (filter (fun r => negb (is_empty (ckey r))) weekly_rows) base_titles weekly_label region
  = master_compare_rows detect_prod_co master_rows weekly_rows base_titles weekly_label region
  /\ (forall outs,
        master_compare_rows detect_prod_co master_rows weekly_rows base_titles weekly_label region = Some outs ->
        forall o, In o outs -> exists w, In w weekly_rows /\ ckey w <> []
          /\ dict_get o (u "Production Name") = dict_get w (u "Production Name")).
Proof.
  intros master_rows weekly_rows base_titles weekly_label region; split.
  - unfold master_compare_rows; cbv zeta.
    rewrite filter_filter_comm, build_key_map_filter; reflexivity.
  - intros outs H o Ho; unfold master_compare_rows in H; cbv zeta in H.
    destruct (master_compare_loop_proj _ _ _ _ _ _ H o Ho) as [k [w [X [il [Hin [Et He]]]]]].
    apply to_master_row_name in Et; rewrite He in Et.
    unfold build_key_map in Hin; apply build_key_map_fold_entries in Hin as [[]|[Hw [Hk Hne]]].
    apply filter_In in Hw as [Hw _].
    exists w; split; [exact Hw|split; [rewrite <- Hk; exact Hne|exact Et]].
Qed.

End MasterProofs.

(* ------------------------------------------------------------------ *)
(** *** The Notes of the reconciliation rows *)

Lemma fill_na_keep : forall r k, py_strip (dict_get r k) <> [] -> dict_get (fill_na r) k = dict_get r k.
Proof.
  intros r k; unfold fill_na; generalize SCHEMA as keys; intros keys; revert r.
  induction keys as [|k' keys IH]; intros r H; cbn [fold_left]; [reflexivity|].
  destruct (is_empty (py_strip (dict_get r k'))) eqn:E; cbv beta iota.
  - destruct (str_eqb k k') eqn:Ek.
    + apply str_eqb_eq in Ek; subst k'; destruct (py_strip (dict_get r k)); [contradiction|discriminate].
    + rewrite IH; [apply dict_get_set_other; exact Ek|rewrite dict_get_set_other by exact Ek; exact H].
  - apply IH; exact H.
Qed.

(* ------------------------------------------------------------------ *)
(** *** Gazetteer *)

Lemma insert_desc_in {A} : forall (key : A -> Z) x l y, In y (insert_desc key x l) <-> y = x \/ In y l.
Proof.
  intros key x l y; induction l as [|z l IH]; cbn [insert_desc].
  - simpl; split; [intros [H|[]]; left; symmetry; exact H|intros [H|[]]; left; symmetry; exact H].
  - destruct (key z <? key x); simpl; rewrite ?IH; split; intros; intuition congruence.
Qed.

Lemma insert_desc_head {A} : forall (key : A -> Z) x l,
  match l with [] => True | h :: _ => forall z, In z l -> (key z <= key h)%Z end ->
  match insert_desc key x l with [] => True | h :: _ => forall z, In z (insert_desc key x l) -> (key z <= key h)%Z end.
Proof.
  intros key x [|y l] H; cbn [insert_desc].
  - intros z [<-|[]]; lia.
  - destruct (key y <? key x) eqn:E.
    + apply Z.ltb_lt in E; intros z [<-|Hz]; [lia|].
      specialize (H z Hz); lia.
    + apply Z.ltb_ge in E; intros z [<-|Hz]; [lia|].
      apply insert_desc_in in Hz as [->|Hz]; [lia|exact (H z (or_intror Hz))].
Qed.

Lemma sort_desc_fold {A} : forall (key : A -> Z) l acc,
  match acc with [] => True | h :: _ => forall z, In z acc -> (key z <= key h)%Z end ->
  let r := fold_left (fun acc x => insert_desc key x acc) l acc in
  (forall y, In y r <-> In y acc \/ In y l)
  /\ match r with [] => True | h :: _ => forall z, In z r -> (key z <= key h)%Z end.
Proof.
  intros key l; induction l as [|x l IH]; intros acc H; cbn [fold_left].
  - split; [intros y; split; [left; exact H0 | intros [H0|[]]; exact H0]|exact H].
  - destruct (IH (insert_desc key x acc) (insert_desc_head key x acc H)) as [Hin Hh].
    split; [|exact Hh].
    intros y; rewrite Hin, insert_desc_in; simpl; intuition.
Qed.

Lemma sort_desc_spec {A} : forall (key : A -> Z) l,
  (forall y, In y (sort_desc key l) <-> In y l)
  /\ match sort_desc key l with [] => True | h :: _ => forall z, In z l -> (key z <= key h)%Z end.
Proof.
  intros key l; destruct (sort_desc_fold key l [] I) as [Hin Hh]; fold (sort_desc key l) in Hin, Hh.
  split; [intros y; rewrite Hin; simpl; intuition|].
  destruct (sort_desc key l) as [|h t]; [exact I|].
  intros z Hz; apply Hh, Hin; right; exact Hz.
Qed.


Section GazetteerProofs.
Variable _GC_CITIES : list gcity.
Variable country_name : pystr -> pystr.
Variable admin1_map : pystr -> list (pystr * pystr).
Variable partial_ratio : pystr -> pystr -> Q.

Lemma fuzzy_scan_spec : forall q cities bn0 bs0 bn bs,
  fuzzy_scan partial_ratio q cities (bn0, bs0) = (bn, bs) ->
  (bn = bn0 /\ bs = bs0 /\ forall c, In c cities -> (partial_ratio q (py_lower (gc_name c)) <= bs0)%Q)
  \/ (exists c, In c cities /\ bn = Some (py_lower (gc_name c))
        /\ bs = partial_ratio q (py_lower (gc_name c)) /\ (bs0 < bs)%Q
        /\ ((98 <= bs)%Q \/ forall c', In c' cities -> (partial_ratio q (py_lower (gc_name c')) <= bs)%Q)).
Proof.
  intros q cities; induction cities as [|c cities IH]; intros bn0 bs0 bn bs H; cbn [fuzzy_scan] in H.
  - injection H as <- <-; left; split; [reflexivity|split; [reflexivity|intros c []]].
  - cbn [snd] in H.
    destruct (qltb bs0 (partial_ratio q (py_lower (gc_name c)))) eqn:Elt.
    + apply qltb_iff in Elt.
      destruct (Qle_bool 98 (partial_ratio q (py_lower (gc_name c)))) eqn:E98.
      * injection H as <- <-; right; exists c.
        split; [left; reflexivity|split; [reflexivity|split; [reflexivity|split; [exact Elt|left]]]].
        apply Qle_bool_iff; exact E98.
      * destruct (IH _ _ _ _ H) as [[-> [-> Hall]]|[c' [Hc' [-> [-> [Hlt Hmax]]]]]].
        -- right; exists c; split; [left; reflexivity|split; [reflexivity|split; [reflexivity|split; [exact Elt|right]]]].
           intros c' [<-|Hc']; [apply Qle_refl|exact (Hall c' Hc')].
        -- right; exists c'; split; [right; exact Hc'|split; [reflexivity|split; [reflexivity|split; [lra|]]]].
           destruct Hmax as [H98|Hmax]; [left; exact H98|right].
           intros c'' [<-|Hc'']; [lra|exact (Hmax c'' Hc'')].
    + apply qltb_false in Elt.
      destruct (IH _ _ _ _ H) as [[-> [-> Hall]]|[c' [Hc' [-> [-> [Hlt Hmax]]]]]].
      * left; split; [reflexivity|split; [reflexivity|]].
        intros c' [<-|Hc']; [exact Elt|exact (Hall c' Hc')].
      * right; exists c'; split; [right; exact Hc'|split; [reflexivity|split; [reflexivity|split; [exact Hlt|]]]].
        destruct Hmax as [H98|Hmax]; [left; exact H98|right].
        intros c'' [<-|Hc'']; [lra|exact (Hmax c'' Hc'')].
Qed.




End GazetteerProofs.

(* ------------------------------------------------------------------ *)
(** ** Further properties of the comparators *)

Lemma equiv_refl : forall a, _equiv a a = true.
Proof. intros a; unfold _equiv; destruct (_ && _); [reflexivity|apply str_eqb_refl]. Qed.

Lemma equiv_sym : forall a b, _equiv a b = _equiv b a.
Proof. intros a b; unfold _equiv; rewrite andb_comm, str_eqb_sym; reflexivity. Qed.

Lemma date_eqb_refl : forall d, date_eqb d d = true.
Proof. intros [y m d]; unfold date_eqb; cbn; rewrite !Z.eqb_refl; reflexivity. Qed.

Lemma date_eqb_sym : forall a b, date_eqb a b = date_eqb b a.
Proof. intros [y m d] [y' m' d']; unfold date_eqb; cbn; rewrite (Z.eqb_sym y), (Z.eqb_sym m), (Z.eqb_sym d); reflexivity. Qed.

Lemma equiv_dates_refl : forall a, _equiv_dates a a = true.
Proof.
  intros a; unfold _equiv_dates; destruct (_parse_span_flexible a) as [[s e]|];
    [rewrite !date_eqb_refl; reflexivity|apply equiv_refl].
Qed.

Lemma filter_all_false {A} : forall (p : A -> bool) l, (forall x, p x = false) -> filter p l = [].
Proof. intros p l H; induction l as [|x l IH]; simpl; [reflexivity|rewrite H; exact IH]. Qed.

(** X1. [_equiv] is an equivalence relation on strings: reflexive,
    symmetric and transitive (all NA tokens form one class, every other
    normalised text its own). *)
Theorem _equiv_equivalence :
  (forall a, _equiv a a = true)
  /\ (forall a b, _equiv a b = _equiv b a)
  /\ (forall a b c, _equiv a b = true -> _equiv b c = true -> _equiv a c = true).
Proof.
  split; [exact equiv_refl|split; [exact equiv_sym|]].
  intros a b c; unfold _equiv.
  destruct (str_in (_norm_text a) NA_TOKENS) eqn:Ea, (str_in (_norm_text b) NA_TOKENS) eqn:Eb,
           (str_in (_norm_text c) NA_TOKENS) eqn:Ec; cbn [andb]; intros H1 H2; try reflexivity;
    repeat match goal with H : str_eqb _ _ = true |- _ => apply str_eqb_eq in H end;
    try congruence; apply str_eqb_eq; congruence.
Qed.

(** X2. [_equiv_dates] is reflexive and symmetric. *)
Theorem _equiv_dates_refl_sym :
  (forall a, _equiv_dates a a = true) /\ (forall a b, _equiv_dates a b = _equiv_dates b a).
Proof.
  split; [exact equiv_dates_refl|].
  intros a b; unfold _equiv_dates.
  destruct (_parse_span_flexible a) as [[s1 e1]|], (_parse_span_flexible b) as [[s2 e2]|];
    rewrite ?(date_eqb_sym s1), ?(date_eqb_sym e1); try reflexivity; apply equiv_sym.
Qed.

(** X3. The run-to-run field comparison is symmetric in its two rows, and
    a row compared with itself has no changed field. *)
Theorem _changed_fields_sym_self : forall o n,
  _changed_fields o n = _changed_fields n o /\ _changed_fields n n = [].
Proof.
  intros o n; unfold _changed_fields; split.
  - apply filter_ext; intros f; rewrite equiv_sym; reflexivity.
  - apply filter_all_false; intros f; rewrite equiv_refl; reflexivity.
Qed.

(** X4. A master record compared with itself shows no changed field. *)
Theorem _changed_vs_master_self : forall m, _changed_vs_master m m = [].
Proof.
  intros m; unfold _changed_vs_master; apply filter_all_false; intros f.
  unfold master_field_changed.
  destruct (str_in (_norm_text (dict_get m f)) NA_TOKENS); cbn [andb negb];
  repeat match goal with |- context [if str_eqb f ?x then _ else _] => destruct (str_eqb f x) end;
  rewrite ?str_eqb_refl, ?equiv_dates_refl, ?equiv_refl; reflexivity.
Qed.

Lemma py_date_some : forall y m d x, py_date y m d = Some x ->
  x = mkdate y m d /\ 1 <= y <= 9999 /\ 1 <= m <= 12 /\ 1 <= d <= days_in_month y m.
Proof.
  unfold py_date; intros y m d x H.
  destruct ((1 <=? y) && (y <=? 9999) && (1 <=? m) && (m <=? 12) && (1 <=? d) && (d <=? days_in_month y m)) eqn:E;
    [|discriminate].
  injection H as <-. rewrite !andb_true_iff, !Z.leb_le in E. split; [reflexivity|lia].
Qed.

(** X5. A span accepted by [_parse_span_flexible] has both dates in the
    same year and never ends before it starts: the year-wrap branch of the
    code raises (NameError) and gives no result. *)
Theorem _parse_span_flexible_ordered : forall s st en,
  _parse_span_flexible s = Some (st, en) -> date_leb st en = true /\ dyear st = dyear en.
Proof.
  intros s st en H; unfold _parse_span_flexible in H; destruct s as [|c s]; [discriminate|].
  cbv zeta in H.
  match type of H with (match ?E with Some _ => _ | None => _ end) = _ => destruct E as [m|] end;
    [|discriminate].
  unfold opt_bind in H.
  destruct (mnum _) as [b|]; [|discriminate].
  destruct (py_date _ b _) as [end_|] eqn:Ee; [|discriminate].
  destruct (mnum _) as [a|]; [|discriminate].
  destruct (py_date _ a _) as [start|] eqn:Es; [|discriminate].
  destruct (date_ltb end_ start) eqn:Elt; [discriminate|].
  injection H as <- <-.
  apply py_date_year in Ee; apply py_date_year in Es.
  unfold date_leb; rewrite Elt; split; [reflexivity|congruence].
Qed.

(** the dates of a parsed range are valid and in order *)
Lemma parse_date_range_some : forall txt span sd ed,
  _parse_date_range txt = (span, Some sd, Some ed) ->
  (1 <= dyear sd <= 9999 /\ 1 <= dmonth sd <= 12 /\ 1 <= dday sd <= days_in_month (dyear sd) (dmonth sd))
  /\ (1 <= dyear ed <= 9999 /\ 1 <= dmonth ed <= 12 /\ 1 <= dday ed <= days_in_month (dyear ed) (dmonth ed))
  /\ date_leb sd ed = true.
Proof.
  intros txt span sd ed H; unfold _parse_date_range in H.
  destruct (rx_search RE_DATE_RANGE 6 txt) as [m|]; [|discriminate]; cbv zeta in H.
  match type of H with (match ?E with Some _ => _ | None => _ end) = _ => destruct E as [[[sp s'] e']|] eqn:Et end;
    [|discriminate].
  cbv beta iota in H; injection H as _ <- <-.
  unfold date_range_try, opt_bind in Et.
  destruct (assoc_get _ MONTHS) as [mo1|]; [|discriminate].
  destruct (py_date _ mo1 _) as [sd0|] eqn:E1; [|discriminate].
  destruct (assoc_get _ MONTHS) as [mo2|]; [|discriminate].
  destruct (py_date _ mo2 _) as [ed0|] eqn:E2; [|discriminate].
  destruct (date_ltb ed0 sd0) eqn:Elt.
  - match type of Et with context [py_date (?y - 1) mo1 ?d] =>
      destruct (py_date (y - 1) mo1 d) as [sd1|] eqn:E3 end; [|discriminate].
    cbv beta iota in Et; injection Et as _ <- <-.
    destruct (py_date_some _ _ _ _ E2) as [-> B2]; destruct (py_date_some _ _ _ _ E3) as [-> B3].
    cbn [dyear dmonth dday]; split; [exact B3|split; [exact B2|]].
    unfold date_leb, date_ltb; cbn [dyear dmonth dday].
    destruct B2 as [_ _].
    match goal with |- negb ((?y <? ?y - 1) || _) = true =>
      replace (y <? y - 1) with false by (symmetry; apply Z.ltb_ge; lia);
      replace (y =? y - 1) with false by (symmetry; apply Z.eqb_neq; lia) end.
    reflexivity.
  - cbv beta iota in Et; injection Et as _ <- <-.
    destruct (py_date_some _ _ _ _ E2) as [-> B2]; destruct (py_date_some _ _ _ _ E1) as [-> B1].
    cbn [dyear dmonth dday]; split; [exact B1|split; [exact B2|]].
    unfold date_leb; rewrite Elt; reflexivity.
Qed.

(** X6. Whenever [_parse_date_range] returns both dates, the start date is
    not after the end date. *)
Theorem _parse_date_range_ordered : forall txt span sd ed,
  _parse_date_range txt = (span, Some sd, Some ed) -> date_leb sd ed = true.
Proof. intros txt span sd ed H; exact (proj2 (proj2 (parse_date_range_some _ _ _ _ H))). Qed.

(** *** [str(int)] and [int(str)] *)

Lemma py_int_fold : forall l a,
  fold_left (fun acc c => acc * 10 + match py_digit c with Some d => d | None => 0 end) l a
  = a * 10 ^ Z.of_nat (List.length l) + py_int l.
Proof.
  unfold py_int; induction l as [|c l IH]; intros a; cbn [fold_left List.length].
  - simpl; lia.
  - rewrite IH, (IH (0 * 10 + _)). rewrite Nat2Z.inj_succ, Z.pow_succ_r by lia. lia.
Qed.

Lemma py_int_app : forall l l', py_int (l ++ l') = py_int l * 10 ^ Z.of_nat (List.length l') + py_int l'.
Proof. intros l l'; unfold py_int at 1; rewrite fold_left_app; apply py_int_fold. Qed.

Lemma py_int_digit : forall n, 0 <= n < 10 -> py_int [48 + n] = n.
Proof.
  intros n Hn; unfold py_int; cbn [fold_left]; unfold py_digit, is_ascii.
  replace ((0 <=? 48 + n) && (48 + n <? 128)) with true by (symmetry; apply andb_true_iff; split; [apply Z.leb_le|apply Z.ltb_lt]; lia).
  replace ((48 <=? 48 + n) && (48 + n <=? 57)) with true by (symmetry; apply andb_true_iff; split; apply Z.leb_le; lia).
  lia.
Qed.

Lemma digits_of_nat_spec : forall f n acc, 0 <= n < 10 ^ Z.of_nat (S f) ->
  exists D, digits_of_nat (S f) n acc = D ++ acc /\ D <> []
    /\ Forall (fun c => is_ascii_digit c = true) D /\ py_int D = n
    /\ forall k, n < 10 ^ Z.of_nat (S k) -> (List.length D <= S k)%nat.
Proof.
  assert (Hu : forall f n acc, digits_of_nat (S f) n acc
            = if n <? 10 then (48 + n mod 10) :: acc else digits_of_nat f (n / 10) ((48 + n mod 10) :: acc))
    by reflexivity.
  induction f as [|f IH]; intros n acc Hn; rewrite Hu.
  - replace (n <? 10) with true by (symmetry; apply Z.ltb_lt; simpl in Hn; lia).
    exists [48 + n mod 10]; split; [reflexivity|split; [discriminate|split]].
    + constructor; [|constructor]. unfold is_ascii_digit; apply andb_true_iff.
      pose proof (Z.mod_pos_bound n 10); split; apply Z.leb_le; lia.
    + rewrite Z.mod_small by (simpl in Hn; lia). split; [apply py_int_digit; simpl in Hn; lia|].
      intros k _; simpl; lia.
  - pose proof (Z.mod_pos_bound n 10) as Hm.
    destruct (Z.ltb_spec n 10) as [Hlt|Hge].
    + exists [48 + n mod 10]; split; [reflexivity|split; [discriminate|split]].
      * constructor; [|constructor]. unfold is_ascii_digit; apply andb_true_iff; split; apply Z.leb_le; lia.
      * rewrite Z.mod_small by lia. split; [apply py_int_digit; lia|intros k _; simpl; lia].
    + assert (Hq : 0 <= n / 10 < 10 ^ Z.of_nat (S f)).
      { split; [apply Z.div_pos; lia|].
        apply Z.div_lt_upper_bound; [lia|]. rewrite <- Z.pow_succ_r by lia.
        rewrite <- Nat2Z.inj_succ; exact (proj2 Hn). }
      destruct (IH (n / 10) ((48 + n mod 10) :: acc) Hq) as [D [HD [Hne [Hf [Hv Hl]]]]].
      exists (D ++ [48 + n mod 10]); rewrite HD, <- app_assoc; split; [reflexivity|split].
      * destruct D; [contradiction|discriminate].
      * split; [apply Forall_app; split; [exact Hf|constructor; [|constructor]]|].
        -- unfold is_ascii_digit; apply andb_true_iff; split; apply Z.leb_le; lia.
        -- rewrite py_int_app, Hv, py_int_digit by lia; cbn [List.length Z.of_nat].
           split; [pose proof (Z.div_mod n 10); lia|].
           intros k Hk; rewrite length_app; cbn [List.length].
           destruct k as [|k]; [simpl in Hk; lia|].
           assert (n / 10 < 10 ^ Z.of_nat (S k)).
           { apply Z.div_lt_upper_bound; [lia|]. rewrite <- Z.pow_succ_r by lia.
             rewrite <- Nat2Z.inj_succ; exact Hk. }
           specialize (Hl k H); lia.
Qed.

Lemma z_to_str_spec : forall n, 0 <= n < 10 ^ 64 ->
  z_to_str n <> [] /\ Forall (fun c => is_ascii_digit c = true) (z_to_str n) /\ py_int (z_to_str n) = n
  /\ forall k, n < 10 ^ Z.of_nat (S k) -> (List.length (z_to_str n) <= S k)%nat.
Proof.
  intros n Hn; unfold z_to_str.
  replace (n <? 0) with false by (symmetry; apply Z.ltb_ge; lia).
  destruct (digits_of_nat_spec 63 n [] Hn) as [D [HD HP]]; rewrite HD, app_nil_r; exact HP.
Qed.

Lemma py_int_zeros : forall j, py_int (repeat 48 j) = 0.
Proof.
  intros j; unfold py_int.
  assert (forall a, a = 0 -> fold_left (fun acc c => acc * 10 + match py_digit c with Some d => d | None => 0 end) (repeat 48 j) a = 0) as H.
  { induction j as [|j IH]; intros b Hb; cbn [repeat fold_left]; [exact Hb|apply IH; subst; reflexivity]. }
  apply H; reflexivity.
Qed.

(** X7. [f"{n:03d}"] (the [Prod. #] ordinal of the master notes) gives, for
    0 <= n < 1000, three ASCII digits that [int()] reads back as [n]. *)
Theorem z_to_str03_round_trip : forall n, 0 <= n < 1000 ->
  List.length (z_to_str03 n) = 3%nat /\ Forall (fun c => is_ascii_digit c = true) (z_to_str03 n)
  /\ py_int (z_to_str03 n) = n.
Proof.
  intros n Hn; unfold z_to_str03.
  destruct (z_to_str_spec n ltac:(lia)) as [_ [Hf [Hv Hl]]].
  specialize (Hl 2%nat ltac:(simpl; lia)).
  split; [rewrite length_app, repeat_length; lia|split].
  - apply Forall_app; split; [|exact Hf].
    apply Forall_forall; intros x Hx; apply repeat_spec in Hx; subst; reflexivity.
  - rewrite py_int_app, py_int_zeros, Hv; lia.
Qed.

(** *** [date.toordinal] *)

Lemma days_before_year_step : forall y,
  _days_before_year (y + 1) = _days_before_year y + 365 + (if is_leap y then 1 else 0).
Proof.
  intros y; unfold _days_before_year, is_leap.
  replace (y + 1 - 1) with y by lia.
  pose proof (Z.div_mod y 4 ltac:(lia)); pose proof (Z.mod_pos_bound y 4 ltac:(lia)).
  pose proof (Z.div_mod y 100 ltac:(lia)); pose proof (Z.mod_pos_bound y 100 ltac:(lia)).
  pose proof (Z.div_mod y 400 ltac:(lia)); pose proof (Z.mod_pos_bound y 400 ltac:(lia)).
  pose proof (Z.div_mod (y - 1) 4 ltac:(lia)); pose proof (Z.mod_pos_bound (y - 1) 4 ltac:(lia)).
  pose proof (Z.div_mod (y - 1) 100 ltac:(lia)); pose proof (Z.mod_pos_bound (y - 1) 100 ltac:(lia)).
  pose proof (Z.div_mod (y - 1) 400 ltac:(lia)); pose proof (Z.mod_pos_bound (y - 1) 400 ltac:(lia)).
  destruct (Z.eqb_spec (y mod 4) 0), (Z.eqb_spec (y mod 100) 0), (Z.eqb_spec (y mod 400) 0);
    cbn [andb orb negb]; lia.
Qed.

Lemma days_before_year_mono : forall y k, 0 <= k -> _days_before_year y + 365 * k <= _days_before_year (y + k).
Proof.
  intros y k Hk; replace k with (Z.of_nat (Z.to_nat k)) by lia.
  induction (Z.to_nat k) as [|n IH]; [cbn [Z.of_nat]; replace (y + 0) with y by lia; lia|].
  rewrite Nat2Z.inj_succ; replace (y + Z.succ (Z.of_nat n)) with (y + Z.of_nat n + 1) by lia.
  rewrite days_before_year_step; destruct (is_leap (y + Z.of_nat n)); lia.
Qed.

Ltac month_cases m := assert (m = 1 \/ m = 2 \/ m = 3 \/ m = 4 \/ m = 5 \/ m = 6 \/ m = 7 \/ m = 8
                                \/ m = 9 \/ m = 10 \/ m = 11 \/ m = 12) as Hmc by lia;
                      repeat destruct Hmc as [->|Hmc]; [..|subst m].

Lemma days_before_month_end : forall y m, 1 <= m <= 12 ->
  0 <= _days_before_month y m /\ _days_before_month y m + days_in_month y m <= 365 + (if is_leap y then 1 else 0).
Proof.
  intros y m Hm; unfold _days_before_month, days_in_month.
  month_cases m; destruct (is_leap y); simpl; lia.
Qed.

Lemma days_before_month_mono : forall y m1 m2 d1, 1 <= m1 < m2 -> m2 <= 12 -> 1 <= d1 <= days_in_month y m1 ->
  _days_before_month y m1 + d1 <= _days_before_month y m2.
Proof.
  intros y m1 m2 d1 H1 H2 Hd.
  enough (_days_before_month y m1 + days_in_month y m1 <= _days_before_month y m2) by lia.
  clear Hd; month_cases m1; month_cases m2; try lia;
    unfold _days_before_month, days_in_month; destruct (is_leap y); apply Z.leb_le; reflexivity.
Qed.

Lemma toordinal_bounds : forall d,
  1 <= dyear d <= 9999 -> 1 <= dmonth d <= 12 -> 1 <= dday d <= days_in_month (dyear d) (dmonth d) ->
  1 <= toordinal d <= 3652059 + 366.
Proof.
  intros [y m dd] Hy Hm Hd; unfold toordinal; cbn [dyear dmonth dday] in *.
  destruct (days_before_month_end y m Hm) as [H0 H1].
  pose proof (days_before_year_mono 1 (y - 1) ltac:(lia)) as Ha.
  pose proof (days_before_year_mono y (10000 - y) ltac:(lia)) as Hb.
  replace (1 + (y - 1)) with y in Ha by lia. replace (y + (10000 - y)) with 10000 in Hb by lia.
  replace (_days_before_year 1) with 0 in Ha by reflexivity.
  replace (_days_before_year 10000) with 3652059 in Hb by reflexivity.
  destruct (is_leap y); lia.
Qed.

Lemma toordinal_le : forall a b,
  1 <= dyear a <= 9999 -> 1 <= dmonth a <= 12 -> 1 <= dday a <= days_in_month (dyear a) (dmonth a) ->
  1 <= dyear b <= 9999 -> 1 <= dmonth b <= 12 -> 1 <= dday b <= days_in_month (dyear b) (dmonth b) ->
  date_leb a b = true -> toordinal a <= toordinal b.
Proof.
  intros [ya ma da] [yb mb db] Hya Hma Hda Hyb Hmb Hdb Hle; unfold toordinal;
    cbn [dyear dmonth dday] in *.
  unfold date_leb, date_ltb in Hle; cbn [dyear dmonth dday] in Hle.
  assert (Hcase : ya < yb \/ (ya = yb /\ ma < mb) \/ (ya = yb /\ ma = mb /\ da <= db)).
  { revert Hle.
    destruct (Z.ltb_spec yb ya); [intros Hx; discriminate Hx|].
    destruct (Z.eqb_spec yb ya); [|lia].
    destruct (Z.ltb_spec mb ma); [intros Hx; discriminate Hx|].
    destruct (Z.eqb_spec mb ma); [|lia].
    destruct (Z.ltb_spec db da); [intros Hx; discriminate Hx|lia]. }
  destruct Hcase as [Hlt|[[<- Hm]|[<- [<- Hd]]]].
  - destruct (days_before_month_end ya ma Hma) as [_ Ha].
    destruct (days_before_month_end yb mb Hmb) as [Hb _].
    pose proof (days_before_year_mono (ya + 1) (yb - ya - 1) ltac:(lia)) as Hm.
    replace (ya + 1 + (yb - ya - 1)) with yb in Hm by lia.
    rewrite days_before_year_step in Hm. destruct (is_leap ya); lia.
  - pose proof (days_before_month_mono ya ma mb da ltac:(lia) ltac:(lia) Hda); lia.
  - lia.
Qed.

(** X8. The production length computed from a parsed date range is a
    non-empty string of ASCII digits whose value is at least 1: the span
    is never reversed, so [(ed - sd).days + 1] is positive, and the
    column passes the [int()] of the master projection. *)
Theorem _inclusive_days_of_parsed_range : forall txt span sd ed,
  _parse_date_range txt = (span, Some sd, Some ed) ->
  let n := _inclusive_days (Some sd) (Some ed) in
  n <> [] /\ Forall (fun c => is_ascii_digit c = true) n /\ 1 <= py_int n
  /\ py_int n = toordinal ed - toordinal sd + 1.
Proof.
  intros txt span sd ed H; cbv zeta.
  destruct (parse_date_range_some _ _ _ _ H) as [[A1 [A2 A3]] [[B1 [B2 B3]] Hle]].
  pose proof (toordinal_le sd ed A1 A2 A3 B1 B2 B3 Hle).
  pose proof (toordinal_bounds sd A1 A2 A3). pose proof (toordinal_bounds ed B1 B2 B3).
  unfold _inclusive_days.
  destruct (z_to_str_spec (toordinal ed - toordinal sd + 1)) as [Hne [Hf [Hv _]]]; [split; [lia|]|].
  - apply (Z.le_lt_trans _ (3652059 + 366 + 1)); [lia|reflexivity].
  - rewrite Hv; split; [exact Hne|split; [exact Hf|split; [lia|reflexivity]]].
Qed.

(** *** Phones and the N/A filling *)

Lemma in_skipn_sub {A} : forall n (l : list A) x, In x (skipn n l) -> In x l.
Proof. intros n l x H; rewrite <- (firstn_skipn n l); apply in_or_app; right; exact H. Qed.

(** X9. [_norm_phone_for_compare] keeps at most the last ten characters,
    all of them digits, and applying it again changes nothing. *)
Theorem _norm_phone_for_compare_spec : forall s,
  let p := _norm_phone_for_compare s in
  (List.length p <= 10)%nat /\ Forall (fun c => cls_digit c = true) p /\ _norm_phone_for_compare p = p.
Proof.
  intros s; cbv zeta; unfold _norm_phone_for_compare.
  assert (Hf : Forall (fun c => cls_digit c = true) (skipn (List.length (filter cls_digit s) - 10) (filter cls_digit s))).
  { apply Forall_forall; intros x Hx; apply in_skipn_sub in Hx; apply filter_In in Hx; apply Hx. }
  assert (Hl : (List.length (skipn (List.length (filter cls_digit s) - 10) (filter cls_digit s)) <= 10)%nat)
    by (rewrite length_skipn; lia).
  split; [exact Hl|split; [exact Hf|]].
  generalize dependent (skipn (List.length (filter cls_digit s) - 10) (filter cls_digit s)); intros p Hf Hl.
  assert (filter cls_digit p = p) as ->.
  { induction p as [|c p IH]; [reflexivity|]; inversion Hf; subst; simpl; rewrite H1, IH;
      [reflexivity|exact H2|simpl in Hl; lia]. }
  replace (List.length p - 10)%nat with O by lia; reflexivity.
Qed.

Lemma blank_na : is_empty (py_strip (u "N/A")) = false.
Proof. reflexivity. Qed.

Lemma fill_na_fold_get : forall keys r k,
  dict_get (fold_left (fun out k => if is_empty (py_strip (dict_get out k)) then dict_set k (u "N/A") out else out)
              keys r) k
  = if str_in k keys && is_empty (py_strip (dict_get r k)) then u "N/A" else dict_get r k.
Proof.
  induction keys as [|a keys IH]; intros r k; cbn [fold_left]; [reflexivity|].
  rewrite IH; unfold str_in; cbn [existsb].
  destruct (str_eqb k a) eqn:Eka.
  - apply str_eqb_eq in Eka; subst a.
    destruct (is_empty (py_strip (dict_get r k))) eqn:Eb; cbn [orb andb].
    + rewrite dict_get_set_same, blank_na, andb_false_r; reflexivity.
    + rewrite Eb, andb_false_r; reflexivity.
  - cbn [orb]; destruct (is_empty (py_strip (dict_get r a))); [|reflexivity].
    rewrite dict_get_set_other by exact Eka; reflexivity.
Qed.

(** X10. [fill_na] replaces exactly the blank (empty or whitespace-only)
    and missing SCHEMA fields by "N/A"; every other field, and every field
    outside SCHEMA, keeps its value. *)
Theorem fill_na_spec : forall r k,
  dict_get (fill_na r) k
  = if str_in k SCHEMA && is_empty (py_strip (dict_get r k)) then u "N/A" else dict_get r k.
Proof. intros r k; unfold fill_na; apply fill_na_fold_get. Qed.

Lemma fill_na_fold_id : forall keys r,
  (forall k, In k keys -> is_empty (py_strip (dict_get r k)) = false) ->
  fold_left (fun out k => if is_empty (py_strip (dict_get out k)) then dict_set k (u "N/A") out else out) keys r = r.
Proof.
  induction keys as [|a keys IH]; intros r H; cbn [fold_left]; [reflexivity|].
  rewrite H by (left; reflexivity). apply IH; intros k Hk; apply H; right; exact Hk.
Qed.

(** X11. [fill_na] is idempotent: a row already filled is returned
    unchanged. *)
Theorem fill_na_idempotent : forall r, fill_na (fill_na r) = fill_na r.
Proof.
  intros r; unfold fill_na at 1; apply fill_na_fold_id; intros k Hk.
  unfold fill_na; rewrite fill_na_fold_get.
  replace (str_in k SCHEMA) with true by (symmetry; apply str_in_iff; exact Hk); cbn [andb].
  destruct (is_empty (py_strip (dict_get r k))) eqn:E; [exact blank_na|exact E].
Qed.

(** *** The region of a master file *)

Local Abbreviation mregion r := (py_strip (dict_get r (u "Region"))).

Lemma region_fold_spec : forall rows acc,
  NoDup acc -> (forall x, In x acc -> x <> []) ->
  let res := fold_left (fun acc r =>
                let v := mregion r in
                if is_empty v || str_in v acc then acc else acc ++ [v]) rows acc in
  NoDup res /\ (forall x, In x res <-> In x acc \/ (x <> [] /\ exists r, In r rows /\ mregion r = x)).
Proof.
  induction rows as [|r rows IH]; intros acc Hnd Hne; cbn [fold_left].
  - split; [exact Hnd|intros x; split; [left; exact H|intros [H|[_ [r [[] _]]]]; exact H]].
  - destruct (is_empty (mregion r) || str_in (mregion r) acc) eqn:E.
    + destruct (IH acc Hnd Hne) as [Hnd' Hin]; split; [exact Hnd'|intros x; rewrite Hin].
      split; [intros [H|[Hx [r' [Hr' Hv]]]]; [left; exact H|right; split; [exact Hx|exists r'; split; [right; exact Hr'|exact Hv]]]|].
      intros [H|[Hx [r' [[<-|Hr'] Hv]]]]; [left; exact H| |right; split; [exact Hx|exists r'; split; [exact Hr'|exact Hv]]].
      left; apply orb_true_iff in E as [E|E]; [subst x; destruct (mregion r); [contradiction|discriminate]|].
      rewrite <- Hv; apply str_in_iff; exact E.
    + apply orb_false_iff in E as [E1 E2].
      assert (Hnd2 : NoDup (acc ++ [mregion r])).
      { apply NoDup_app; [exact Hnd|constructor; [intros []|constructor]|].
        intros x Hx [<-|[]]; rewrite (proj2 (str_in_iff _ _) Hx) in E2; discriminate. }
      assert (Hne2 : forall x, In x (acc ++ [mregion r]) -> x <> []).
      { intros x Hx; apply in_app_or in Hx as [Hx|[<-|[]]]; [exact (Hne x Hx)|exact (not_empty_nil _ E1)]. }
      destruct (IH _ Hnd2 Hne2) as [Hnd' Hin]; split; [exact Hnd'|intros x; rewrite Hin].
      split.
      * intros [H|[Hx [r' [Hr' Hv]]]].
        -- apply in_app_or in H as [H|[<-|[]]]; [left; exact H|right; split; [exact (not_empty_nil _ E1)|exists r; split; [left; reflexivity|reflexivity]]].
        -- right; split; [exact Hx|exists r'; split; [right; exact Hr'|exact Hv]].
      * intros [H|[Hx [r' [[<-|Hr'] Hv]]]].
        -- left; apply in_or_app; left; exact H.
        -- left; apply in_or_app; right; left; exact Hv.
        -- right; split; [exact Hx|exists r'; split; [exact Hr'|exact Hv]].
Qed.

(** X12. For a non-empty [v], [_region_from_master] gives [v] exactly when
    some master row has the (stripped) Region [v] and every other row has
    a blank Region or the same one; two distinct regions give the empty
    string. *)
Theorem _region_from_master_spec : forall rows v, v <> [] ->
  (_region_from_master rows = v <->
   (exists r, In r rows /\ py_strip (dict_get r (u "Region")) = v)
   /\ forall r, In r rows -> py_strip (dict_get r (u "Region")) = [] \/ py_strip (dict_get r (u "Region")) = v).
Proof.
  intros rows v Hv; unfold _region_from_master.
  destruct (region_fold_spec rows [] (NoDup_nil _) (fun x (H : In x []) => False_ind _ H)) as [Hnd Hin].
  cbv zeta in Hnd, Hin.
  destruct (fold_left _ rows []) as [|a [|b l]] eqn:Ef.
  - split; [intros H; symmetry in H; contradiction|]. intros [[r [Hr Hrv]] _].
    destruct (proj2 (Hin v) (or_intror (conj Hv (ex_intro _ r (conj Hr Hrv))))).
  - split.
    + intros <-. destruct (proj1 (Hin a) (or_introl eq_refl)) as [[]|[Ha [r [Hr Hra]]]].
      split; [exists r; split; [exact Hr|exact Hra]|].
      intros r' Hr'. destruct (mregion r') as [|c s] eqn:Ec; [left; reflexivity|right].
      assert (Hcs : c :: s <> []) by discriminate.
      pose proof (ex_intro (fun r0 => In r0 rows /\ mregion r0 = c :: s) r' (conj Hr' Ec)) as Hex.
      destruct (proj2 (Hin (c :: s)) (or_intror (conj Hcs Hex))) as [E|[]].
      symmetry; exact E.
    + intros [[r [Hr Hrv]] _].
      destruct (proj2 (Hin v) (or_intror (conj Hv (ex_intro _ r (conj Hr Hrv))))) as [E|[]]; exact E.
  - split; [intros H; symmetry in H; contradiction|].
    intros [_ Hall]; exfalso.
    destruct (proj1 (Hin a) (or_introl eq_refl)) as [[]|[Ha [r [Hr Hra]]]].
    destruct (proj1 (Hin b) (or_intror (or_introl eq_refl))) as [[]|[Hb [r' [Hr' Hrb]]]].
    destruct (Hall r Hr) as [E|E]; [congruence|]. destruct (Hall r' Hr') as [E'|E']; [congruence|].
    inversion Hnd; subst. apply H1; left; congruence.
Qed.

(** *** [baseline_index] *)

Lemma baseline_fold_fst : forall ts n m,
  fst (fold_left (fun acc t => (fst acc + 1, dict_set (_norm_key t) (fst acc + 1) (snd acc))) ts (n, m))
  = n + Z.of_nat (List.length ts).
Proof.
  induction ts as [|t ts IH]; intros n m; cbn [fold_left List.length]; [simpl; lia|].
  rewrite IH; cbn [fst]; lia.
Qed.

Lemma baseline_index_snoc : forall ts t,
  baseline_index (ts ++ [t]) = dict_set (_norm_key t) (Z.of_nat (List.length ts) + 1) (baseline_index ts).
Proof.
  intros ts t; unfold baseline_index; rewrite fold_left_app; cbn [fold_left].
  pose proof (baseline_fold_fst ts 0 []) as H.
  destruct (fold_left _ ts (0, [])) as [n m]; cbn [fst snd] in *; rewrite H; reflexivity.
Qed.

(** X13. [baseline_index] maps a key to the 1-based position of the LAST
    baseline title with that key (a later duplicate overwrites an earlier
    one), and has no entry for a key no title has. *)
Theorem baseline_index_last : forall ts k,
  match assoc_get k (baseline_index ts) with
  | None => forall t, In t ts -> _norm_key t <> k
  | Some i => exists p, i = Z.of_nat (S p) /\ (p < List.length ts)%nat /\ _norm_key (nth p ts []) = k
              /\ forall j, (p < j < List.length ts)%nat -> _norm_key (nth j ts []) <> k
  end.
Proof.
  intros ts k; induction ts as [|t ts IH] using rev_ind; [intros t []|].
  rewrite baseline_index_snoc.
  destruct (str_eqb k (_norm_key t)) eqn:Ek.
  - apply str_eqb_eq in Ek; subst k; rewrite assoc_get_set_same.
    exists (List.length ts); split; [lia|split; [rewrite length_app; simpl; lia|split]].
    + rewrite app_nth2 by lia; rewrite Nat.sub_diag; reflexivity.
    + intros j Hj; rewrite length_app in Hj; simpl in Hj; lia.
  - rewrite assoc_get_set_other by exact Ek.
    destruct (assoc_get k (baseline_index ts)) as [i|].
    + destruct IH as [p [-> [Hp [Hk Hlast]]]]; exists p.
      split; [reflexivity|split; [rewrite length_app; simpl; lia|split]].
      * rewrite app_nth1 by lia; exact Hk.
      * intros j Hj; rewrite length_app in Hj; simpl in Hj.
        destruct (Nat.eq_dec j (List.length ts)) as [->|Hne].
        -- rewrite app_nth2 by lia; rewrite Nat.sub_diag; cbn [nth].
           intros E; rewrite E, str_eqb_refl in Ek; discriminate.
        -- rewrite app_nth1 by lia; apply Hlast; lia.
    + intros t' Ht'; apply in_app_or in Ht' as [Ht'|[<-|[]]]; [exact (IH t' Ht')|].
      intros E; rewrite E, str_eqb_refl in Ek; discriminate.
Qed.

(** *** The run-to-run comparison *)

Section CompareMore.
Variable token_set_ratio : pystr -> pystr -> Q.

Local Abbreviation flag_mono := (fun a b : row * bool => snd a = true -> snd b = true).

Lemma mark_matched_keep : forall j olds,
  map fst (mark_matched j olds) = map fst olds /\ Forall2 flag_mono olds (mark_matched j olds).
Proof.
  induction j as [|j IH]; intros [|[o b] olds]; cbn [mark_matched map fst].
  - split; constructor.
  - split; [reflexivity|constructor; [intros _; reflexivity|]].
    clear; induction olds; constructor; [exact (fun H => H)|exact IHolds].
  - split; constructor.
  - destruct (IH olds) as [H1 H2]; rewrite H1; split; [reflexivity|constructor; [exact (fun H => H)|exact H2]].
Qed.

Lemma forall2_flag_refl : forall l, Forall2 flag_mono l l.
Proof. induction l; constructor; [exact (fun H => H)|exact IHl]. Qed.

Lemma forall2_flag_trans : forall a b c, Forall2 flag_mono a b -> Forall2 flag_mono b c -> Forall2 flag_mono a c.
Proof.
  intros a b c H1; revert c; induction H1 as [|x y l l' Hxy H1 IH]; intros c H2;
    inversion H2 as [|y' z m m' Hyz H3]; subst; constructor; [|apply IH; exact H3].
  intros Hx; apply Hyz, Hxy, Hx.
Qed.

Lemma compare_step_keep : forall nl olds n_row olds' out,
  compare_step token_set_ratio nl olds n_row = Some (olds', out) ->
  map fst olds' = map fst olds /\ Forall2 flag_mono olds olds'.
Proof.
  intros nl olds n_row olds' out H; unfold compare_step in H; cbv zeta in H.
  destruct (best_match token_set_ratio _ olds) as [bm bs].
  destruct (qltb 90 bs); [|destruct (Qle_bool 50 bs && Qle_bool bs 90)].
  - destruct bm as [[j o]|]; [|discriminate]; injection H as <- _; apply mark_matched_keep.
  - destruct bm as [[j o]|]; [|discriminate]; injection H as <- _; apply mark_matched_keep.
  - injection H as <- _; split; [reflexivity|apply forall2_flag_refl].
Qed.

(** X14. The comparison loop never changes the old rows themselves: only
    their [_matched] flags, and a flag once set stays set. *)
Theorem compare_loop_keeps_old_rows : forall nl olds new_rows acc olds' outs,
  compare_loop token_set_ratio nl olds new_rows acc = Some (olds', outs) ->
  map fst olds' = map fst olds /\ Forall2 (fun a b => snd a = true -> snd b = true) olds olds'.
Proof.
  intros nl olds new_rows; revert olds; induction new_rows as [|n_row new_rows IH];
    intros olds acc olds' outs H; cbn [compare_loop] in H.
  - injection H as <- _; split; [reflexivity|apply forall2_flag_refl].
  - destruct (compare_step token_set_ratio nl olds n_row) as [[o1 out]|] eqn:Es; [|discriminate].
    destruct (compare_step_keep _ _ _ _ _ Es) as [H1 H2].
    destruct (IH _ _ _ _ H) as [H3 H4]; split; [congruence|exact (forall2_flag_trans _ _ _ H2 H4)].
Qed.

Lemma compare_loop_no_old : forall nl new_rows acc,
  compare_loop token_set_ratio nl [] new_rows acc
  = Some ([], acc ++ map (fun n => fill_na (dict_set (u "Notes") (u "NEW" ++ NOTE_DASH ++ u "from " ++ nl)
                                   (dict_set (u "Category") (u "New") n))) new_rows).
Proof.
  intros nl new_rows; induction new_rows as [|n new_rows IH]; intros acc; cbn [compare_loop map].
  - rewrite app_nil_r; reflexivity.
  - unfold compare_step; cbv zeta.
    replace (best_match token_set_ratio (_norm_text (dict_get n (u "Production Name"))) []) with
      (@None (nat * row), 0%Q) by reflexivity.
    cbn [snd fst]. replace (qltb 90 0) with false by reflexivity.
    replace (Qle_bool 50 0 && Qle_bool 0 90) with false by reflexivity.
    rewrite IH, <- app_assoc; reflexivity.
Qed.

(** X15. Against an empty old run every new row is reported as New, in
    order, and nothing is Removed. *)
Theorem compare_rows_no_old : forall new_rows old_label new_label,
  compare_rows token_set_ratio [] new_rows old_label new_label
  = Some (map (fun n => fill_na (dict_set (u "Notes") (u "NEW" ++ NOTE_DASH ++ u "from " ++ new_label)
                                   (dict_set (u "Category") (u "New") n))) new_rows).
Proof.
  intros new_rows old_label new_label; unfold compare_rows; cbn [map].
  rewrite compare_loop_no_old; cbn [flat_map app]; rewrite app_nil_r; reflexivity.
Qed.

(** X16. With no new rows every old row is reported as Removed, in order. *)
Theorem compare_rows_no_new : forall old_rows old_label new_label,
  compare_rows token_set_ratio old_rows [] old_label new_label
  = Some (map (fun o => fill_na (dict_set (u "Notes") (u "REMOVED" ++ NOTE_DASH ++ u "from " ++ old_label)
                                   (dict_set (u "Category") (u "Removed") o))) old_rows).
Proof.
  intros old_rows old_label new_label; unfold compare_rows; cbn [compare_loop app].
  f_equal; induction old_rows as [|o old_rows IH]; [reflexivity|]; cbn [map flat_map snd fst app].
  rewrite IH; reflexivity.
Qed.

Local Abbreviation cat_ok new_label old_label o :=
  ((dict_get o (u "Category") = u "New" /\ dict_get o (u "Notes") = u "NEW" ++ NOTE_DASH ++ u "from " ++ new_label)
   \/ (dict_get o (u "Category") = u "Removed"
       /\ dict_get o (u "Notes") = u "REMOVED" ++ NOTE_DASH ++ u "from " ++ old_label)
   \/ (dict_get o (u "Category") = u "Updated" /\ exists rest, dict_get o (u "Notes") = u "UPDATED (" ++ rest)).


Lemma compare_step_cat : forall nl ol olds n_row olds' out,
  compare_step token_set_ratio nl olds n_row = Some (olds', out) ->
  forall o, In o out -> cat_ok nl ol o.
Proof.
  intros nl ol olds n_row olds' out H o Ho.
  unfold compare_step in H; cbv zeta in H.
  destruct (best_match token_set_ratio _ olds) as [bm bs].
  destruct (qltb 90 bs); [|destruct (Qle_bool 50 bs && Qle_bool bs 90)].
  - destruct bm as [[j o0]|]; [|discriminate]; injection H as _ <-.
    destruct (_changed_fields o0 n_row) as [|f fs]; [destruct Ho|]; destruct Ho as [<-|[]].
    right; right; split.
    + rewrite fill_na_keep; [rewrite dict_get_set_other by reflexivity; apply dict_get_set_same|].
      rewrite dict_get_set_other, dict_get_set_same by reflexivity; apply strip_nonempty; reflexivity.
    + eexists; rewrite fill_na_keep; [apply dict_get_set_same|].
      rewrite dict_get_set_same; apply strip_nonempty; reflexivity.
  - destruct bm as [[j o0]|]; [|discriminate]; injection H as _ <-; destruct Ho as [<-|[]].
    right; right; split.
    + rewrite fill_na_keep; [rewrite dict_get_set_other by reflexivity; apply dict_get_set_same|].
      rewrite dict_get_set_other, dict_get_set_same by reflexivity; apply strip_nonempty; reflexivity.
    + exists (u "Name changed from '" ++ dict_get o0 (u "Production Name") ++ u "' to '"
              ++ dict_get n_row (u "Production Name") ++ u "')").
      rewrite fill_na_keep; [rewrite dict_get_set_same|].
      * change (u "UPDATED (Name changed from '") with (u "UPDATED (" ++ u "Name changed from '").
        reflexivity.
      * rewrite dict_get_set_same; apply strip_nonempty; reflexivity.
  - injection H as _ <-; destruct Ho as [<-|[]]; left; split.
    + rewrite fill_na_keep; [rewrite dict_get_set_other by reflexivity; apply dict_get_set_same|].
      rewrite dict_get_set_other, dict_get_set_same by reflexivity; apply strip_nonempty; reflexivity.
    + rewrite fill_na_keep; [apply dict_get_set_same|].
      rewrite dict_get_set_same; apply strip_nonempty; reflexivity.
Qed.

Lemma compare_loop_cat : forall nl ol new_rows olds acc olds' outs,
  compare_loop token_set_ratio nl olds new_rows acc = Some (olds', outs) ->
  (forall o, In o acc -> cat_ok nl ol o) -> forall o, In o outs -> cat_ok nl ol o.
Proof.
  intros nl ol new_rows; induction new_rows as [|n_row new_rows IH];
    intros olds acc olds' outs H Hacc; cbn [compare_loop] in H.
  - injection H as _ <-; exact Hacc.
  - destruct (compare_step token_set_ratio nl olds n_row) as [[olds1 out]|] eqn:Es; [|discriminate].
    apply (IH _ _ _ _ H); intros o Ho; apply in_app_or in Ho as [Ho|Ho]; [exact (Hacc o Ho)|].
    exact (compare_step_cat _ ol _ _ _ _ Es o Ho).
Qed.

(** X17. Every row of the run-to-run comparison has one of the Categories
    New, Removed or Updated, and its Notes agree with it: "NEW – from
    <new label>", "REMOVED – from <old label>", or a note starting with
    "UPDATED (". *)
Theorem compare_rows_category : forall old_rows new_rows old_label new_label outs,
  compare_rows token_set_ratio old_rows new_rows old_label new_label = Some outs ->
  forall o, In o outs ->
  (dict_get o (u "Category") = u "New" /\ dict_get o (u "Notes") = u "NEW" ++ NOTE_DASH ++ u "from " ++ new_label)
  \/ (dict_get o (u "Category") = u "Removed"
      /\ dict_get o (u "Notes") = u "REMOVED" ++ NOTE_DASH ++ u "from " ++ old_label)
  \/ (dict_get o (u "Category") = u "Updated" /\ exists rest, dict_get o (u "Notes") = u "UPDATED (" ++ rest).
Proof.
  intros old_rows new_rows old_label new_label outs H o Ho; unfold compare_rows in H.
  destruct (compare_loop token_set_ratio new_label (map (fun o => (o, false)) old_rows) new_rows [])
    as [[olds out_rows]|] eqn:El; [|discriminate].
  injection H as <-; apply in_app_or in Ho as [Ho|Ho].
  - exact (compare_loop_cat _ old_label _ _ _ _ _ El (fun o (H : In o []) => False_ind _ H) o Ho).
  - apply in_flat_map in Ho as [[o_row matched] [_ Ho]]; cbn [snd fst] in Ho.
    destruct matched; [destruct Ho|]; destruct Ho as [<-|[]].
    right; left; split.
    + rewrite fill_na_keep; [rewrite dict_get_set_other by reflexivity; apply dict_get_set_same|].
      rewrite dict_get_set_other, dict_get_set_same by reflexivity; apply strip_nonempty; reflexivity.
    + rewrite fill_na_keep; [apply dict_get_set_same|].
      rewrite dict_get_set_same; apply strip_nonempty; reflexivity.
Qed.

End CompareMore.

(** *** The Notes of the run-to-run comparison rows *)

Local Abbreviation new_out nl n :=
  (fill_na (dict_set (u "Notes") (u "NEW" ++ NOTE_DASH ++ u "from " ++ nl) (dict_set (u "Category") (u "New") n))).
Local Abbreviation upd_out r n :=
  (fill_na (dict_set (u "Notes") (u "UPDATED (" ++ py_join (u ", ") (_changed_fields r n%list) ++ u ")")
              (dict_set (u "Category") (u "Updated") n))).
Local Abbreviation ren_out r n :=
  (fill_na (dict_set (u "Notes")
              (u "UPDATED (Name changed from '" ++ dict_get r (u "Production Name") ++ u "' to '"
                 ++ dict_get n%list (u "Production Name") ++ u "')")
              (dict_set (u "Category") (u "Updated") n))).
Local Abbreviation step_origin R nl n o :=
  (o = new_out nl n
   \/ (exists r, In r R /\ _changed_fields r n%list <> [] /\ o = upd_out r n)
   \/ (exists r, In r R /\ o = ren_out r n)).

Lemma notes_of_fill : forall v r, py_strip v <> [] -> dict_get (fill_na (dict_set (u "Notes") v r)) (u "Notes") = v.
Proof. intros v r H; rewrite fill_na_keep; rewrite dict_get_set_same; [reflexivity|exact H]. Qed.

Section NotesProofs.
Variable token_set_ratio : pystr -> pystr -> Q.

Lemma compare_step_origin : forall nl olds n_row olds' out,
  compare_step token_set_ratio nl olds n_row = Some (olds', out) ->
  forall o, In o out -> step_origin (map fst olds) nl n_row o.
Proof.
  intros nl olds n_row olds' out H o Ho.
  unfold compare_step in H; cbv zeta in H.
  destruct (best_match token_set_ratio _ olds) as [bm bs] eqn:Eb.
  destruct (best_match_spec token_set_ratio _ _ _ _ Eb) as [_ Hbm].
  assert (Hold : forall j o0, bm = Some (j, o0) -> In o0 (map fst olds)).
  { intros j o0 ->; destruct Hbm as [[Hn _]|[j' [o1 [Heq [Hj _]]]]]; [discriminate|].
    injection Heq as <- <-; apply in_map_iff; exists (o0, false); split; [reflexivity|].
    exact (nth_error_In _ _ Hj). }
  destruct (qltb 90 bs).
  - destruct bm as [[j o0]|]; [|discriminate]; injection H as _ <-.
    destruct (_changed_fields o0 n_row) as [|f fs] eqn:Ed; [destruct Ho|]; destruct Ho as [<-|[]].
    right; left; exists o0; split; [exact (Hold j o0 eq_refl)|split; [rewrite Ed; discriminate|]].
    rewrite Ed; reflexivity.
  - destruct (Qle_bool 50 bs && Qle_bool bs 90).
    + destruct bm as [[j o0]|]; [|discriminate]; injection H as _ <-; destruct Ho as [<-|[]].
      right; right; exists o0; split; [exact (Hold j o0 eq_refl)|reflexivity].
    + injection H as _ <-; destruct Ho as [<-|[]]; left; reflexivity.
Qed.

Lemma compare_loop_origin : forall nl new_rows olds acc olds' outs,
  compare_loop token_set_ratio nl olds new_rows acc = Some (olds', outs) ->
  map fst olds' = map fst olds
  /\ forall o, In o outs -> In o acc \/ exists n, In n new_rows /\ step_origin (map fst olds) nl n o.
Proof.
  intros nl new_rows; induction new_rows as [|n_row new_rows IH];
    intros olds acc olds' outs H; cbn [compare_loop] in H.
  - injection H as <- <-; split; [reflexivity|intros o Ho; left; exact Ho].
  - destruct (compare_step token_set_ratio nl olds n_row) as [[olds1 out]|] eqn:Es; [|discriminate].
    destruct (compare_step_keep token_set_ratio _ _ _ _ _ Es) as [Hk _].
    destruct (IH _ _ _ _ H) as [Hk' Ho]; split; [congruence|].
    intros o Hin; destruct (Ho o Hin) as [Hacc|[n [Hn Hor]]].
    + apply in_app_or in Hacc as [Hacc|Hout]; [left; exact Hacc|right].
      exists n_row; split; [left; reflexivity|exact (compare_step_origin _ _ _ _ _ Es o Hout)].
    + right; exists n; split; [right; exact Hn|rewrite <- Hk; exact Hor].
Qed.

End NotesProofs.

(** C2 (amended). Every row of a run-to-run comparison comes from the
    input rows, and its Notes carry no ordinal: a New row is a new row
    with the note "NEW – from <new label>"; a Removed row is an old row
    with "REMOVED – from <old label>"; an Updated row is a new row whose
    note lists the fields [_changed_fields] finds between it and an old
    row, or names that old row's title and its own. *)
Theorem reconciliation_notes : forall token_set_ratio old_rows new_rows old_label new_label outs,
  compare_rows token_set_ratio old_rows new_rows old_label new_label = Some outs ->
  forall o, In o outs ->
    (exists n_row, In n_row new_rows
       /\ o = fill_na (dict_set (u "Notes") (u "NEW" ++ NOTE_DASH ++ u "from " ++ new_label)
                        (dict_set (u "Category") (u "New") n_row))
       /\ dict_get o (u "Notes") = u "NEW" ++ NOTE_DASH ++ u "from " ++ new_label)
    \/ (exists o_row, In o_row old_rows
       /\ o = fill_na (dict_set (u "Notes") (u "REMOVED" ++ NOTE_DASH ++ u "from " ++ old_label)
                        (dict_set (u "Category") (u "Removed") o_row))
       /\ dict_get o (u "Notes") = u "REMOVED" ++ NOTE_DASH ++ u "from " ++ old_label)
    \/ (exists o_row n_row, In o_row old_rows /\ In n_row new_rows /\ _changed_fields o_row n_row <> []
       /\ o = fill_na (dict_set (u "Notes") (u "UPDATED (" ++ py_join (u ", ") (_changed_fields o_row n_row) ++ u ")")
                        (dict_set (u "Category") (u "Updated") n_row))
       /\ dict_get o (u "Notes") = u "UPDATED (" ++ py_join (u ", ") (_changed_fields o_row n_row) ++ u ")")
    \/ (exists o_row n_row, In o_row old_rows /\ In n_row new_rows
       /\ o = fill_na (dict_set (u "Notes")
                        (u "UPDATED (Name changed from '" ++ dict_get o_row (u "Production Name") ++ u "' to '"
                           ++ dict_get n_row (u "Production Name") ++ u "')")
                        (dict_set (u "Category") (u "Updated") n_row))
       /\ dict_get o (u "Notes")
          = u "UPDATED (Name changed from '" ++ dict_get o_row (u "Production Name") ++ u "' to '"
              ++ dict_get n_row (u "Production Name") ++ u "')").
Proof.
  intros token_set_ratio old_rows new_rows old_label new_label outs H o Ho; unfold compare_rows in H.
  destruct (compare_loop token_set_ratio new_label (map (fun o => (o, false)) old_rows) new_rows [])
    as [[olds out_rows]|] eqn:El; [|discriminate].
  destruct (compare_loop_origin _ _ _ _ _ _ _ El) as [Hk Hor].
  assert (Hfst : map fst (map (fun o : row => (o, false)) old_rows) = old_rows)
    by (rewrite map_map; apply map_id).
  rewrite Hfst in Hk, Hor.
  injection H as <-; apply in_app_or in Ho as [Ho|Ho].
  - destruct (Hor o Ho) as [[]|[n [Hn [->|[[r [Hr [Hd ->]]]|[r [Hr ->]]]]]]].
    + left; exists n; split; [exact Hn|split; [reflexivity|apply notes_of_fill; apply strip_nonempty; reflexivity]].
    + right; right; left; exists r, n; split; [exact Hr|split; [exact Hn|split; [exact Hd|split; [reflexivity|]]]].
      apply notes_of_fill; apply strip_nonempty; reflexivity.
    + right; right; right; exists r, n; split; [exact Hr|split; [exact Hn|split; [reflexivity|]]].
      apply notes_of_fill; apply strip_nonempty; reflexivity.
  - apply in_flat_map in Ho as [[o_row matched] [Hp Ho]]; cbn [snd fst] in Ho.
    destruct matched; [destruct Ho|]; destruct Ho as [<-|[]].
    right; left; exists o_row; split; [|split; [reflexivity|apply notes_of_fill; apply strip_nonempty; reflexivity]].
    rewrite <- Hk; apply in_map_iff; exists (o_row, false); split; [reflexivity|exact Hp].
Qed.

(** *** Duplicate titles: the counts of [_collapse_dupes] *)

Local Abbreviation collapse_cnt rows := (List.length (filter (fun r => negb (is_empty (ckey r))) rows)).

Lemma collapse_count_step : forall order best dupes a n,
  NoDup order -> (forall k, In k order <-> assoc_get k best <> None) ->
  (List.length order + List.length dupes = n)%nat ->
  let '(order', best', dupes') := collapse_step (order, best, dupes) a in
  NoDup order' /\ (forall k, In k order' <-> assoc_get k best' <> None)
  /\ (List.length order' + List.length dupes' = n + (if is_empty (ckey a) then 0 else 1))%nat.
Proof.
  intros order best dupes a n Hnd Hin Hn; unfold collapse_step.
  destruct (is_empty (ckey a)) eqn:Ee.
  - split; [exact Hnd|split; [exact Hin|lia]].
  - destruct (assoc_get (ckey a) best) as [b0|] eqn:Eb.
    + split; [exact Hnd|split; [|rewrite length_app; simpl; lia]].
      intros k; rewrite Hin.
      destruct (collapse_score b0 <? collapse_score a)%Z; [|reflexivity].
      destruct (str_eqb k (ckey a)) eqn:E.
      * apply str_eqb_eq in E; subst k; rewrite Eb, assoc_get_set_same; split; discriminate.
      * rewrite assoc_get_set_other by exact E; reflexivity.
    + split; [|split; [|rewrite length_app; simpl; lia]].
      * apply NoDup_app; [exact Hnd|constructor; [intros []|constructor]|].
        intros x Hx [<-|[]]; apply Hin in Hx; contradiction.
      * intros k; rewrite in_app_iff; cbn [In].
        destruct (str_eqb k (ckey a)) eqn:E.
        -- apply str_eqb_eq in E; subst k; rewrite assoc_get_set_same.
           split; [discriminate|intros _; right; left; reflexivity].
        -- rewrite assoc_get_set_other by exact E; rewrite <- Hin.
           split; [intros [H|[H|[]]]; [exact H|subst k; rewrite str_eqb_refl in E; discriminate]|tauto].
Qed.

Lemma collapse_count_fold : forall rows order best dupes,
  NoDup order -> (forall k, In k order <-> assoc_get k best <> None) ->
  let '(order', best', dupes') := fold_left collapse_step rows (order, best, dupes) in
  NoDup order' /\ (forall k, In k order' <-> assoc_get k best' <> None)
  /\ (List.length order' + List.length dupes' = List.length order + List.length dupes + collapse_cnt rows)%nat.
Proof.
  induction rows as [|a rows IH]; intros order best dupes Hnd Hin; cbn [fold_left filter].
  - split; [exact Hnd|split; [exact Hin|cbn [List.length]; lia]].
  - pose proof (collapse_count_step order best dupes a _ Hnd Hin eq_refl) as Hs.
    destruct (collapse_step (order, best, dupes) a) as [[o' b'] d'].
    destruct Hs as [Hnd' [Hin' Hn']].
    specialize (IH o' b' d' Hnd' Hin').
    destruct (fold_left collapse_step rows (o', b', d')) as [[o'' b''] d''].
    destruct IH as [H1 [H2 H3]]; split; [exact H1|split; [exact H2|]].
    rewrite H3, Hn'; destruct (is_empty (ckey a)); cbn [negb List.length]; lia.
Qed.

Lemma flat_map_order_keys : forall (best : list (pystr * row)) order,
  (forall k, In k order -> assoc_get k best <> None) ->
  map fst (flat_map (fun k => match assoc_get k best with Some r => [(k, r)] | None => [] end) order) = order.
Proof.
  intros best; induction order as [|k order IH]; intros H; [reflexivity|].
  cbn [flat_map]; destruct (assoc_get k best) eqn:E.
  - cbn [app map fst]; f_equal; apply IH; intros k' Hk'; apply H; right; exact Hk'.
  - exfalso; apply (H k); [left; reflexivity|exact E].
Qed.

(** X18. [_collapse_dupes] keeps one record per key, in first-seen order,
    and reports every other record with a non-empty key as a duplicate:
    the kept keys are distinct and the kept records plus the reported
    duplicates are exactly the records whose title has a non-empty key. *)
Theorem _collapse_dupes_counts : forall rows,
  NoDup (map fst (fst (_collapse_dupes rows)))
  /\ (List.length (fst (_collapse_dupes rows)) + List.length (snd (_collapse_dupes rows))
      = List.length (filter (fun r => negb (is_empty (_norm_key (dict_get r (u "Production Name"))))) rows))%nat.
Proof.
  intros rows; unfold _collapse_dupes.
  assert (H0 : forall k, In k [] <-> assoc_get k (@nil (pystr * row)) <> None)
    by (intros k; split; [intros []|intros H; exfalso; apply H; reflexivity]).
  pose proof (collapse_count_fold rows [] [] [] (NoDup_nil _) H0) as Hf.
  destruct (fold_left collapse_step rows ([], [], [])) as [[order best] dupes].
  destruct Hf as [Hnd [Hin Hn]]; cbn [fst snd].
  assert (Hk : forall k, In k order -> assoc_get k best <> None) by (intros k; apply Hin).
  rewrite flat_map_order_keys by exact Hk; split; [exact Hnd|].
  rewrite <- (length_map fst), flat_map_order_keys by exact Hk; cbn [List.length] in Hn; lia.
Qed.

(** *** Region buckets *)

Lemma region_bucket_in : forall city region country,
  In (region_bucket city region country) (map fst REGION_FILE_MAP).
Proof.
  intros city region country; apply str_in_iff; unfold region_bucket; cbv zeta.
  repeat match goal with |- context [if ?b then _ else _] => destruct b end; reflexivity.
Qed.

(** X19. [region_bucket] always returns one of the eight report buckets,
    the keys of [REGION_FILE_MAP], so the lookup of its result in that map
    never falls back to the default. *)
Theorem region_bucket_file_key : forall city region country,
  In (region_bucket city region country)
     (map u ["United States"; "Quebec"; "West Coast Canada"; "East Coast Canada"; "Ireland/Hungary";
             "Australia/New Zealand"; "Europe/Other"; "Other"]%string)
  /\ assoc_get (region_bucket city region country) REGION_FILE_MAP <> None.
Proof.
  intros city region country; split; [exact (region_bucket_in city region country)|].
  pose proof (region_bucket_in city region country) as H.
  generalize dependent (region_bucket city region country); intros b Hb.
  induction REGION_FILE_MAP as [|[k v] l IH]; [destruct Hb|].
  destruct Hb as [Hb|Hb]; cbn [fst] in Hb; cbn [assoc_get].
  - subst k; rewrite str_eqb_refl; discriminate.
  - destruct (str_eqb b k); [discriminate|exact (IH Hb)].
Qed.

Section MasterMore.
Variable detect_prod_co : row -> pystr.

Lemma to_master_row_cat_bucket : forall X il o, to_master_row detect_prod_co X il = Some o ->
  dict_get o (u "Category") = dict_get X (u "Category")
  /\ dict_get o (u "Region Bucket")
     = region_bucket (dict_get X (u "City")) (dict_get X (u "Province/State")) (dict_get X (u "Country")).
Proof.
  intros X il o H; unfold to_master_row in H.
  destruct (_ && _); [discriminate|]; injection H as <-; split; reflexivity.
Qed.

Ltac set_gets := repeat first [rewrite dict_get_set_same | rewrite dict_get_set_other by reflexivity].

Local Abbreviation master_cat o :=
  (dict_get o (u "Category") = u "Updated vs Master" \/ dict_get o (u "Category") = u "New to Master").
Local Abbreviation wbucket w :=
  (region_bucket (dict_get w (u "City")) (dict_get w (u "Province/State")) (dict_get w (u "Country"))).

Lemma master_compare_one_cat : forall m_map bidx wl reg k w rs,
  master_compare_one detect_prod_co m_map bidx wl reg k w = Some rs ->
  forall o, In o rs -> master_cat o /\ dict_get o (u "Region Bucket") = wbucket w.
Proof.
  intros m_map bidx wl reg k w rs H o Ho.
  unfold master_compare_one, _weekly_to_master_projection in H; cbv zeta in H.
  destruct (assoc_get k m_map) as [mr|].
  - destruct (_changed_vs_master mr w) as [|d ds]; [injection H as <-; destruct Ho|].
    match type of H with context [match ?E with (_, _) => _ end] => destruct E as [ms ws] end.
    match type of H with option_map _ (to_master_row _ ?X ?il) = _ =>
      destruct (to_master_row detect_prod_co X il) as [o'|] eqn:Et; [|discriminate];
      injection H as <-; destruct Ho as [<-|[]];
      destruct (to_master_row_cat_bucket _ _ _ Et) as [Hc Hb]; rewrite Hc, Hb end.
    repeat match goal with |- context [if ?b then _ else _] => destruct b end;
      set_gets; split; (left; reflexivity) || reflexivity.
  - match type of H with option_map _ (to_master_row _ ?X ?il) = _ =>
      destruct (to_master_row detect_prod_co X il) as [o'|] eqn:Et; [|discriminate];
      injection H as <-; destruct Ho as [<-|[]];
      destruct (to_master_row_cat_bucket _ _ _ Et) as [Hc Hb]; rewrite Hc, Hb end.
    set_gets; split; [right; reflexivity|reflexivity].
Qed.

Lemma master_compare_loop_cat : forall m_map bidx wl reg w_map outs,
  master_compare_loop detect_prod_co m_map bidx wl reg w_map = Some outs ->
  forall o, In o outs -> exists k w, In (k, w) w_map /\ master_cat o /\ dict_get o (u "Region Bucket") = wbucket w.
Proof.
  intros m_map bidx wl reg w_map; induction w_map as [|[k w] w_map IH]; intros outs H o Ho;
    cbn [master_compare_loop] in H.
  - injection H as <-; destruct Ho.
  - unfold opt_bind in H.
    destruct (master_compare_one detect_prod_co m_map bidx wl reg k w) as [rs|] eqn:E1; [|discriminate].
    destruct (master_compare_loop detect_prod_co m_map bidx wl reg w_map) as [rest|]; [|discriminate].
    cbn [option_map] in H; injection H as <-.
    apply in_app_or in Ho as [Ho|Ho].
    + exists k, w; split; [left; reflexivity|exact (master_compare_one_cat _ _ _ _ _ _ _ E1 o Ho)].
    + destruct (IH rest eq_refl o Ho) as [k' [w' [Hin Hc]]].
      exists k', w'; split; [right; exact Hin|exact Hc].
Qed.

(** X20. Every row of the master comparison is categorised "Updated vs
    Master" or "New to Master", and when a region is in force (the one
    given, or else the single region of the master file) its Region Bucket
    is that region. *)
Theorem master_compare_rows_category_bucket : forall master_rows weekly_rows base_titles weekly_label region outs,
  master_compare_rows detect_prod_co master_rows weekly_rows base_titles weekly_label region = Some outs ->
  forall o, In o outs ->
  (dict_get o (u "Category") = u "Updated vs Master" \/ dict_get o (u "Category") = u "New to Master")
  /\ (let region' := if is_empty region then _region_from_master master_rows else region in
      region' <> [] -> dict_get o (u "Region Bucket") = region').
Proof.
  intros master_rows weekly_rows base_titles weekly_label region outs H o Ho.
  unfold master_compare_rows in H; cbv zeta in H |- *.
  destruct (master_compare_loop_cat _ _ _ _ _ _ H o Ho) as [k [w [Hin [Hc Hb]]]].
  split; [exact Hc|intros Hr].
  unfold build_key_map in Hin; apply build_key_map_fold_entries in Hin as [[]|[Hw _]].
  apply filter_In in Hw as [_ Hw].
  destruct (is_empty (if is_empty region then _region_from_master master_rows else region)) eqn:Ee.
  - exfalso; apply Hr; destruct (if is_empty region then _region_from_master master_rows else region);
      [reflexivity|discriminate].
  - apply str_eqb_eq in Hw; rewrite Hb; exact Hw.
Qed.

(** X21. A region in force that is not one of the report buckets matches no
    weekly row: the master comparison is then empty. *)
Theorem master_compare_unknown_region : forall master_rows weekly_rows base_titles weekly_label region,
  let region' := if is_empty region then _region_from_master master_rows else region in
  region' <> [] -> ~ In region' (map fst REGION_FILE_MAP) ->
  master_compare_rows detect_prod_co master_rows weekly_rows base_titles weekly_label region = Some [].
Proof.
  intros master_rows weekly_rows base_titles weekly_label region region' Hne Hout.
  unfold master_compare_rows; cbv zeta; fold region'.
  destruct (is_empty region') eqn:Ee; [exfalso; apply Hne; destruct region'; [reflexivity|discriminate]|].
  rewrite filter_all_false; [reflexivity|].
  intros r; apply str_eqb_neq; intros E; apply Hout; rewrite <- E; apply region_bucket_in.
Qed.

End MasterMore.

(** *** Table lookups that are idempotent *)

Lemma assoc_get_in_snd {V} : forall k (l : list (pystr * V)) v, assoc_get k l = Some v -> In v (map snd l).
Proof.
  intros k l v; induction l as [|[k' v'] l IH]; cbn [assoc_get map snd]; [discriminate|].
  destruct (str_eqb k k'); [intros H; injection H as <-; left; reflexivity|intros H; right; exact (IH H)].
Qed.

Lemma fixed_values (f : pystr -> pystr) (l : list (pystr * pystr)) :
  forallb (fun v => str_eqb (f v) v) (map snd l) = true -> forall v, In v (map snd l) -> f v = v.
Proof.
  intros H v Hv; rewrite forallb_forall in H; apply str_eqb_eq, H, Hv.
Qed.

Lemma idem_of_cases : forall (f : pystr -> pystr) (P : pystr -> Prop),
  (forall v, P v -> f v = v) -> (forall s, f s = s \/ P (f s)) -> forall s, f (f s) = f s.
Proof.
  intros f P Hfix Hc s; destruct (Hc s) as [E|E]; [rewrite E; rewrite E; reflexivity|exact (Hfix _ E)].
Qed.

Lemma canon_header_cases : forall name,
  _canon_header name = name \/ In (_canon_header name) (map snd _MASTER_ALIASES).
Proof.
  intros name; unfold _canon_header.
  destruct (assoc_get (py_lower (py_strip name)) _MASTER_ALIASES) eqn:E;
    [right; exact (assoc_get_in_snd _ _ _ E)|left; reflexivity].
Qed.

Lemma canon_header_fixed : forall v, In v (map snd _MASTER_ALIASES) -> _canon_header v = v.
Proof. apply fixed_values; vm_compute; reflexivity. Qed.

Lemma canon_header_idem : forall name, _canon_header (_canon_header name) = _canon_header name.
Proof. exact (idem_of_cases _ _ canon_header_fixed canon_header_cases). Qed.

(** X22. [_canon_header] is idempotent: a canonical header name (every
    value of [_MASTER_ALIASES], the empty one included) maps to itself. *)
Theorem _canon_header_idempotent : forall name,
  _canon_header (_canon_header name) = _canon_header name.
Proof. exact canon_header_idem. Qed.

Lemma fix_typos_cases : forall s,
  _fix_common_typos s = s \/ In (_fix_common_typos s) (map snd COMMON_FIXES).
Proof.
  intros [|c s]; [left; reflexivity|]; unfold _fix_common_typos.
  destruct (assoc_get (py_lower (py_strip (c :: s))) COMMON_FIXES) eqn:E;
    [right; exact (assoc_get_in_snd _ _ _ E)|left; reflexivity].
Qed.

(** X23. [_fix_common_typos] is idempotent: no corrected spelling is
    itself one of the known typos. *)
Theorem _fix_common_typos_idempotent : forall s,
  _fix_common_typos (_fix_common_typos s) = _fix_common_typos s.
Proof.
  apply (idem_of_cases _ _ (fixed_values _fix_common_typos COMMON_FIXES ltac:(vm_compute; reflexivity)) fix_typos_cases).
Qed.

Lemma as_country_cases : forall s,
  _as_country s = [] \/ In (_as_country s) (map snd COUNTRY_ALIASES).
Proof.
  intros s; unfold _as_country.
  destruct (assoc_get (py_lower (py_strip s)) COUNTRY_ALIASES) eqn:E;
    [right; exact (assoc_get_in_snd _ _ _ E)|left; reflexivity].
Qed.

(** X24. [_as_country] is idempotent: a canonical country name maps to
    itself, and the empty result (an unknown country) stays empty. *)
Theorem _as_country_idempotent : forall s, _as_country (_as_country s) = _as_country s.
Proof.
  intros s; destruct (as_country_cases s) as [E|E].
  - rewrite E; vm_compute; reflexivity.
  - apply (fixed_values _as_country COUNTRY_ALIASES ltac:(vm_compute; reflexivity)); exact E.
Qed.

(** *** [_looks_like_region_token] and [region_bucket] *)

Lemma table_in : forall (l : list (pystr * pystr)) (L : list pystr) k v,
  forallb (fun v => str_in v L) (map snd l) = true -> assoc_get k l = Some v -> In v L.
Proof.
  intros l L k v H E; rewrite forallb_forall in H; apply str_in_iff, H; exact (assoc_get_in_snd _ _ _ E).
Qed.

Lemma region_bucket_usa_any : forall city r, region_bucket city r (u "USA") = u "United States".
Proof.
  intros city r; unfold region_bucket; cbv zeta; rewrite region_bucket_country_usa; vm_compute; reflexivity.
Qed.

Lemma region_bucket_canada_any : forall city r,
  In (region_bucket city r (u "Canada")) (map u ["West Coast Canada"; "Quebec"; "East Coast Canada"]%string).
Proof.
  intros city r; unfold region_bucket; cbv zeta.
  replace (region_bucket_country (first_region_of r) (first_country_of (u "Canada"))) with (u "Canada")
    by (unfold region_bucket_country; vm_compute; reflexivity).
  rewrite str_eqb_refl; cbv beta iota; apply str_in_iff.
  destruct (str_eqb (first_region_of r) (u "BC")); [reflexivity|].
  destruct (str_eqb (first_region_of r) (u "QC")); reflexivity.
Qed.

Lemma region_bucket_australia_any : forall city r, region_bucket city r (u "Australia") = u "Australia/New Zealand".
Proof.
  intros city r; unfold region_bucket; cbv zeta.
  replace (region_bucket_country (first_region_of r) (first_country_of (u "Australia"))) with (u "Australia")
    by (unfold region_bucket_country; vm_compute; reflexivity).
  vm_compute; reflexivity.
Qed.

(** X25. [_looks_like_region_token] finds no region, or a region code of
    the United States, Canada or Australia with that country; fed back to
    [region_bucket] with any city, such a pair lands in "United States",
    one of the three Canadian buckets, or "Australia/New Zealand". *)
Theorem _looks_like_region_token_bucket : forall token city,
  let '(r, c) := _looks_like_region_token token in
  (r = [] /\ c = [])
  \/ (c = u "USA" /\ In r US_STATES /\ region_bucket city r c = u "United States")
  \/ (c = u "Canada" /\ In r CA_PROV
      /\ In (region_bucket city r c) (map u ["West Coast Canada"; "Quebec"; "East Coast Canada"]%string))
  \/ (c = u "Australia" /\ In r AU_STATES /\ region_bucket city r c = u "Australia/New Zealand").
Proof.
  intros [|x token] city; [left; split; reflexivity|]; unfold _looks_like_region_token; cbv zeta.
  destruct (str_in (py_upper (py_strip (x :: token))) US_STATES) eqn:E1.
  { right; left; split; [reflexivity|split; [apply str_in_iff; exact E1|apply region_bucket_usa_any]]. }
  destruct (str_in (py_upper (py_strip (x :: token))) CA_PROV) eqn:E2.
  { right; right; left; split; [reflexivity|split; [apply str_in_iff; exact E2|apply region_bucket_canada_any]]. }
  destruct (str_in (py_upper (py_strip (x :: token))) AU_STATES) eqn:E3.
  { right; right; right; split; [reflexivity|split; [apply str_in_iff; exact E3|apply region_bucket_australia_any]]. }
  destruct (assoc_get (py_lower (py_strip (x :: token))) FULL_STATE) as [v|] eqn:E4.
  { right; left; split; [reflexivity|split; [|apply region_bucket_usa_any]].
    exact (table_in FULL_STATE US_STATES _ _ ltac:(vm_compute; reflexivity) E4). }
  destruct (assoc_get (py_lower (py_strip (x :: token))) FULL_PROV) as [v|] eqn:E5.
  { right; right; left; split; [reflexivity|split; [|apply region_bucket_canada_any]].
    exact (table_in FULL_PROV CA_PROV _ _ ltac:(vm_compute; reflexivity) E5). }
  destruct (assoc_get (py_lower (py_strip (x :: token))) FULL_AU_STATE) as [v|] eqn:E6.
  { right; right; right; split; [reflexivity|split; [|apply region_bucket_australia_any]].
    exact (table_in FULL_AU_STATE AU_STATES _ _ ltac:(vm_compute; reflexivity) E6). }
  left; split; reflexivity.
Qed.

(** *** The records of [_read_master_rows] *)

Lemma dict_set_keys {V} : forall k (v : V) d k',
  In k' (map fst (dict_set k v d)) <-> In k' (map fst d) \/ k = k'.
Proof.
  intros k v d k'; induction d as [|[k0 v0] d IH]; cbn [dict_set map fst In].
  - tauto.
  - destruct (str_eqb k k0) eqn:E; cbn [map fst In].
    + apply str_eqb_eq in E; subst k0; tauto.
    + rewrite IH; tauto.
Qed.

Lemma dict_set_nodup {V} : forall k (v : V) d, NoDup (map fst d) -> NoDup (map fst (dict_set k v d)).
Proof.
  intros k v d; induction d as [|[k0 v0] d IH]; intros H; cbn [dict_set map fst].
  - constructor; [intros []|constructor].
  - inversion H as [|? ? Hn Hd]; subst.
    destruct (str_eqb k k0) eqn:E; cbn [map fst]; [exact H|].
    constructor; [|exact (IH Hd)].
    rewrite dict_set_keys; intros [Hx|Hx]; [exact (Hn Hx)|].
    subst k0; rewrite str_eqb_refl in E; discriminate.
Qed.

Lemma master_record_fold : forall (H : list pystr) (r : list pystr) (ps : list (nat * pystr)) (rec : row),
  (forall i h, In (i, h) ps -> In h H) ->
  NoDup (map fst rec) -> (forall k, In k (map fst rec) -> k <> [] /\ In k H) ->
  let res := fold_left (fun rec ih => let '(i, h) := ih in
                          if is_empty h then rec else dict_set h (nth i r []) rec) ps rec in
  NoDup (map fst res) /\ (forall k, In k (map fst res) -> k <> [] /\ In k H).
Proof.
  intros H r ps; induction ps as [|[i h] ps IH]; intros rec Hps Hnd Hk; cbn [fold_left].
  - split; assumption.
  - apply IH; [intros i' h' Hi; apply (Hps i' h'); right; exact Hi| |].
    + destruct (is_empty h); [exact Hnd|apply dict_set_nodup, Hnd].
    + destruct (is_empty h) eqn:Ee; [exact Hk|].
      intros k Hx; apply dict_set_keys in Hx as [Hx|<-]; [exact (Hk k Hx)|].
      split; [exact (not_empty_nil _ Ee)|apply (Hps i h); left; reflexivity].
Qed.

(** X26. Every record read from the master CSV has distinct, non-empty
    keys, each a canonical header name (fixed by [_canon_header]), and a
    non-blank Production Name. *)
Theorem _read_master_rows_records : forall rows rec, In rec (_read_master_rows rows) ->
  NoDup (map fst rec)
  /\ (forall k, In k (map fst rec) -> k <> [] /\ _canon_header k = k)
  /\ py_strip (dict_get rec (u "Production Name")) <> [].
Proof.
  intros [|row0 rows] rec Hin; [destruct Hin|]; unfold _read_master_rows in Hin; cbv zeta in Hin.
  apply in_flat_map in Hin as [r [_ Hr]].
  destruct (negb _); [destruct Hr|].
  set (headers := map _canon_header (nth (master_header_idx (row0 :: rows)) (row0 :: rows) [])) in Hr.
  destruct (is_empty (py_strip (dict_get (master_record headers r) (u "Production Name")))) eqn:Ep;
    [destruct Hr|]; destruct Hr as [<-|[]].
  destruct (master_record_fold headers r (combine (seq 0 (List.length headers)) headers) []
              (fun i h Hi => in_combine_r _ _ i h Hi) (NoDup_nil _) (fun k (Hk : In k []) => False_ind _ Hk))
    as [Hnd Hk].
  split; [exact Hnd|split; [|exact (not_empty_nil _ Ep)]].
  intros k Hx; destruct (Hk k Hx) as [Hne Hh]; split; [exact Hne|].
  unfold headers in Hh; apply in_map_iff in Hh as [h [<- _]]; apply canon_header_idem.
Qed.

(** *** [_start_month_from_status] *)

Lemma split_ws_aux_tokens : forall t cur,
  Forall (fun c => py_isspace c = false) cur ->
  Forall (fun w => w <> [] /\ Forall (fun c => py_isspace c = false) w) (split_ws_aux cur t).
Proof.
  induction t as [|c t IH]; intros cur Hcur; cbn [split_ws_aux].
  - destruct cur as [|x cur']; [constructor|].
    constructor; [|constructor]; split; [|apply Forall_rev; exact Hcur].
    intros H; apply (f_equal (@List.length Z)) in H; rewrite length_rev in H; discriminate.
  - destruct (py_isspace c) eqn:Hs.
    + destruct cur as [|x cur']; [apply IH; constructor|].
      constructor; [split|apply IH; constructor].
      * intros H; apply (f_equal (@List.length Z)) in H; rewrite length_rev in H; discriminate.
      * apply Forall_rev; exact Hcur.
    + apply IH; constructor; [exact Hs|exact Hcur].
Qed.

Lemma collapse_runs_none : forall p repl l, Forall (fun c => p c = false) l -> collapse_runs p repl false l = l.
Proof.
  intros p repl l H; induction H as [|c l Hc H IH]; cbn [collapse_runs]; [reflexivity|].
  rewrite Hc, IH; reflexivity.
Qed.

Lemma normalize_spaces_token : forall tok, tok <> [] -> Forall (fun c => py_isspace c = false) tok ->
  _normalize_spaces tok = tok.
Proof.
  intros tok Hne Hf; unfold _normalize_spaces.
  destruct tok as [|c r]; [contradiction|].
  destruct (exists_last Hne) as [r' [c' Hl]].
  assert (Hc' : py_isspace c' = false) by (rewrite Forall_forall in Hf; apply Hf; rewrite Hl; apply in_or_app; right; left; reflexivity).
  rewrite (strip_fixed (c :: r) c r r' c' eq_refl Hl (Forall_inv Hf) Hc').
  rewrite rx_sub_rep1; apply collapse_runs_none.
  rewrite Forall_forall in Hf |- *; intros x Hx; specialize (Hf x Hx).
  destruct (x =? 32) eqn:E1; [apply Z.eqb_eq in E1; subst x; discriminate Hf|].
  destruct (x =? 9) eqn:E2; [apply Z.eqb_eq in E2; subst x; discriminate Hf|reflexivity].
Qed.

(** X27. A non-empty status of blank characters only makes
    [_start_month_from_status] fail: nothing matches the month pattern and
    [txt.split()[0]] raises IndexError. *)
Theorem _start_month_from_status_blank : forall status_val,
  status_val <> [] -> py_strip status_val = [] -> _start_month_from_status status_val = None.
Proof.
  intros [|c s] Hne Hs; [contradiction|]; unfold _start_month_from_status; cbv zeta.
  rewrite Hs; vm_compute; reflexivity.
Qed.

(** X28. When the month pattern does not match, [_start_month_from_status]
    returns the first whitespace-separated word of the stripped status
    unchanged: a non-empty word with no blank in it. *)
Theorem _start_month_from_status_fallback : forall status_val tok rest,
  rx_search RE_STATUS_MONTH 2 (py_strip status_val) = None ->
  py_split_ws (py_strip status_val) = tok :: rest ->
  _start_month_from_status status_val = Some tok
  /\ tok <> [] /\ Forall (fun c => py_isspace c = false) tok.
Proof.
  intros status_val tok rest Hrx Hsp.
  pose proof (split_ws_aux_tokens (py_strip status_val) [] (Forall_nil _)) as Ht.
  unfold py_split_ws in Hsp; rewrite Hsp in Ht; apply Forall_inv in Ht as [Hne Hf].
  destruct status_val as [|c s]; [discriminate Hsp|].
  unfold _start_month_from_status; cbv zeta; rewrite Hrx; unfold py_split_ws; rewrite Hsp.
  rewrite normalize_spaces_token by assumption; split; [reflexivity|split; assumption].
Qed.

End Proofs.

(* ------------------------------------------------------------------ *)
(** * Concrete runs, with the ASCII-only character database *)

Module Concrete.
#[local] Existing Instance ucd_ascii_only.

(** C1: the wrap of "November 3 - March 15, 2026", end before start *)
Lemma C1_witness :
  let txt := u "November 3 - March 15, 2026" in
  let m := (0, 27, [None; Some (0, 8); Some (9, 10); None; Some (13, 18); Some (19, 21);
                    Some (23, 27)])%nat in
  rx_search RE_DATE_RANGE 6 txt = Some m
  /\ date_ltb (mkdate 2026 3 15) (mkdate 2026 11 3) = true
  /\ match py_date (py_int (gstr txt m 6) - 1) 11 (py_int (gstr txt m 2)) with
     | Some sd =>
         snd (fst (_parse_date_range txt)) = Some sd
         /\ snd (_parse_date_range txt) = Some (mkdate 2026 3 15)
         /\ dyear sd = py_int (gstr txt m 6) - 1
         /\ date_leb sd (mkdate 2026 3 15) = true
     | None => _parse_date_range txt = (gstr txt m 0, None, None)
     end.
Proof.
  cbv zeta.
  split; [vm_compute; reflexivity|split; [vm_compute; reflexivity|]].
  exact (proj1 _parse_date_range_year_wrap (u "November 3 - March 15, 2026")
           (0, 27, [None; Some (0, 8); Some (9, 10); None; Some (13, 18); Some (19, 21);
                    Some (23, 27)])%nat 11 3 (mkdate 2026 11 3) (mkdate 2026 3 15)
           ltac:(vm_compute; reflexivity) ltac:(vm_compute; reflexivity)
           ltac:(vm_compute; reflexivity) ltac:(vm_compute; reflexivity)
           ltac:(vm_compute; reflexivity) ltac:(vm_compute; reflexivity)).
Defined.

(** C1: the example text, without a comma before the year, yields no dates *)
Lemma C1_cex : ~ exists s sd ed,
  _parse_date_range (u "November 3 - March 15 2026") = (s, Some sd, Some ed)
  /\ dyear sd = 2025 /\ dyear ed = 2026.
Proof. intros [s [sd [ed [H _]]]]; vm_compute in H; discriminate H. Qed.

(** C2: old titles Alpha, Gamma, Delta; new titles Alpha (now with a City),
    Beta and Delta Two, with a title score of 100 for equal titles and 70
    for "delta two" against "delta": an Updated, a New, a renamed Updated
    and a Removed row *)
Lemma C2_witness :
  exists outs,
    compare_rows (fun a b => if str_eqb a b then 100%Q else if str_eqb a (u "delta two") && str_eqb b (u "delta") then 70%Q else 0%Q)
      [[(u "Production Name", u "Alpha")]; [(u "Production Name", u "Gamma")]; [(u "Production Name", u "Delta")]]
      [[(u "Production Name", u "Alpha"); (u "City", u "Paris")]; [(u "Production Name", u "Beta")]; [(u "Production Name", u "Delta Two")]]
      (u "old") (u "new") = Some outs
    /\ map (fun o => dict_get o (u "Notes")) outs
       = [u "UPDATED (City)"; u "NEW" ++ NOTE_DASH ++ u "from new";
          u "UPDATED (Name changed from 'Delta' to 'Delta Two')"; u "REMOVED" ++ NOTE_DASH ++ u "from old"]
    /\ forall o, In o outs ->
    (exists n_row, In n_row [[(u "Production Name", u "Alpha"); (u "City", u "Paris")]; [(u "Production Name", u "Beta")]; [(u "Production Name", u "Delta Two")]]
       /\ o = fill_na (dict_set (u "Notes") (u "NEW" ++ NOTE_DASH ++ u "from " ++ u "new")
                        (dict_set (u "Category") (u "New") n_row))
       /\ dict_get o (u "Notes") = u "NEW" ++ NOTE_DASH ++ u "from " ++ u "new")
    \/ (exists o_row, In o_row [[(u "Production Name", u "Alpha")]; [(u "Production Name", u "Gamma")]; [(u "Production Name", u "Delta")]]
       /\ o = fill_na (dict_set (u "Notes") (u "REMOVED" ++ NOTE_DASH ++ u "from " ++ u "old")
                        (dict_set (u "Category") (u "Removed") o_row))
       /\ dict_get o (u "Notes") = u "REMOVED" ++ NOTE_DASH ++ u "from " ++ u "old")
    \/ (exists o_row n_row, In o_row [[(u "Production Name", u "Alpha")]; [(u "Production Name", u "Gamma")]; [(u "Production Name", u "Delta")]] /\ In n_row [[(u "Production Name", u "Alpha"); (u "City", u "Paris")]; [(u "Production Name", u "Beta")]; [(u "Production Name", u "Delta Two")]]
       /\ _changed_fields o_row n_row <> []
       /\ o = fill_na (dict_set (u "Notes") (u "UPDATED (" ++ py_join (u ", ") (_changed_fields o_row n_row) ++ u ")")
                        (dict_set (u "Category") (u "Updated") n_row))
       /\ dict_get o (u "Notes") = u "UPDATED (" ++ py_join (u ", ") (_changed_fields o_row n_row) ++ u ")")
    \/ (exists o_row n_row, In o_row [[(u "Production Name", u "Alpha")]; [(u "Production Name", u "Gamma")]; [(u "Production Name", u "Delta")]] /\ In n_row [[(u "Production Name", u "Alpha"); (u "City", u "Paris")]; [(u "Production Name", u "Beta")]; [(u "Production Name", u "Delta Two")]]
       /\ o = fill_na (dict_set (u "Notes")
                        (u "UPDATED (Name changed from '" ++ dict_get o_row (u "Production Name") ++ u "' to '"
                           ++ dict_get n_row (u "Production Name") ++ u "')")
                        (dict_set (u "Category") (u "Updated") n_row))
       /\ dict_get o (u "Notes")
          = u "UPDATED (Name changed from '" ++ dict_get o_row (u "Production Name") ++ u "' to '"
              ++ dict_get n_row (u "Production Name") ++ u "')").
Proof.
  exists (match compare_rows (fun a b => if str_eqb a b then 100%Q else if str_eqb a (u "delta two") && str_eqb b (u "delta") then 70%Q else 0%Q)
                  [[(u "Production Name", u "Alpha")]; [(u "Production Name", u "Gamma")]; [(u "Production Name", u "Delta")]]
                  [[(u "Production Name", u "Alpha"); (u "City", u "Paris")]; [(u "Production Name", u "Beta")]; [(u "Production Name", u "Delta Two")]]
                  (u "old") (u "new") with Some outs => outs | None => [] end).
  split; [vm_compute; reflexivity|split; [vm_compute; reflexivity|]].
  exact (reconciliation_notes (fun a b => if str_eqb a b then 100%Q else if str_eqb a (u "delta two") && str_eqb b (u "delta") then 70%Q else 0%Q)
           [[(u "Production Name", u "Alpha")]; [(u "Production Name", u "Gamma")]; [(u "Production Name", u "Delta")]]
           [[(u "Production Name", u "Alpha"); (u "City", u "Paris")]; [(u "Production Name", u "Beta")]; [(u "Production Name", u "Delta Two")]]
           (u "old") (u "new") _ ltac:(vm_compute; reflexivity)).
Defined.

(** C2: the New row's note has no "#" ordinal *)
Lemma C2_cex :
  option_map (map (fun o => dict_get o (u "Notes")))
    (compare_rows (fun _ _ => 0%Q) [] [[(u "Production Name", u "Alpha")]] (u "old") (u "new"))
  = Some [u "NEW" ++ NOTE_DASH ++ u "from new"]
  /\ ~ In 35 (u "NEW" ++ NOTE_DASH ++ u "from new").
Proof.
  split; [vm_compute; reflexivity|].
  intros H; vm_compute in H; repeat (destruct H as [H|H]; [discriminate H|]); exact H.
Qed.

(** C3: two weekly rows with the key "alpha", the second more complete.
    The master compare keeps the first one ([w_map] keeps the first record
    of a key), while [_collapse_dupes], which no command calls, keeps the
    second. *)
Lemma C3_failing_run :
  option_map (map (fun o => (dict_get o (u "Production Name"), dict_get o (u "Description"), dict_get o (u "City"))))
    (master_compare_rows (fun _ => []) [] [[(u "Production Name", u "Alpha"); (u "Description", u "a")]; [(u "Production Name", u "ALPHA!"); (u "Description", u "b"); (u "City", u "Paris")]] [] (u "wk") [])
  = Some [(u "Alpha", u "a", [])]
  /\ assoc_get (u "alpha") (build_key_map [[(u "Production Name", u "Alpha"); (u "Description", u "a")]; [(u "Production Name", u "ALPHA!"); (u "Description", u "b"); (u "City", u "Paris")]]) = Some [(u "Production Name", u "Alpha"); (u "Description", u "a")]
  /\ assoc_get (u "alpha") (fst (_collapse_dupes [[(u "Production Name", u "Alpha"); (u "Description", u "a")]; [(u "Production Name", u "ALPHA!"); (u "Description", u "b"); (u "City", u "Paris")]])) = Some [(u "Production Name", u "ALPHA!"); (u "Description", u "b"); (u "City", u "Paris")]
  /\ (collapse_score [(u "Production Name", u "Alpha"); (u "Description", u "a")] < collapse_score [(u "Production Name", u "ALPHA!"); (u "Description", u "b"); (u "City", u "Paris")])%Z.
Proof. split; [|split; [|split]]; vm_compute; reflexivity. Qed.

(** C4: a second STATUS line and a LOCATION line *)
Lemma C4_witness :
  fst (sl_step [u "STATUS: A"; u "STATUS: B"] 1 (u "STATUS: B") (u "A", []))
    = py_strip (after_colon (u "STATUS: B"))
  /\ snd (sl_step [u "LOCATION: Paris"] 0 (u "LOCATION: Paris") ([], u "Rome"))
    = py_strip (after_colon (u "LOCATION: Paris")).
Proof.
  split.
  - exact (proj1 (proj2 _status_and_location_last_marker) [u "STATUS: A"; u "STATUS: B"] 1%nat
             (u "STATUS: B") (u "A", [])
             ltac:(vm_compute; reflexivity) ltac:(vm_compute; reflexivity) ltac:(vm_compute; reflexivity)).
  - exact (proj2 (proj2 _status_and_location_last_marker) [u "LOCATION: Paris"] 0%nat
             (u "LOCATION: Paris") ([], u "Rome")
             ltac:(vm_compute; reflexivity) ltac:(vm_compute; reflexivity)).
Defined.

(** C4: the later STATUS line wins *)
Lemma C4_cex : _status_and_location_from_lines [u "STATUS: A"; u "STATUS: B"] = (u "B", []).
Proof. vm_compute; reflexivity. Qed.

(** C5: a best score of 30 gives a New row *)
Lemma C5_witness :
  best_match (fun _ _ => 30%Q) (_norm_text (u "Beta")) [([(u "Production Name", u "Alpha")], false)]
    = (Some (0%nat, [(u "Production Name", u "Alpha")]), 30%Q)
  /\ compare_step (fun _ _ => 30%Q) (u "new") [([(u "Production Name", u "Alpha")], false)]
       [(u "Production Name", u "Beta")]
     = Some ([([(u "Production Name", u "Alpha")], false)],
             [fill_na (dict_set (u "Notes") (u "NEW" ++ NOTE_DASH ++ u "from " ++ u "new")
                         (dict_set (u "Category") (u "New") [(u "Production Name", u "Beta")]))]).
Proof.
  split; [vm_compute; reflexivity|].
  exact (proj2 (proj2 (proj2 (compare_step_thresholds (fun _ _ => 30%Q) (u "new")
           [([(u "Production Name", u "Alpha")], false)] [(u "Production Name", u "Beta")]
           (Some (0%nat, [(u "Production Name", u "Alpha")])) 30%Q ltac:(vm_compute; reflexivity))))
           ltac:(vm_compute; reflexivity)).
Defined.

(** C6: the City example of the spec both ways, and an N/A master Type *)
Lemma C6_witness :
  ~ In (u "City") (_changed_vs_master [(u "City", u "Vancouver, BC")] [(u "City", [])])
  /\ In (u "City") (_changed_vs_master [(u "City", [])] [(u "City", u "Vancouver, BC")])
  /\ In (u "Type") (_changed_vs_master [(u "Type", u "N/A")] [(u "Type", u "Series")]).
Proof.
  split; [|split].
  - exact (proj1 (_changed_vs_master_blank_rule (fun c _ H => False_ind _ (H eq_refl))
             [(u "City", u "Vancouver, BC")] [(u "City", [])]) (u "City")
             ltac:(vm_compute; reflexivity) ltac:(vm_compute; reflexivity)).
  - exact (proj1 (proj2 (_changed_vs_master_blank_rule (fun c _ H => False_ind _ (H eq_refl))
             [(u "City", [])] [(u "City", u "Vancouver, BC")])) (u "City")
             ltac:(apply str_in_iff; vm_compute; reflexivity) ltac:(vm_compute; discriminate)
             ltac:(vm_compute; discriminate) ltac:(vm_compute; reflexivity) ltac:(vm_compute; reflexivity)).
  - exact (proj1 (proj2 (_changed_vs_master_blank_rule (fun c _ H => False_ind _ (H eq_refl))
             [(u "Type", u "N/A")] [(u "Type", u "Series")])) (u "Type")
             ltac:(apply str_in_iff; vm_compute; reflexivity) ltac:(vm_compute; discriminate)
             ltac:(vm_compute; discriminate) ltac:(vm_compute; reflexivity) ltac:(vm_compute; reflexivity)).
Defined.

(** C6: a master row titled "None" with no Start Month and a weekly row
    titled "None!" with Start Month "March", both with the same Shooting
    Dates: they share the key "none", and neither field is flagged *)
Lemma C6_cex :
  let m := [(u "Production Name", u "None"); (u "Shooting Dates", u "March 2 - April 7 2026");
            (u "Start Month", [])] in
  let w := [(u "Production Name", u "None!"); (u "Shooting Dates", u "March 2 - April 7 2026");
            (u "Start Month", u "March")] in
  _norm_key (dict_get m (u "Production Name")) = u "none"
  /\ _norm_key (dict_get w (u "Production Name")) = u "none"
  /\ master_compare_rows (fun _ => []) [m] [w] [] (u "wk") [] = Some []
  /\ _changed_vs_master m w = []
  /\ ~ (forall f, In f _FIELDS_TO_COMPARE_AGAINST_MASTER ->
          str_in (_norm_text (dict_get m f)) NA_TOKENS = true ->
          str_in (_norm_text (dict_get w f)) NA_TOKENS = false ->
          In f (_changed_vs_master m w)).
Proof.
  cbv zeta; split; [vm_compute; reflexivity|split; [vm_compute; reflexivity|]].
  split; [vm_compute; reflexivity|split; [vm_compute; reflexivity|]].
  intros H; pose proof (H (u "Start Month") ltac:(apply str_in_iff; vm_compute; reflexivity)
                          ltac:(vm_compute; reflexivity) ltac:(vm_compute; reflexivity)) as H'.
  vm_compute in H'; exact H'.
Qed.
(** C8: BC in Canada, USA, and an unknown country *)
Lemma C8_witness :
  region_bucket (u "Vancouver") (u "BC") (u "Canada")
    = (if str_eqb (first_region_of (u "BC")) (u "BC") then u "West Coast Canada"
       else if str_eqb (first_region_of (u "BC")) (u "QC") then u "Quebec"
       else u "East Coast Canada")
  /\ region_bucket (u "Austin") (u "TX") (u "United States") = u "United States"
  /\ region_bucket (u "Oz") (u "EC") (u "Narnia") = u "Other".
Proof.
  split; [|split].
  - exact (proj1 (proj2 (region_bucket_spec (u "Vancouver") (u "BC") (u "Canada")))
             ltac:(vm_compute; reflexivity)).
  - exact (proj1 (proj2 (proj2 (region_bucket_spec (u "Austin") (u "TX") (u "United States"))))
             ltac:(apply str_in_iff; vm_compute; reflexivity)).
  - exact (proj2 (proj2 (proj2 (proj2 (region_bucket_spec (u "Oz") (u "EC") (u "Narnia")))))
             ltac:(intros H; apply str_in_iff in H; vm_compute in H; discriminate H)).
Defined.



(** C10: a punctuation-only title next to a real one *)
Lemma C10_witness :
  exists outs,
    master_compare_rows (fun _ => []) [] [[(u "Production Name", u "!!!")]; [(u "Production Name", u "Alpha")]]
      [] (u "wk") [] = Some outs
    /\ forall o, In o outs -> exists w,
         In w [[(u "Production Name", u "!!!")]; [(u "Production Name", u "Alpha")]]
         /\ _norm_key (dict_get w (u "Production Name")) <> []
         /\ dict_get o (u "Production Name") = dict_get w (u "Production Name").
Proof.
  exists (match master_compare_rows (fun _ => []) []
                  [[(u "Production Name", u "!!!")]; [(u "Production Name", u "Alpha")]] [] (u "wk") []
          with Some outs => outs | None => [] end).
  split; [vm_compute; reflexivity|].
  exact (proj2 (master_compare_empty_key_omitted (fun _ => []) []
           [[(u "Production Name", u "!!!")]; [(u "Production Name", u "Alpha")]] [] (u "wk") [])
           _ ltac:(vm_compute; reflexivity)).
Defined.

End Concrete.

Module ConcreteExtra.
#[local] Existing Instance ucd_ascii_only.

(** X5: "March 2 - April 7 2026" *)
Lemma X5_witness :
  _parse_span_flexible (u "March 2 - April 7 2026") = Some (mkdate 2026 3 2, mkdate 2026 4 7)
  /\ date_leb (mkdate 2026 3 2) (mkdate 2026 4 7) = true /\ dyear (mkdate 2026 3 2) = dyear (mkdate 2026 4 7).
Proof.
  split; [vm_compute; reflexivity|].
  apply (_parse_span_flexible_ordered (u "March 2 - April 7 2026")); vm_compute; reflexivity.
Defined.

(** X6: "March 2 - April 7, 2027" *)
Lemma X6_witness :
  let txt := u "March 2 - April 7, 2027" in
  _parse_date_range txt = (fst (fst (_parse_date_range txt)), Some (mkdate 2027 3 2), Some (mkdate 2027 4 7))
  /\ date_leb (mkdate 2027 3 2) (mkdate 2027 4 7) = true.
Proof.
  cbv zeta; split; [vm_compute; reflexivity|].
  apply (_parse_date_range_ordered (u "March 2 - April 7, 2027")
           (fst (fst (_parse_date_range (u "March 2 - April 7, 2027"))))); vm_compute; reflexivity.
Defined.

(** X7: the ordinal 42 *)
Lemma X7_witness :
  0 <= 42 < 1000 /\ List.length (z_to_str03 42) = 3%nat
  /\ Forall (fun c => is_ascii_digit c = true) (z_to_str03 42) /\ py_int (z_to_str03 42) = 42.
Proof. split; [lia|]. apply (z_to_str03_round_trip 42); lia. Defined.

(** X8: "March 2 - April 7, 2027" spans 37 days *)
Lemma X8_witness :
  let txt := u "March 2 - April 7, 2027" in
  _parse_date_range txt = (fst (fst (_parse_date_range txt)), Some (mkdate 2027 3 2), Some (mkdate 2027 4 7))
  /\ (let n := _inclusive_days (Some (mkdate 2027 3 2)) (Some (mkdate 2027 4 7)) in
      n <> [] /\ Forall (fun c => is_ascii_digit c = true) n /\ 1 <= py_int n
      /\ py_int n = toordinal (mkdate 2027 4 7) - toordinal (mkdate 2027 3 2) + 1).
Proof.
  cbv zeta; split; [vm_compute; reflexivity|].
  apply (_inclusive_days_of_parsed_range (u "March 2 - April 7, 2027")
           (fst (fst (_parse_date_range (u "March 2 - April 7, 2027"))))); vm_compute; reflexivity.
Defined.

(** X12: a master file whose only region is Quebec *)
Lemma X12_witness :
  let rows := [[(u "Region", u "Quebec")]; [(u "Region", u " ")]] in
  u "Quebec" <> []
  /\ (_region_from_master rows = u "Quebec" <->
      (exists r, In r rows /\ py_strip (dict_get r (u "Region")) = u "Quebec")
      /\ forall r, In r rows -> py_strip (dict_get r (u "Region")) = [] \/ py_strip (dict_get r (u "Region")) = u "Quebec").
Proof.
  cbv zeta; split; [discriminate|].
  apply (_region_from_master_spec [[(u "Region", u "Quebec")]; [(u "Region", u " ")]] (u "Quebec")); discriminate.
Defined.

(** X14: one old row matched by a new row with the same title *)
Lemma X14_witness :
  let olds := [([(u "Production Name", u "Alpha")], false)] in
  let olds' := [([(u "Production Name", u "Alpha")], true)] in
  compare_loop (fun _ _ => 100%Q) (u "new") olds [[(u "Production Name", u "Alpha")]] [] = Some (olds', [])
  /\ map fst olds' = map fst olds /\ Forall2 (fun a b => snd a = true -> snd b = true) olds olds'.
Proof.
  cbv zeta; split; [vm_compute; reflexivity|].
  apply (compare_loop_keeps_old_rows (fun _ _ => 100%Q) (u "new") [([(u "Production Name", u "Alpha")], false)]
           [[(u "Production Name", u "Alpha")]] [] [([(u "Production Name", u "Alpha")], true)] []).
  vm_compute; reflexivity.
Defined.

(** X17: a title seen in both runs, with its City changed *)
Lemma X17_witness :
  let tsr := fun _ _ : pystr => 100%Q in
  let olds := [[(u "Production Name", u "Alpha")]] in
  let news := [[(u "Production Name", u "Alpha"); (u "City", u "Paris")]] in
  let outs := match compare_rows tsr olds news (u "old") (u "new") with Some o => o | None => [] end in
  compare_rows tsr olds news (u "old") (u "new") = Some outs /\ In (hd [] outs) outs
  /\ ((dict_get (hd [] outs) (u "Category") = u "New"
       /\ dict_get (hd [] outs) (u "Notes") = u "NEW" ++ NOTE_DASH ++ u "from " ++ u "new")
      \/ (dict_get (hd [] outs) (u "Category") = u "Removed"
          /\ dict_get (hd [] outs) (u "Notes") = u "REMOVED" ++ NOTE_DASH ++ u "from " ++ u "old")
      \/ (dict_get (hd [] outs) (u "Category") = u "Updated"
          /\ exists rest, dict_get (hd [] outs) (u "Notes") = u "UPDATED (" ++ rest)).
Proof.
  cbv zeta; split; [vm_compute; reflexivity|split; [vm_compute; left; reflexivity|]].
  match goal with |- context [dict_get (hd [] ?outs) _] =>
    apply (compare_rows_category (fun _ _ => 100%Q) [[(u "Production Name", u "Alpha")]]
             [[(u "Production Name", u "Alpha"); (u "City", u "Paris")]] (u "old") (u "new") outs) end.
  - vm_compute; reflexivity.
  - vm_compute; left; reflexivity.
Defined.

(** X20: a weekly record located in the USA, compared for the United States *)
Lemma X20_witness :
  let weekly := [[(u "Production Name", u "Alpha"); (u "Country", u "USA")]] in
  let outs := match master_compare_rows (fun _ => []) [] weekly [u "Alpha"] (u "wk") (u "United States")
              with Some o => o | None => [] end in
  master_compare_rows (fun _ => []) [] weekly [u "Alpha"] (u "wk") (u "United States") = Some outs
  /\ In (hd [] outs) outs
  /\ (dict_get (hd [] outs) (u "Category") = u "Updated vs Master"
      \/ dict_get (hd [] outs) (u "Category") = u "New to Master")
  /\ (let region' := if is_empty (u "United States") then _region_from_master [] else u "United States" in
      region' <> [] -> dict_get (hd [] outs) (u "Region Bucket") = region').
Proof.
  cbv zeta; split; [vm_compute; reflexivity|split; [vm_compute; left; reflexivity|]].
  match goal with |- context [dict_get (hd [] ?outs) _] =>
    apply (master_compare_rows_category_bucket (fun _ => []) []
             [[(u "Production Name", u "Alpha"); (u "Country", u "USA")]] [u "Alpha"] (u "wk") (u "United States")
             outs) end.
  - vm_compute; reflexivity.
  - vm_compute; left; reflexivity.
Defined.

(** X21: the region "Mars" *)
Lemma X21_witness :
  let weekly := [[(u "Production Name", u "Alpha"); (u "Country", u "USA")]] in
  (if is_empty (u "Mars") then _region_from_master [] else u "Mars") <> []
  /\ ~ In (if is_empty (u "Mars") then _region_from_master [] else u "Mars") (map fst REGION_FILE_MAP)
  /\ master_compare_rows (fun _ => []) [] weekly [u "Alpha"] (u "wk") (u "Mars") = Some [].
Proof.
  cbv zeta; split; [discriminate|split].
  - intros H; apply str_in_iff in H; vm_compute in H; discriminate H.
  - apply (master_compare_unknown_region (fun _ => []) []
             [[(u "Production Name", u "Alpha"); (u "Country", u "USA")]] [u "Alpha"] (u "wk") (u "Mars")).
    + discriminate.
    + intros H; apply str_in_iff in H; vm_compute in H; discriminate H.
Defined.

(** X26: a master CSV with the header "Title" *)
Lemma X26_witness :
  let rows := [[u "Title"; u "City"]; [u "Alpha"; u "Paris"]] in
  let rec := hd [] (_read_master_rows rows) in
  In rec (_read_master_rows rows)
  /\ NoDup (map fst rec)
  /\ (forall k, In k (map fst rec) -> k <> [] /\ _canon_header k = k)
  /\ py_strip (dict_get rec (u "Production Name")) <> [].
Proof.
  cbv zeta; split; [vm_compute; left; reflexivity|].
  apply (_read_master_rows_records [[u "Title"; u "City"]; [u "Alpha"; u "Paris"]]).
  vm_compute; left; reflexivity.
Defined.

(** X27: a status of three blanks *)
Lemma X27_witness :
  u "   " <> [] /\ py_strip (u "   ") = [] /\ _start_month_from_status (u "   ") = None.
Proof.
  split; [discriminate|split; [vm_compute; reflexivity|]].
  apply (_start_month_from_status_blank (u "   ")); [discriminate|vm_compute; reflexivity].
Defined.

(** X28: the status "Filming now" *)
Lemma X28_witness :
  rx_search RE_STATUS_MONTH 2 (py_strip (u "Filming now")) = None
  /\ py_split_ws (py_strip (u "Filming now")) = u "Filming" :: [u "now"]
  /\ _start_month_from_status (u "Filming now") = Some (u "Filming")
  /\ u "Filming" <> [] /\ Forall (fun c => py_isspace c = false) (u "Filming").
Proof.
  split; [vm_compute; reflexivity|split; [vm_compute; reflexivity|]].
  apply (_start_month_from_status_fallback (u "Filming now") (u "Filming") [u "now"]);
    vm_compute; reflexivity.
Defined.

End ConcreteExtra.
